(** * The merge plan compiler of mergekit ([mergekit/plan.py])

    A shallow embedding of [MergePlanner]: the configuration records it
    reads and rewrites, the task nodes it builds, and its methods
    [normalize_config], [plan_tensor], [plan_layer], [plan_slice] and
    [plan] as programs of a state-and-exception monad over the Python
    objects they mutate. *)

From Stdlib Require Import ZArith QArith Qabs String List Lia SpecFloat.
From stdpp Require Import base decidable option list strings countable gmap.

Close Scope Q_scope.
Open Scope Z_scope.
Open Scope string_scope.
Open Scope list_scope.

(** ** Python values *)

(** Truthiness of the objects [plan.py] tests with [if x:]: [None] and
    the empty list or string are false, every other value is true. *)
Class Truthy (A : Type) := truthy : A -> bool.

#[export] Instance truthy_list {A} : Truthy (list A) :=
  fun l => match l with [] => false | _ :: _ => true end.

#[export] Instance truthy_string : Truthy string :=
  fun s => match s with EmptyString => false | String _ _ => true end.

#[export] Instance truthy_bool : Truthy bool := fun b => b.

(** An [Optional[T]] field: [None] is false, [Some x] is as true as [x]. *)
#[export] Instance truthy_option {A} `{Truthy A} : Truthy (option A) :=
  fun o => match o with None => false | Some x => truthy x end.

(** A [dict] built by assignments [d[k] = v]: assigning to a key that is
    present replaces its value in place, a new key goes to the end. *)
Fixpoint dict_set {K V} `{EqDecision K} (d : list (K * V)) (k : K) (v : V)
  : list (K * V) :=
  match d with
  | [] => [(k, v)]
  | (k', v') :: d' =>
      if decide (k' = k) then (k, v) :: d' else (k', v') :: dict_set d' k v
  end.

Fixpoint dict_get {K V} `{EqDecision K} (d : list (K * V)) (k : K) : option V :=
  match d with
  | [] => None
  | (k', v) :: d' => if decide (k' = k) then Some v else dict_get d' k
  end.

(** ** Data model *)

(** [mergekit.common.ModelReference]: a location and an optional revision,
    compared by value. *)
Record ModelReference := {
  mr_path : string;
  mr_revision : option string;
}.

#[export] Instance ModelReference_eq_dec : EqDecision ModelReference.
Proof. solve_decision. Defined.

#[export] Instance ModelReference_countable : Countable ModelReference.
Proof.
  refine (inj_countable' (fun m => (mr_path m, mr_revision m))
                         (fun p => {| mr_path := p.1; mr_revision := p.2 |}) _).
  by intros [].
Defined.

(** Instances of pydantic models are always true. *)
#[export] Instance truthy_ModelReference : Truthy ModelReference := fun _ => true.

(** The value of a merge-method parameter ([Any] in the source). *)
Inductive Value :=
| VInt (z : Z)
| VStr (s : string)
| VBool (b : bool).

(** Parameter overrides attached to a configuration or to one model:
    settings that hold for one named tensor, and settings that hold for
    every tensor. *)
Record Overrides := {
  by_tensor : list ((string * string) * Value);
  plain : list (string * Value);
}.

(** [mergekit.architecture.WeightInfo], the fields [plan.py] reads. *)
Record WeightInfo := {
  w_name : string;
  is_embed : bool;
  is_lm_head : bool;
  aliases : list string;
}.

(** A model's on-disk configuration. *)
Record ModelConfig := {
  architectures : list string;
  num_hidden_layers : Z;
}.

(** [mergekit.architecture.ArchitectureInfo]: the ordered weight
    descriptors before, inside and after the layer stack, the layer count
    and the procedural alignment spaces, each for a given model
    configuration. *)
Record ArchitectureInfo := {
  pre_weights : ModelConfig -> list WeightInfo;
  layer_weights : Z -> ModelConfig -> list WeightInfo;
  post_weights : ModelConfig -> list WeightInfo;
  num_layers : ModelConfig -> Z;
  procedural_spaces : ModelConfig -> list string;
}.

(** [mergekit.architecture.ConfiguredArchitectureInfo]. *)
Record ConfiguredArchitectureInfo := {
  info : ArchitectureInfo;
  config : ModelConfig;
}.

Definition cai_num_layers (a : ConfiguredArchitectureInfo) : Z :=
  num_layers (info a) (config a).

Definition cai_layer_weights (a : ConfiguredArchitectureInfo) (index : Z)
  : list WeightInfo :=
  layer_weights (info a) index (config a).

(** [mergekit.config.InputModelDefinition]: an entry of the shorthand
    list [models]. *)
Record InputModelDefinition := {
  im_model : ModelReference;
  im_parameters : option Overrides;
}.

(** [mergekit.config.InputSliceDefinition]; [layer_range] is the pair
    [start, end] of a half-open range. *)
Record InputSliceDefinition := {
  layer_range : Z * Z;
  is_model : ModelReference;
  is_parameters : option Overrides;
}.

(** [mergekit.config.OutputSliceDefinition]. *)
Record OutputSliceDefinition := {
  sources : list InputSliceDefinition;
}.

(** [mergekit.config.MergeConfiguration], the fields [plan.py] reads. *)
Record MergeConfiguration := {
  merge_method : string;
  base_model : option ModelReference;
  tokenizer_source : option string;
  align_weights : bool;
  dtype : option string;
  models : option (list InputModelDefinition);
  slices : option (list OutputSliceDefinition);
  parameters : option Overrides;
}.

(** [mergekit.options.MergeOptions], the fields [plan.py] reads. *)
Record MergeOptions := {
  clone_tensors : bool;
  trust_remote_code : bool;
  out_shard_size : Z;
  safe_serialization : bool;
}.

(** ** Task nodes *)

(** [mergekit.io.tasks.TensorWriterTask]. *)
Record TensorWriterTask := {
  out_path : string;
  max_shard_size : Z;
  tw_safe_serialization : bool;
}.

(** [mergekit.tokenizer.BuildTokenizer]. *)
Record BuildTokenizer := {
  bt_base_model : option ModelReference;
  bt_referenced_models : list ModelReference;
  bt_tokenizer_source : option string;
  bt_trust_remote_code : bool;
}.

#[export] Instance truthy_BuildTokenizer : Truthy BuildTokenizer := fun _ => true.

(** A merge method: the one the registry returns for the configured
    identifier, or the vocabulary-permutation method built around the
    tokenizer task. *)
Inductive MergeMethod :=
| RegisteredMethod (method_id : string)
| TokenizerPermutationMerge (tokenizer_task : BuildTokenizer).

(** [mergekit.merge_methods.base.ConfigParameterDef]. *)
Record ConfigParameterDef := {
  p_name : string;
  required : bool;
  default_value : option Value;
}.

(** The nodes of the dependency graph. A node holds the nodes it depends
    on as fields. [MergeTask] is what a merge method's [make_task]
    returns; [AlignedLoad] is what [SpacePlanner.align_tensor] returns. *)
#[local] Unset Elimination Schemes.
Inductive Task :=
| LoadTensor (model : ModelReference) (tensor : string)
             (load_dtype : option string) (load_aliases : list string)
| AlignedLoad (model : ModelReference) (weight : WeightInfo) (task : Task)
| CollectDictTask (tasks : list (ModelReference * Task))
| MergeTask (method : MergeMethod) (output_weight : WeightInfo)
            (tensors : Task)
            (global_params : list (string * option Value))
            (tensor_params : list (ModelReference * list (string * option Value)))
            (task_base_model : option ModelReference)
| SaveTensor (tensor_name : string) (tensor_task : Task)
             (writer_task : TensorWriterTask) (clone : bool)
| FinalizeModel (tensor_save_tasks : list Task) (writer_task : TensorWriterTask)
| TokenizerTask (b : BuildTokenizer).
#[local] Set Elimination Schemes.

(** ** The alignment accumulator *)

(** Modelled from the spec: [mergekit.matching.SpacePlanner] is not part
    of the sources at hand. The planner only calls its three methods, so
    the accumulator is modelled by the calls it has received, oldest
    first: [add_procedural_space] (registerSpace), [add_weight]
    (registerWeight) and [align_tensor] (alignLoad, which returns the load
    task wrapped with the model's transform). *)
Inductive SpaceEvent :=
| EvAddProceduralSpace (space : string)
| EvAddWeight (weight : WeightInfo) (pairs : list (ModelReference * WeightInfo))
| EvAlignTensor (model : ModelReference) (weight : WeightInfo) (task : Task).

Record SpacePlanner := {
  sp_base_model : ModelReference;
  sp_events : list SpaceEvent;
}.

#[export] Instance truthy_SpacePlanner : Truthy SpacePlanner := fun _ => true.

Definition sp_record (e : SpaceEvent) (sp : SpacePlanner) : SpacePlanner :=
  {| sp_base_model := sp_base_model sp; sp_events := sp_events sp ++ [e] |}.

(** ** Parameter resolution *)

(** The context a parameter is resolved in: the configuration, the
    interpolation fraction, the target tensor and the owning output
    slice. *)
Record ConfigReader := {
  r_config : MergeConfiguration;
  r_t : Q;
  r_tensor_name : option string;
  r_slice_out : option OutputSliceDefinition;
}.

Definition for_tensor (r : ConfigReader) (tensor_name : string) : ConfigReader :=
  {| r_config := r_config r; r_t := r_t r;
     r_tensor_name := Some tensor_name; r_slice_out := r_slice_out r |}.

Definition with_t (r : ConfigReader) (t : Q) : ConfigReader :=
  {| r_config := r_config r; r_t := t;
     r_tensor_name := r_tensor_name r; r_slice_out := r_slice_out r |}.

Definition for_out_slice (r : ConfigReader) (s : OutputSliceDefinition)
  : ConfigReader :=
  {| r_config := r_config r; r_t := r_t r;
     r_tensor_name := r_tensor_name r; r_slice_out := Some s |}.

(** What planning can raise. [ConfigurationError] is the failure of
    parameter resolution and carries the parameter, the tensor and the
    model it was resolved for. *)
Inductive Exn :=
| RuntimeError (msg : string)
| IndexError
| TypeError
| KeyError (key : ModelReference)
| ConfigurationError (param : string) (tensor : option string)
                     (model : option ModelReference).

(** The overrides listed for [model] among the sources of the owning
    output slice. *)
Definition model_overrides (r : ConfigReader) (model : option ModelReference)
  : option Overrides :=
  m ← model;
  s ← r_slice_out r;
  src ← List.find (fun src => bool_decide (is_model src = m)) (sources s);
  is_parameters src.

Definition tensor_setting (o : option Overrides) (name : string)
    (tensor : option string) : option Value :=
  ov ← o; tn ← tensor; dict_get (by_tensor ov) (name, tn).

Definition plain_setting (o : option Overrides) (name : string) : option Value :=
  ov ← o; dict_get (plain ov) name.

(** The first value present along a precedence chain. *)
Fixpoint first_present {A} (chain : list (option A)) : option A :=
  match chain with
  | [] => None
  | Some v :: _ => Some v
  | None :: rest => first_present rest
  end.

(** Modelled from the spec: [ConfigReader.parameter] lives in
    [mergekit/config.py], which is not part of the sources at hand. The
    effective value follows the precedence per-tensor-per-model override,
    per-tensor override, per-model override, global override, declared
    default; a parameter flagged required that resolves to no value
    through this chain is a configuration error identifying the
    parameter, the tensor and the model. *)
Definition parameter (r : ConfigReader) (name : string)
    (model : option ModelReference) (required : bool)
    (default : option Value) : Exn + option Value :=
  let chain :=
    [ tensor_setting (model_overrides r model) name (r_tensor_name r);
      tensor_setting (parameters (r_config r)) name (r_tensor_name r);
      plain_setting (model_overrides r model) name;
      plain_setting (parameters (r_config r)) name;
      default ] in
  match first_present chain with
  | Some v => inr (Some v)
  | None =>
      if required then inl (ConfigurationError name (r_tensor_name r) model)
      else inr None
  end.

(** ** The planner object *)

(** An instance of [MergePlanner]. The class body gives [_tasks],
    [_current_layers], [_tokenizer_task] and [_space_planner] class-level
    defaults. The last three defaults are immutable and assigning through
    [self] shadows them, so they are plain fields here. [_tasks] defaults
    to a list object owned by the class: [inst_tasks] is [None] as long
    as the instance has no [_tasks] attribute of its own, and reads and
    in-place updates of [self._tasks] then reach the list of the class. *)
Record MergePlanner := {
  self_config : MergeConfiguration;
  self_clone_tensors : bool;
  self_trust_remote_code : bool;
  out_model_config : ModelConfig;
  _writer_task : TensorWriterTask;
  _method : MergeMethod;
  inst_tasks : option (list Task);
  _current_layers : Z;
  _tokenizer_task : option BuildTokenizer;
  _space_planner : option SpacePlanner;
  arch_dict : gmap ModelReference ConfiguredArchitectureInfo;
  arch_info : ArchitectureInfo;
}.

(** The objects a method of one planner can reach: the list held by the
    class attribute [MergePlanner._tasks], shared by every instance, and
    the instance itself. *)
Record Store := {
  class_tasks : list Task;
  self : MergePlanner;
}.

(** [self._tasks], by attribute lookup: the instance first, then the
    class. *)
Definition _tasks (st : Store) : list Task :=
  match inst_tasks (self st) with
  | Some l => l
  | None => class_tasks st
  end.

(** A method call either returns or raises; the store it leaves behind
    is observable in both cases. *)
Inductive Outcome (A : Type) :=
| Return (a : A) (st : Store)
| Raise (e : Exn) (st : Store).
Arguments Return {A} a st.
Arguments Raise {A} e st.

Definition M (A : Type) : Type := Store -> Outcome A.

Definition ret {A} (a : A) : M A := fun st => Return a st.

Definition raise {A} (e : Exn) : M A := fun st => Raise e st.

Definition bind {A B} (m : M A) (k : A -> M B) : M B :=
  fun st =>
    match m st with
    | Return a st' => k a st'
    | Raise e st' => Raise e st'
    end.

Notation "'let*' x ':=' m 'in' k" := (bind m (fun x => k))
  (at level 10, x name, m at level 100, k at level 200).
Notation "m ';;' k" := (bind m (fun _ => k))
  (at level 100, k at level 200, right associativity).

Definition get_self : M MergePlanner := fun st => Return (self st) st.

Definition put_self (p : MergePlanner) : M unit :=
  fun st => Return tt {| class_tasks := class_tasks st; self := p |}.

(** A pure computation that may raise. *)
Definition lift {A} (r : Exn + A) : M A :=
  match r with
  | inl e => raise e
  | inr a => ret a
  end.

(** [for x in l: body(x)]. *)
Fixpoint for_each {A} (l : list A) (body : A -> M unit) : M unit :=
  match l with
  | [] => ret tt
  | x :: l' => body x ;; for_each l' body
  end.

(** The state of the store after a call, whatever its outcome. *)
Definition final_store {A} (o : Outcome A) : Store :=
  match o with
  | Return _ st => st
  | Raise _ st => st
  end.

(** ** External collaborators *)

(** A cross-architecture weight-name mapping, an entry of
    [JSON_MAPPINGS]. *)
Definition Mapping : Type := list (string * string).

(** What the planner obtains from modules outside [plan.py]: the
    parameter schemas of the merge methods, the models a configuration
    references, the on-disk configuration of a model, the architecture
    metadata of a configuration, and the mapping table with the update it
    drives. *)
Record Env := {
  method_parameters : MergeMethod -> list ConfigParameterDef;
  method_tensor_parameters : MergeMethod -> list ConfigParameterDef;
  referenced_models : MergeConfiguration -> list ModelReference;
  model_config : ModelReference -> ModelConfig;
  get_architecture_info : ModelConfig -> ArchitectureInfo;
  JSON_MAPPINGS : string -> string -> option Mapping;
  update_overrides :
    ConfiguredArchitectureInfo -> Mapping -> ConfiguredArchitectureInfo;
}.

(** ** Field updates of the planner *)

Definition set_config (c : MergeConfiguration) (p : MergePlanner) : MergePlanner :=
  {| self_config := c; self_clone_tensors := self_clone_tensors p;
     self_trust_remote_code := self_trust_remote_code p;
     out_model_config := out_model_config p; _writer_task := _writer_task p;
     _method := _method p; inst_tasks := inst_tasks p;
     _current_layers := _current_layers p;
     _tokenizer_task := _tokenizer_task p; _space_planner := _space_planner p;
     arch_dict := arch_dict p; arch_info := arch_info p |}.

Definition set_inst_tasks (l : option (list Task)) (p : MergePlanner) : MergePlanner :=
  {| self_config := self_config p; self_clone_tensors := self_clone_tensors p;
     self_trust_remote_code := self_trust_remote_code p;
     out_model_config := out_model_config p; _writer_task := _writer_task p;
     _method := _method p; inst_tasks := l;
     _current_layers := _current_layers p;
     _tokenizer_task := _tokenizer_task p; _space_planner := _space_planner p;
     arch_dict := arch_dict p; arch_info := arch_info p |}.

Definition set_current_layers (n : Z) (p : MergePlanner) : MergePlanner :=
  {| self_config := self_config p; self_clone_tensors := self_clone_tensors p;
     self_trust_remote_code := self_trust_remote_code p;
     out_model_config := out_model_config p; _writer_task := _writer_task p;
     _method := _method p; inst_tasks := inst_tasks p;
     _current_layers := n;
     _tokenizer_task := _tokenizer_task p; _space_planner := _space_planner p;
     arch_dict := arch_dict p; arch_info := arch_info p |}.

Definition set_space_planner (sp : option SpacePlanner) (p : MergePlanner)
  : MergePlanner :=
  {| self_config := self_config p; self_clone_tensors := self_clone_tensors p;
     self_trust_remote_code := self_trust_remote_code p;
     out_model_config := out_model_config p; _writer_task := _writer_task p;
     _method := _method p; inst_tasks := inst_tasks p;
     _current_layers := _current_layers p;
     _tokenizer_task := _tokenizer_task p; _space_planner := sp;
     arch_dict := arch_dict p; arch_info := arch_info p |}.

Definition set_slices_models (sl : option (list OutputSliceDefinition))
    (ms : option (list InputModelDefinition)) (c : MergeConfiguration)
  : MergeConfiguration :=
  {| merge_method := merge_method c; base_model := base_model c;
     tokenizer_source := tokenizer_source c; align_weights := align_weights c;
     dtype := dtype c; models := ms; slices := sl;
     parameters := parameters c |}.

(** [self._tasks = l]: the instance gets a list of its own. *)
Definition assign_tasks (l : list Task) : M unit :=
  fun st =>
    Return tt {| class_tasks := class_tasks st;
                 self := set_inst_tasks (Some l) (self st) |}.

(** [self._tasks.append(t)]: the list [self._tasks] resolves to is
    extended in place, be it the instance's or the class's. *)
Definition append_task (t : Task) : M unit :=
  fun st =>
    match inst_tasks (self st) with
    | Some l =>
        Return tt {| class_tasks := class_tasks st;
                     self := set_inst_tasks (Some (l ++ [t])) (self st) |}
    | None =>
        Return tt {| class_tasks := class_tasks st ++ [t]; self := self st |}
    end.

Definition get_tasks : M (list Task) := fun st => Return (_tasks st) st.

(** A call of a method of the alignment accumulator, when there is one. *)
Definition space_planner_record (evs : list SpaceEvent) : M unit :=
  let* p := get_self in
  match _space_planner p with
  | Some sp =>
      put_self (set_space_planner
                  (Some {| sp_base_model := sp_base_model sp;
                           sp_events := sp_events sp ++ evs |}) p)
  | None => ret tt
  end.

(** A list comprehension whose element expression may raise. *)
Fixpoint map_exn {A B} (f : A -> Exn + B) (l : list A) : Exn + list B :=
  match l with
  | [] => inr []
  | x :: l' =>
      match f x with
      | inl e => inl e
      | inr y =>
          match map_exn f l' with
          | inl e => inl e
          | inr ys => inr (y :: ys)
          end
      end
  end.

(** [d[k]] on the architecture dictionary. *)
Definition arch_lookup (d : gmap ModelReference ConfiguredArchitectureInfo)
    (m : ModelReference) : Exn + ConfiguredArchitectureInfo :=
  match d !! m with
  | Some a => inr a
  | None => inl (KeyError m)
  end.

(** [l[i]] for an index that is not negative. *)
Definition index {A} (l : list A) (i : nat) : Exn + A :=
  match l !! i with
  | Some x => inr x
  | None => inl IndexError
  end.

(** [zip( *ls )]: the rows across the lists, as many as the shortest list
    has entries; no rows at all when there is no list. *)
Fixpoint zip_star {A} (ls : list (list A)) : list (list A) :=
  match ls with
  | [] => []
  | l :: rest =>
      match rest with
      | [] => map (fun x => [x]) l
      | _ :: _ => zip_with cons l (zip_star rest)
      end
  end.

(** [range(n)] as the list of its values. *)
Definition range (n : Z) : list Z := map Z.of_nat (seq 0 (Z.to_nat n)).

(** ** Numbers

    Python's [/] on two integers is true division: the result is the
    binary64 float nearest to the exact quotient, ties to even
    ([long_true_divide] rounds the quotient of the integers themselves,
    not of their conversions). [SFdiv] of the standard library's
    [SpecFloat] at precision 53 and exponent bound 1024 is that rounding
    on mantissa and exponent; an integer enters it as itself, with
    exponent 0. *)
Definition Z2SF (z : Z) : spec_float :=
  match z with
  | Z0 => S754_zero false
  | Zpos p => S754_finite false p 0
  | Zneg p => S754_finite true p 0
  end.

Definition truediv (a b : Z) : spec_float := SFdiv 53 1024 (Z2SF a) (Z2SF b).

(** A number is carried by its value: the integer [1] and the float [1.0]
    are the same [t] to everything that compares or computes with it.
    [SF2Q] is the value of a float, the rational [m * 2 ^ e] with its
    sign; the quotients taken here are never infinite or undefined. *)
Definition SF2Q (f : spec_float) : Q :=
  match f with
  | S754_finite s m e =>
      let v := match e with
               | Z0 => Qmake (Zpos m) 1
               | Zpos p => Qmake (Zpos m * 2 ^ Zpos p) 1
               | Zneg p => Qmake (Zpos m) (2 ^ p)
               end in
      if s then Qopp v else v
  | _ => 0%Q
  end.

(** ** The methods of [MergePlanner] *)

Section Planner.

Variable env : Env.

(** The search of [__init__] for a mapping from one of the base
    architectures to one of the model's architectures: the first lookup
    that gives a true value ends both loops. *)
Fixpoint find_mapping_for (arch : string) (dests : list string) : option Mapping :=
  match dests with
  | [] => None
  | destination_arch :: rest =>
      let mapping := JSON_MAPPINGS env arch destination_arch in
      if truthy mapping then mapping else find_mapping_for arch rest
  end.

Fixpoint find_mapping (archs dests : list string) : option Mapping :=
  match archs with
  | [] => None
  | arch :: rest =>
      match find_mapping_for arch dests with
      | Some mapping => Some mapping
      | None => find_mapping rest dests
      end
  end.

(** The body of the loop of [__init__] that fills [arch_dict]. *)
Definition configure_model (cfg : MergeConfiguration) (base_config : ModelConfig)
    (m : ModelReference) : ConfiguredArchitectureInfo :=
  let m_config := model_config env m in
  let configured_arch_info :=
    {| info := get_architecture_info env m_config; config := m_config |} in
  if align_weights cfg then
    match find_mapping (architectures base_config) (architectures m_config) with
    | Some mapping => update_overrides env configured_arch_info mapping
    | None => configured_arch_info
    end
  else configured_arch_info.

(** [MergePlanner.__init__]. It assigns neither [_tasks] nor
    [_current_layers]: the new instance has no task list of its own. *)
Definition init (cfg : MergeConfiguration) (out_path : string)
    (options : MergeOptions) (out_cfg : ModelConfig) : Exn + MergePlanner :=
  let tokenizer :=
    if truthy (tokenizer_source cfg) then
      Some {| bt_base_model := base_model cfg;
              bt_referenced_models := referenced_models env cfg;
              bt_tokenizer_source := tokenizer_source cfg;
              bt_trust_remote_code := trust_remote_code options |}
    else None in
  let space_planner :=
    match base_model cfg with
    | Some b =>
        if align_weights cfg
        then Some {| sp_base_model := b; sp_events := [] |}
        else None
    | None => None
    end in
  match referenced_models env cfg with
  | [] => inl IndexError
  | first_model :: _ =>
      let base_config := model_config env first_model in
      inr {| self_config := cfg;
             self_clone_tensors := clone_tensors options;
             self_trust_remote_code := trust_remote_code options;
             out_model_config := out_cfg;
             _writer_task :=
               {| out_path := out_path;
                  max_shard_size := out_shard_size options;
                  tw_safe_serialization := safe_serialization options |};
             _method := RegisteredMethod (merge_method cfg);
             inst_tasks := None;
             _current_layers := 0;
             _tokenizer_task := tokenizer;
             _space_planner := space_planner;
             arch_dict :=
               fold_left
                 (fun d m => <[m := configure_model cfg base_config m]> d)
                 (referenced_models env cfg) ∅;
             arch_info := get_architecture_info env base_config |}
  end.

(** The loop of [normalize_config] over the shorthand list: the slice of
    the base model is kept apart (the last one, when it is listed more
    than once), the other slices are collected in listing order. *)
Fixpoint collect_slices (p : MergePlanner) (ms : list InputModelDefinition)
    (base_slice : option InputSliceDefinition)
    (slices_in : list InputSliceDefinition)
  : Exn + (option InputSliceDefinition * list InputSliceDefinition) :=
  match ms with
  | [] => inr (base_slice, slices_in)
  | model_in :: rest =>
      match arch_lookup (arch_dict p) (im_model model_in) with
      | inl e => inl e
      | inr model_info =>
          let slice :=
            {| layer_range := (0, cai_num_layers model_info);
               is_model := im_model model_in;
               is_parameters := im_parameters model_in |} in
          if decide (Some (im_model model_in) = base_model (self_config p))
          then collect_slices p rest (Some slice) slices_in
          else collect_slices p rest base_slice (slices_in ++ [slice])
      end
  end.

(** The part of [normalize_config] that puts the base model first. *)
Definition with_base_first (p : MergePlanner)
    (base_slice : option InputSliceDefinition)
    (slices_in : list InputSliceDefinition)
  : Exn + list InputSliceDefinition :=
  match base_model (self_config p) with
  | Some b =>
      match base_slice with
      | Some s => inr (s :: slices_in)
      | None =>
          match arch_lookup (arch_dict p) b with
          | inl e => inl e
          | inr base_model_info =>
              inr ({| layer_range := (0, cai_num_layers base_model_info);
                      is_model := b;
                      is_parameters := None |} :: slices_in)
          end
      end
  | None => inr slices_in
  end.

(** [MergePlanner.normalize_config]. *)
Definition normalize_config : M unit :=
  let* p := get_self in
  if truthy (models (self_config p)) then
    if truthy (slices (self_config p)) then
      raise (RuntimeError "Must specify either models to merge or output slices")
    else
      let* collected :=
        lift (collect_slices p (default [] (models (self_config p))) None []) in
      let* slices_in := lift (with_base_first p collected.1 collected.2) in
      put_self
        (set_config
           (set_slices_models (Some [ {| sources := slices_in |} ]) None
                              (self_config p)) p)
  else ret tt.

(** The merge method [plan_tensor] uses for a weight. *)
Definition select_method (p : MergePlanner) (weight : WeightInfo) : MergeMethod :=
  match _tokenizer_task p with
  | Some tok =>
      if truthy tok && (is_embed weight || is_lm_head weight)
      then TokenizerPermutationMerge tok
      else _method p
  | None => _method p
  end.

(** A loop [for p in defs: d[p.name] = reader.parameter(...)], with the
    required flag given by [req]. *)
Fixpoint resolve_parameters (r : ConfigReader) (model : option ModelReference)
    (req : ConfigParameterDef -> bool) (defs : list ConfigParameterDef)
    (d : list (string * option Value)) : Exn + list (string * option Value) :=
  match defs with
  | [] => inr d
  | p :: rest =>
      match parameter r (p_name p) model (req p) (default_value p) with
      | inl e => inl e
      | inr v => resolve_parameters r model req rest (dict_set d (p_name p) v)
      end
  end.

(** The loop of [plan_tensor] that fills [tensor_params]: for the base
    model the required flag of every parameter is dropped. *)
Fixpoint resolve_tensor_params (cfg_reader : ConfigReader)
    (tensor_merge_method : MergeMethod)
    (pairs : list (ModelReference * WeightInfo))
    (d : list (ModelReference * list (string * option Value)))
  : Exn + list (ModelReference * list (string * option Value)) :=
  match pairs with
  | [] => inr d
  | (model, weight_in) :: rest =>
      let is_base :=
        bool_decide (Some model = base_model (r_config cfg_reader)) in
      let cfg_m := for_tensor cfg_reader (w_name weight_in) in
      match resolve_parameters cfg_m (Some model)
              (fun p => required p && negb is_base)
              (method_tensor_parameters env tensor_merge_method) [] with
      | inl e => inl e
      | inr params =>
          resolve_tensor_params cfg_reader tensor_merge_method rest
                                (dict_set d model params)
      end
  end.

(** The load tasks of [plan_tensor], one per model. *)
Definition load_tasks (dt : option string)
    (pairs : list (ModelReference * WeightInfo)) : list (ModelReference * Task) :=
  fold_left
    (fun d '(model, weight_in) =>
       dict_set d model
         (LoadTensor model (w_name weight_in) dt (aliases weight_in)))
    pairs [].

(** [self._space_planner.align_tensor(model, weight, task)] for an item
    [(model, task)] of the dictionary of load tasks: the call the
    accumulator receives, and the item with the task it returns. *)
Definition align_event (weight : WeightInfo) (entry : ModelReference * Task)
  : SpaceEvent :=
  EvAlignTensor entry.1 weight entry.2.

Definition wrap_load (weight : WeightInfo) (entry : ModelReference * Task)
  : ModelReference * Task :=
  (entry.1, AlignedLoad entry.1 weight entry.2).

(** [MergePlanner.plan_tensor]. *)
Definition plan_tensor (weight : WeightInfo) (weights_in : list WeightInfo)
    (models : list ModelReference) (cfg_reader : ConfigReader) : M unit :=
  let* p := get_self in
  let tensor_merge_method := select_method p weight in
  let cfg_g := for_tensor cfg_reader (w_name weight) in
  let* global_params :=
    lift (resolve_parameters cfg_g None required
            (method_parameters env tensor_merge_method) []) in
  let* tensor_params :=
    lift (resolve_tensor_params cfg_reader tensor_merge_method
            (zip models weights_in) []) in
  space_planner_record [EvAddWeight weight (zip models weights_in)] ;;
  let loads := load_tasks (dtype (self_config p)) (zip models weights_in) in
  space_planner_record (map (align_event weight) loads) ;;
  let input_weight_tasks :=
    if truthy (_space_planner p)
    then map (wrap_load weight) loads
    else loads in
  let gather_tensors := CollectDictTask input_weight_tasks in
  let tensor_task :=
    MergeTask tensor_merge_method weight gather_tensors global_params
              tensor_params (base_model (self_config p)) in
  let save_task :=
    SaveTensor (w_name weight) tensor_task (_writer_task p)
               (self_clone_tensors p) in
  append_task save_task.

(** [[weights_in[j][idx] for j in range(len(weights_in))]]. *)
Definition column (weights_in : list (list WeightInfo)) (idx : nat)
  : Exn + list WeightInfo :=
  map_exn (fun ws => index ws idx) weights_in.

(** The loop [for idx, w_o in enumerate(weights_out)] of [plan_layer],
    from position [idx] on. *)
Fixpoint plan_layer_weights (weights_out : list WeightInfo) (idx : nat)
    (weights_in : list (list WeightInfo)) (sources : list InputSliceDefinition)
    (t : Q) (cfg_reader : ConfigReader) : M unit :=
  match weights_out with
  | [] => ret tt
  | w_o :: rest =>
      let* col := lift (column weights_in idx) in
      plan_tensor w_o col (map is_model sources) (with_t cfg_reader t) ;;
      plan_layer_weights rest (S idx) weights_in sources t cfg_reader
  end.

(** [MergePlanner.plan_layer]. *)
Definition plan_layer (sources : list InputSliceDefinition) (layer_offset : Z)
    (t : Q) (cfg_reader : ConfigReader) : M unit :=
  let* p := get_self in
  let weights_out :=
    layer_weights (arch_info p) (_current_layers p) (out_model_config p) in
  let* weights_in :=
    lift (map_exn
            (fun s =>
               match arch_lookup (arch_dict p) (is_model s) with
               | inl e => inl e
               | inr a => inr (cai_layer_weights a ((layer_range s).1 + layer_offset))
               end)
            sources) in
  plan_layer_weights weights_out 0 weights_in sources t cfg_reader ;;
  let* p' := get_self in
  put_self (set_current_layers (_current_layers p' + 1) p').

(** The interpolation fraction [plan_slice] computes for layer position
    [idx] of a slice of [num_layers] layers: the float [idx /
    (num_layers - 1)], or the integer 1. *)
Definition interpolation_t (num_layers idx : Z) : Q :=
  if num_layers >? 1 then SF2Q (truediv idx (num_layers - 1)) else 1%Q.

(** [slice_lengths] of [plan_slice]. *)
Definition source_length (s : InputSliceDefinition) : Z :=
  (layer_range s).2 - (layer_range s).1.

Definition slice_lengths (definition : OutputSliceDefinition) : list Z :=
  map source_length (sources definition).

(** [all(s == slice_lengths[0] for s in slice_lengths)]: over the empty
    list the generator never reads [slice_lengths[0]]. *)
Definition all_equal_first (lengths : list Z) : bool :=
  match lengths with
  | [] => true
  | first :: _ => forallb (fun s => bool_decide (s = first)) lengths
  end.

Definition slice_length_message : string :=
  "All inputs to a slice must contain the same number of layers".

(** The body of [MergePlanner.plan_slice], with the method that
    [self.plan_layer] resolves to as a parameter: the attribute is looked
    up on the instance at each call. *)
Definition plan_slice_with
    (plan_layer : list InputSliceDefinition -> Z -> Q -> ConfigReader -> M unit)
    (definition : OutputSliceDefinition) : M unit :=
  if negb (all_equal_first (slice_lengths definition)) then
    raise (RuntimeError slice_length_message)
  else
    let* num_layers := lift (index (slice_lengths definition) 0) in
    let* p := get_self in
    let cfg_reader :=
      {| r_config := self_config p; r_t := 0%Q; r_tensor_name := None;
         r_slice_out := Some definition |} in
    for_each (range num_layers)
             (fun idx =>
                let t := interpolation_t num_layers idx in
                plan_layer (sources definition) idx t cfg_reader).

(** [MergePlanner.plan_slice]: [self.plan_layer] is the method of the
    class. *)
Definition plan_slice (definition : OutputSliceDefinition) : M unit :=
  plan_slice_with plan_layer definition.

(** [self.config.slices[0]] and [self.config.slices[-1]]: indexing [None]
    is a [TypeError], indexing the empty list an [IndexError]. *)
Definition first_slice (cfg : MergeConfiguration) : Exn + OutputSliceDefinition :=
  match slices cfg with
  | None => inl TypeError
  | Some sl => index sl 0
  end.

Definition last_slice (cfg : MergeConfiguration) : Exn + OutputSliceDefinition :=
  match slices cfg with
  | None => inl TypeError
  | Some sl =>
      match List.last (map Some sl) None with
      | Some s => inr s
      | None => inl IndexError
      end
  end.

(** The loops of [plan] over the weights before and after the layer
    stack: [weights_of] is [pre_weights] at [t = 0] on the first slice,
    [post_weights] at [t = 1] on the last one. *)
Definition plan_outer_weights
    (weights_of : ArchitectureInfo -> ModelConfig -> list WeightInfo)
    (t : Q) (out_slice : OutputSliceDefinition) : M unit :=
  let* p := get_self in
  let _models := map is_model (sources out_slice) in
  let* per_model :=
    lift (map_exn
            (fun m =>
               match arch_lookup (arch_dict p) m with
               | inl e => inl e
               | inr a => inr (weights_of (info a) (out_model_config p))
               end)
            _models) in
  for_each (zip_star per_model)
    (fun weight_infos =>
       let* w0 := lift (index weight_infos 0) in
       plan_tensor w0 weight_infos _models
         (for_out_slice
            {| r_config := self_config p; r_t := t;
               r_tensor_name := Some (w_name w0); r_slice_out := None |}
            out_slice)).

(** [for out_slice in self.config.slices]: iterating [None] is a
    [TypeError]. *)
Definition plan_slices : M unit :=
  let* p := get_self in
  match slices (self_config p) with
  | None => raise TypeError
  | Some sl => for_each sl plan_slice
  end.

(** [MergePlanner.plan]. *)
Definition plan : M (list Task) :=
  normalize_config ;;
  assign_tasks [] ;;
  let* p := get_self in
  space_planner_record
    (map EvAddProceduralSpace
         (procedural_spaces (arch_info p) (out_model_config p))) ;;
  let* first := lift (first_slice (self_config p)) in
  plan_outer_weights pre_weights 0%Q first ;;
  plan_slices ;;
  let* last := lift (last_slice (self_config p)) in
  plan_outer_weights post_weights 1%Q last ;;
  let* saves := get_tasks in
  append_task (FinalizeModel saves (_writer_task p)) ;;
  let* res := get_tasks in
  match _tokenizer_task p with
  | Some tok => if truthy tok then ret (res ++ [TokenizerTask tok]) else ret res
  | None => ret res
  end.

End Planner.

(** ** Notions used in the statements *)

Definition both_forms_message : string :=
  "Must specify either models to merge or output slices".

(** What a run of [normalize_config] on the shorthand form leaves: the
    same store with [slices] set to one output slice and [models]
    cleared. *)
Definition normalized (sl : list InputSliceDefinition) (st : Store) : Store :=
  {| class_tasks := class_tasks st;
     self := set_config
               (set_slices_models (Some [ {| sources := sl |} ]) None
                                  (self_config (self st)))
               (self st) |}.

(** The input slice the shorthand entry [mi] stands for, when
    [layers m] is the layer count of model [m]. *)
Definition full_depth_slice (layers : ModelReference -> Z)
    (mi : InputModelDefinition) : InputSliceDefinition :=
  {| layer_range := (0, layers (im_model mi));
     is_model := im_model mi;
     is_parameters := im_parameters mi |}.

Definition is_base_entry (b : ModelReference) (mi : InputModelDefinition) : bool :=
  bool_decide (Some (im_model mi) = Some b).

(** The last entry of the shorthand list that names the base model. *)
Fixpoint listed_base (b : ModelReference) (ms : list InputModelDefinition)
  : option InputModelDefinition :=
  match ms with
  | [] => None
  | mi :: rest =>
      match listed_base b rest with
      | Some found => Some found
      | None => if is_base_entry b mi then Some mi else None
      end
  end.

(** The slice of the base model: the one it is listed with, or a
    synthetic full-depth slice without overrides. *)
Definition base_first_slice (layers : ModelReference -> Z) (b : ModelReference)
    (ms : list InputModelDefinition) : InputSliceDefinition :=
  match listed_base b ms with
  | Some mi => full_depth_slice layers mi
  | None => {| layer_range := (0, layers b); is_model := b; is_parameters := None |}
  end.

(** The sources of the canonical output slice for a shorthand list with
    base model [b]. *)
Definition canonical_sources (layers : ModelReference -> Z) (b : ModelReference)
    (ms : list InputModelDefinition) : list InputSliceDefinition :=
  base_first_slice layers b ms
  :: map (full_depth_slice layers)
         (List.filter (fun mi => negb (is_base_entry b mi)) ms).

(** The reader [plan_slice] builds for a slice. *)
Definition slice_reader (st : Store) (definition : OutputSliceDefinition)
  : ConfigReader :=
  {| r_config := self_config (self st); r_t := 0%Q; r_tensor_name := None;
     r_slice_out := Some definition |}.

(** The sources of a slice disagree on the length of their layer range. *)
Definition inconsistent_lengths (d : OutputSliceDefinition) : Prop :=
  exists s1 s2, In s1 (sources d) /\ In s2 (sources d) /\
                source_length s1 <> source_length s2.

(** The exception raised for a slice with inconsistent lengths tells
    which slice it was: the slice can be read off the exception. *)
Definition error_names_slice (env : Env) : Prop :=
  exists name_of : Exn -> OutputSliceDefinition,
    forall d st, inconsistent_lengths d ->
      exists e st', plan_slice env d st = Raise e st' /\ name_of e = d.

(** No override of parameter [name] applies to [model] in the context
    [r], at any of the four scopes. *)
Definition no_override (r : ConfigReader) (name : string)
    (model : option ModelReference) : Prop :=
  tensor_setting (model_overrides r model) name (r_tensor_name r) = None /\
  tensor_setting (parameters (r_config r)) name (r_tensor_name r) = None /\
  plain_setting (model_overrides r model) name = None /\
  plain_setting (parameters (r_config r)) name = None.

(** The tensor-scoped parameter [q] resolves for [model] and its input
    weight [w] under the flags the merge method declares for it. *)
Definition resolves_as_declared (r : ConfigReader) (model : ModelReference)
    (w : WeightInfo) (q : ConfigParameterDef) : Prop :=
  exists v,
    parameter (for_tensor r (w_name w)) (p_name q) (Some model)
              (required q) (default_value q) = inr v.

(** One call of [plan_tensor] that returned: the output weight, the
    pairs of model and input weight, and the parameters resolved. *)
Record TensorCall := {
  tc_weight : WeightInfo;
  tc_pairs : list (ModelReference * WeightInfo);
  tc_global : list (string * option Value);
  tc_tensor : list (ModelReference * list (string * option Value));
}.

(** The entries of the collected dictionary of a call. *)
Definition call_inputs (p : MergePlanner) (c : TensorCall)
  : list (ModelReference * Task) :=
  if truthy (_space_planner p)
  then map (wrap_load (tc_weight c))
           (load_tasks (dtype (self_config p)) (tc_pairs c))
  else load_tasks (dtype (self_config p)) (tc_pairs c).

(** The save task a call appends. *)
Definition call_task (p : MergePlanner) (c : TensorCall) : Task :=
  SaveTensor (w_name (tc_weight c))
    (MergeTask (select_method p (tc_weight c)) (tc_weight c)
               (CollectDictTask (call_inputs p c))
               (tc_global c) (tc_tensor c) (base_model (self_config p)))
    (_writer_task p) (self_clone_tensors p).

(** The calls a call of [plan_tensor] makes on the alignment
    accumulator. *)
Definition call_events (p : MergePlanner) (c : TensorCall) : list SpaceEvent :=
  EvAddWeight (tc_weight c) (tc_pairs c)
  :: map (align_event (tc_weight c))
         (load_tasks (dtype (self_config p)) (tc_pairs c)).

(** The store after planning went on: [new] tasks appended to the list
    [self._tasks] resolves to, [evs] calls received by the alignment
    accumulator (if there is one), [n] more layers counted. *)
Definition advance (new : list Task) (evs : list SpaceEvent) (n : Z)
    (st : Store) : Store :=
  let p := self st in
  {| class_tasks :=
       match inst_tasks p with
       | Some _ => class_tasks st
       | None => class_tasks st ++ new
       end;
     self :=
       {| self_config := self_config p;
          self_clone_tensors := self_clone_tensors p;
          self_trust_remote_code := self_trust_remote_code p;
          out_model_config := out_model_config p;
          _writer_task := _writer_task p;
          _method := _method p;
          inst_tasks := (fun l => l ++ new) <$> inst_tasks p;
          _current_layers := _current_layers p + n;
          _tokenizer_task := _tokenizer_task p;
          _space_planner :=
            (fun sp => {| sp_base_model := sp_base_model sp;
                          sp_events := sp_events sp ++ evs |})
              <$> _space_planner p;
          arch_dict := arch_dict p;
          arch_info := arch_info p |} |}.

(** The store after the calls [calls] of [plan_tensor] returned. *)
Definition after_calls (calls : list TensorCall) (n : Z) (st : Store) : Store :=
  advance (map (call_task (self st)) calls)
          (concat (map (call_events (self st)) calls)) n st.

(** A method that only plans tensors and counts layers, whether it
    returns or raises. *)
Definition plans_tensors {A} (m : M A) : Prop :=
  forall st, exists calls n, final_store (m st) = after_calls calls n st.

(** The store [plan] starts planning tensors from, once the
    configuration is normalized: the instance has an empty task list of
    its own and the accumulator, if there is one, has received the
    procedural spaces of the output architecture. *)
Definition plan_start (st : Store) : Store :=
  {| class_tasks := class_tasks st;
     self :=
       set_space_planner
         ((fun sp =>
             {| sp_base_model := sp_base_model sp;
                sp_events :=
                  sp_events sp ++
                  map EvAddProceduralSpace
                      (procedural_spaces (arch_info (self st))
                                         (out_model_config (self st))) |})
            <$> _space_planner (self st))
         (set_inst_tasks (Some []) (self st)) |}.

(** The entries [plan] adds after the save tasks [saves]: the finalize
    task and, when there is a tokenizer task, that task. *)
Definition plan_tail (p : MergePlanner) (saves : list Task) : list Task :=
  FinalizeModel saves (_writer_task p)
  :: match _tokenizer_task p with
     | Some tok => [TokenizerTask tok]
     | None => []
     end.

Definition is_save (t : Task) : bool :=
  match t with
  | SaveTensor _ _ _ _ => true
  | _ => false
  end.

(** The tokenizer task [__init__] builds for a configuration. *)
Definition tokenizer_of (env : Env) (cfg : MergeConfiguration)
    (options : MergeOptions) : BuildTokenizer :=
  {| bt_base_model := base_model cfg;
     bt_referenced_models := referenced_models env cfg;
     bt_tokenizer_source := tokenizer_source cfg;
     bt_trust_remote_code := trust_remote_code options |}.

(** What a call returned, if it did. *)
Definition returned {A} (o : Outcome A) : option A :=
  match o with
  | Return a _ => Some a
  | Raise _ _ => None
  end.

(** The merge method expected for a weight: the vocabulary-permutation
    method for an embedding or output-projection weight when the
    configuration asks for a tokenizer merge ([tokenizer_source] is
    true), the configured method otherwise. *)
Definition expected_method (env : Env) (cfg : MergeConfiguration)
    (options : MergeOptions) (weight : WeightInfo) : MergeMethod :=
  if (is_embed weight || is_lm_head weight) && truthy (tokenizer_source cfg)
  then TokenizerPermutationMerge (tokenizer_of env cfg options)
  else RegisteredMethod (merge_method cfg).

(** A save task planned under alignment, given the calls [evs] the
    accumulator received: its output weight was registered with its
    pairs of model and input weight, and every entry of its collected
    dictionary is the load task of that model wrapped by a call of
    [align_tensor] for the model and the output weight. *)
Definition aligned_save (dt : option string) (evs : list SpaceEvent)
    (t : Task) : Prop :=
  exists w pairs method gp tp bm writer clone,
    t = SaveTensor (w_name w)
          (MergeTask method w
             (CollectDictTask (map (wrap_load w) (load_tasks dt pairs)))
             gp tp bm)
          writer clone /\
    In (EvAddWeight w pairs) evs /\
    forall entry, In entry (load_tasks dt pairs) ->
      In (align_event w entry) evs /\
      exists w_in, In (entry.1, w_in) pairs /\
                   entry.2 = LoadTensor entry.1 (w_name w_in) dt (aliases w_in).

Definition is_space_event (e : SpaceEvent) : bool :=
  match e with
  | EvAddProceduralSpace _ => true
  | _ => false
  end.

(** ** A small merge, used to run the planner *)

Module Sample.

Definition model_a : ModelReference := {| mr_path := "org/model-a"; mr_revision := None |}.
Definition model_b : ModelReference := {| mr_path := "org/model-b"; mr_revision := None |}.

Definition embed_tokens : WeightInfo :=
  {| w_name := "model.embed_tokens.weight"; is_embed := true;
     is_lm_head := false; aliases := [] |}.
Definition mlp : WeightInfo :=
  {| w_name := "model.layers.mlp.weight"; is_embed := false;
     is_lm_head := false; aliases := [] |}.
Definition lm_head : WeightInfo :=
  {| w_name := "lm_head.weight"; is_embed := false;
     is_lm_head := true; aliases := ["model.embed_tokens.weight"] |}.

Definition llama : ArchitectureInfo :=
  {| pre_weights := fun _ => [embed_tokens];
     layer_weights := fun _ _ => [mlp];
     post_weights := fun _ => [lm_head];
     num_layers := num_hidden_layers;
     procedural_spaces := fun _ => ["residual"] |}.

Definition llama_config : ModelConfig :=
  {| architectures := ["LlamaForCausalLM"]; num_hidden_layers := 2 |}.

(** A merge method with one tensor-scoped parameter, required and
    without default. *)
Definition weight_param : ConfigParameterDef :=
  {| p_name := "weight"; required := true; default_value := None |}.

Definition env : Env :=
  {| method_parameters := fun _ => [];
     method_tensor_parameters := fun _ => [weight_param];
     referenced_models := fun _ => [model_a; model_b];
     model_config := fun _ => llama_config;
     get_architecture_info := fun _ => llama;
     JSON_MAPPINGS := fun _ _ => None;
     update_overrides := fun a _ => a |}.

Definition weight_one : Overrides :=
  {| by_tensor := []; plain := [("weight", VInt 1)] |}.

Definition listed (m : ModelReference) : InputModelDefinition :=
  {| im_model := m; im_parameters := Some weight_one |}.

Definition whole (m : ModelReference) (n : Z) : InputSliceDefinition :=
  {| layer_range := (0, n); is_model := m; is_parameters := Some weight_one |}.

(** The shorthand form: models A and B, no base model. *)
Definition shorthand : MergeConfiguration :=
  {| merge_method := "linear"; base_model := None; tokenizer_source := None;
     align_weights := false; dtype := None;
     models := Some [listed model_a; listed model_b];
     slices := None; parameters := None |}.

(** The same with B as base model and only A listed. *)
Definition shorthand_with_base : MergeConfiguration :=
  {| merge_method := "task_arithmetic"; base_model := Some model_b;
     tokenizer_source := None; align_weights := false; dtype := None;
     models := Some [listed model_a];
     slices := None; parameters := None |}.

(** Both forms at once. *)
Definition both_forms : MergeConfiguration :=
  {| merge_method := "linear"; base_model := None; tokenizer_source := None;
     align_weights := false; dtype := None;
     models := Some [listed model_a; listed model_b];
     slices := Some [ {| sources := [whole model_a 2; whole model_b 2] |} ];
     parameters := None |}.

Definition options : MergeOptions :=
  {| clone_tensors := false; trust_remote_code := false;
     out_shard_size := 5000000000; safe_serialization := true |}.

(** The planner [MergePlanner(cfg, "out", options, llama_config)], or a
    planner without models when construction fails. *)
Definition planner (cfg : MergeConfiguration) : MergePlanner :=
  match init env cfg "out" options llama_config with
  | inr p => p
  | inl _ =>
      {| self_config := cfg; self_clone_tensors := false;
         self_trust_remote_code := false; out_model_config := llama_config;
         _writer_task := {| out_path := "out"; max_shard_size := 0;
                            tw_safe_serialization := true |};
         _method := RegisteredMethod (merge_method cfg);
         inst_tasks := None; _current_layers := 0;
         _tokenizer_task := None; _space_planner := None;
         arch_dict := ∅; arch_info := llama |}
  end.

(** A store in which the list of the class is still empty. *)
Definition fresh (cfg : MergeConfiguration) : Store :=
  {| class_tasks := []; self := planner cfg |}.

Definition two_layers (m : ModelReference) : Z := 2.

(** The shorthand form with a tokenizer merge requested. *)
Definition with_tokenizer : MergeConfiguration :=
  {| merge_method := "linear"; base_model := None;
     tokenizer_source := Some "union";
     align_weights := false; dtype := None;
     models := Some [listed model_a; listed model_b];
     slices := None; parameters := None |}.

(** The explicit form with base model B: B without overrides and A with
    its weight, then the same with no override for A either. *)
Definition bare (m : ModelReference) (n : Z) : InputSliceDefinition :=
  {| layer_range := (0, n); is_model := m; is_parameters := None |}.

Definition based_slice : OutputSliceDefinition :=
  {| sources := [bare model_b 2; whole model_a 2] |}.

Definition unweighted_slice : OutputSliceDefinition :=
  {| sources := [bare model_b 2; bare model_a 2] |}.

Definition based (d : OutputSliceDefinition) : MergeConfiguration :=
  {| merge_method := "task_arithmetic"; base_model := Some model_b;
     tokenizer_source := None; align_weights := false; dtype := None;
     models := None; slices := Some [d]; parameters := None |}.

(** The shorthand form with alignment switched on: once with B as base
    model, once without a base model. *)
Definition aligned_with_base : MergeConfiguration :=
  {| merge_method := "linear"; base_model := Some model_b;
     tokenizer_source := None; align_weights := true; dtype := None;
     models := Some [listed model_a; listed model_b];
     slices := None; parameters := None |}.

Definition aligned_without_base : MergeConfiguration :=
  {| merge_method := "linear"; base_model := None;
     tokenizer_source := None; align_weights := true; dtype := None;
     models := Some [listed model_a; listed model_b];
     slices := None; parameters := None |}.

(** The reader [plan] builds for the weights before the layer stack. *)
Definition pre_reader (cfg : MergeConfiguration) (w : WeightInfo)
    (d : OutputSliceDefinition) : ConfigReader :=
  {| r_config := cfg; r_t := 0%Q; r_tensor_name := Some (w_name w);
     r_slice_out := Some d |}.

(** An output slice over both layers of A and B, and two slices whose
    sources disagree on the length. *)
Definition even_slice : OutputSliceDefinition :=
  {| sources := [whole model_a 2; whole model_b 2] |}.

Definition uneven_slice_1 : OutputSliceDefinition :=
  {| sources := [whole model_a 2; whole model_b 1] |}.

Definition uneven_slice_2 : OutputSliceDefinition :=
  {| sources := [whole model_a 1; whole model_b 2] |}.

End Sample.


(** ** Notions used for the further properties *)

(** The name a save task writes its tensor under, and the output weight
    of the merge task under it. *)
Definition saved_name (t : Task) : option string :=
  match t with
  | SaveTensor n _ _ _ => Some n
  | _ => None
  end.

Definition task_weight (t : Task) : option WeightInfo :=
  match t with
  | SaveTensor _ (MergeTask _ w _ _ _ _) _ _ => Some w
  | _ => None
  end.

(** The dictionary of input tasks collected under a save task. *)
Definition task_inputs (t : Task) : list (ModelReference * Task) :=
  match t with
  | SaveTensor _ (MergeTask _ _ (CollectDictTask d) _ _ _) _ _ => d
  | _ => []
  end.

(** [t] is the save task planned for the output weight [w]. *)
Definition planned_for (w : WeightInfo) (t : Task) : Prop :=
  saved_name t = Some (w_name w) /\ task_weight t = Some w.

(** The weights of the output architecture at layer [i]. *)
Definition output_layer (p : MergePlanner) (i : Z) : list WeightInfo :=
  layer_weights (arch_info p) i (out_model_config p).

(** The weights of the [n] output layers from layer [from] on. *)
Definition output_layers (p : MergePlanner) (from n : Z) : list WeightInfo :=
  concat (map (fun i => output_layer p (from + i)) (range n)).

(** The pair of model and input weight that source [s] contributes at
    position [k] of the layer at offset [layer_offset] of its range. *)
Definition source_input (p : MergePlanner) (layer_offset : Z) (k : nat)
    (s : InputSliceDefinition) (pr : ModelReference * WeightInfo) : Prop :=
  pr.1 = is_model s /\
  exists a, arch_dict p !! is_model s = Some a /\
            cai_layer_weights a ((layer_range s).1 + layer_offset) !! k =
            Some pr.2.

(** The number of layer passes [plan_slice] makes for a slice. *)
Definition slice_depth (d : OutputSliceDefinition) : Z :=
  Z.max 0 (default 0 (head (slice_lengths d))).

Definition total_depth (sl : list OutputSliceDefinition) : Z :=
  fold_right (fun d acc => slice_depth d + acc) 0 sl.

(** The descriptors [plan] takes for the weights outside the layer
    stack, given the list of each source model: those of the first
    model, as many as the shortest list has. *)
Definition outer_weights (per_model : list (list WeightInfo)) : list WeightInfo :=
  match per_model with
  | [] => []
  | first :: rest => take (fold_right Nat.min (length first) (map length rest)) first
  end.

(** The lists [plan] reads for the models of a slice. *)
Definition per_model_weights (p : MergePlanner)
    (weights_of : ArchitectureInfo -> ModelConfig -> list WeightInfo)
    (d : OutputSliceDefinition) : Exn + list (list WeightInfo) :=
  map_exn (fun m =>
             match arch_lookup (arch_dict p) m with
             | inl e => inl e
             | inr a => inr (weights_of (info a) (out_model_config p))
             end)
          (map is_model (sources d)).

(** The last pair listed for a model. *)
Fixpoint last_weight_for (m : ModelReference)
    (pairs : list (ModelReference * WeightInfo)) : option WeightInfo :=
  match pairs with
  | [] => None
  | (m', w) :: rest =>
      match last_weight_for m rest with
      | Some w' => Some w'
      | None => if decide (m' = m) then Some w else None
      end
  end.

(** ** Degenerate inputs, used to run the planner *)

Module Edge.

Definition no_sources : OutputSliceDefinition := {| sources := [] |}.

(** A slice over the empty range [2, 2] of both models. *)
Definition empty_range : OutputSliceDefinition :=
  {| sources :=
       [ {| layer_range := (2, 2); is_model := Sample.model_a;
            is_parameters := Some Sample.weight_one |};
         {| layer_range := (2, 2); is_model := Sample.model_b;
            is_parameters := Some Sample.weight_one |} ] |}.

(** A model no planner of [Sample] has metadata for. *)
Definition stranger : ModelReference :=
  {| mr_path := "org/stranger"; mr_revision := Some "main" |}.

(** Model A twice in one slice, over different layers. *)
Definition twice_a : OutputSliceDefinition :=
  {| sources :=
       [ {| layer_range := (0, 1); is_model := Sample.model_a;
            is_parameters := Some Sample.weight_one |};
         {| layer_range := (1, 2); is_model := Sample.model_a;
            is_parameters := Some Sample.weight_one |} ] |}.

(** Neither form given, and the explicit form given empty. *)
Definition no_form : MergeConfiguration :=
  {| merge_method := "linear"; base_model := None; tokenizer_source := None;
     align_weights := false; dtype := None;
     models := None; slices := None; parameters := None |}.

Definition empty_form : MergeConfiguration :=
  {| merge_method := "linear"; base_model := None; tokenizer_source := None;
     align_weights := false; dtype := None;
     models := Some []; slices := Some []; parameters := None |}.

(** The shorthand form naming a model without metadata. *)
Definition with_stranger : MergeConfiguration :=
  {| merge_method := "linear"; base_model := None; tokenizer_source := None;
     align_weights := false; dtype := None;
     models := Some [Sample.listed Sample.model_a; Sample.listed stranger];
     slices := None; parameters := None |}.

(** An environment in which a configuration references no model. *)
Definition no_models_env : Env :=
  {| method_parameters := fun _ => [];
     method_tensor_parameters := fun _ => [];
     referenced_models := fun _ => [];
     model_config := fun _ => Sample.llama_config;
     get_architecture_info := fun _ => Sample.llama;
     JSON_MAPPINGS := fun _ _ => None;
     update_overrides := fun a _ => a |}.

(** An environment with one mapping, from Llama to Mistral. *)
Definition mapped_env : Env :=
  {| method_parameters := fun _ => [];
     method_tensor_parameters := fun _ => [];
     referenced_models := fun _ => [Sample.model_a];
     model_config := fun _ => Sample.llama_config;
     get_architecture_info := fun _ => Sample.llama;
     JSON_MAPPINGS :=
       fun a d =>
         if (String.eqb a "LlamaForCausalLM" && String.eqb d "MistralForCausalLM")%bool
         then Some [("model.embed_tokens.weight", "tok_embeddings.weight")]
         else if String.eqb d "GPT2LMHeadModel" then Some [] else None;
     update_overrides := fun a _ => a |}.

(** Runs on the planner of the shorthand configuration, with the list
    of the class still empty. *)
Definition start : Store := Sample.fresh Sample.shorthand.

Definition tensor_run : Outcome unit :=
  plan_tensor Sample.env Sample.mlp [Sample.mlp; Sample.lm_head]
    [Sample.model_a; Sample.model_a] (slice_reader start twice_a) start.

Definition layer_run : Outcome unit :=
  plan_layer Sample.env (sources Sample.even_slice) 0 0%Q
    (slice_reader start Sample.even_slice) start.

(** A layer pass over the slice that names model A twice. *)
Definition twice_run : Outcome unit :=
  plan_layer Sample.env (sources twice_a) 0 0%Q
    (slice_reader start twice_a) start.

Definition slice_run : Outcome unit :=
  plan_slice Sample.env Sample.even_slice start.

Definition outer_run : Outcome unit :=
  plan_outer_weights Sample.env pre_weights 0%Q Sample.even_slice start.

Definition pass_run : Outcome (list Task) := plan Sample.env start.

Definition with_stranger_sources : list InputSliceDefinition :=
  [Sample.whole Sample.model_a 2; Sample.whole stranger 2].

(** The slice of the scenario with two models of four layers each. *)
Definition four_layers : OutputSliceDefinition :=
  {| sources := [Sample.whole Sample.model_a 4; Sample.whole Sample.model_b 4] |}.

End Edge.

(** The task [plan_tensor] collects for model [m] when its input weight
    is [w]: the load task, wrapped when there is an accumulator. *)
Definition input_task (p : MergePlanner) (weight : WeightInfo)
    (m : ModelReference) (w : WeightInfo) : Task :=
  let load := LoadTensor m (w_name w) (dtype (self_config p)) (aliases w) in
  if truthy (_space_planner p) then AlignedLoad m weight load else load.
(** ** Normalization of the configuration *)

Section Normalization.

Lemma normalize_config_both (st : Store) :
  truthy (models (self_config (self st))) = true ->
  truthy (slices (self_config (self st))) = true ->
  normalize_config st = Raise (RuntimeError both_forms_message) st.
Proof.
  intros Hm Hs. unfold normalize_config, bind, get_self, lift, raise, ret, put_self.
  by rewrite Hm, Hs.
Qed.

Lemma normalize_config_explicit (st : Store) :
  truthy (models (self_config (self st))) = false ->
  normalize_config st = Return tt st.
Proof.
  intros Hm. unfold normalize_config, bind, get_self, lift, raise, ret, put_self. by rewrite Hm.
Qed.

Lemma normalize_config_shorthand (st st' : Store) :
  truthy (models (self_config (self st))) = true ->
  normalize_config st = Return tt st' ->
  exists base_slice slices_in sl,
    collect_slices (self st) (default [] (models (self_config (self st))))
                   None [] = inr (base_slice, slices_in) /\
    with_base_first (self st) base_slice slices_in = inr sl /\
    st' = normalized sl st.
Proof.
  intros Hm. unfold normalize_config, bind, get_self, lift, raise, ret, put_self. rewrite Hm.
  destruct (truthy (slices _)); cbn; [discriminate |].
  destruct (collect_slices _ _ _ _) as [e | [base_slice slices_in]] eqn:Hc;
    cbn; [discriminate |].
  destruct (with_base_first _ _ _) as [e | sl] eqn:Hb; cbn; [discriminate |].
  intros [= <-]. exists base_slice, slices_in, sl. auto.
Qed.

Lemma normalize_config_raise_store (st st' : Store) (e : Exn) :
  normalize_config st = Raise e st' -> st' = st.
Proof.
  unfold normalize_config, bind, get_self, lift, raise, ret, put_self.
  destruct (truthy (models _)); cbn; [| discriminate].
  destruct (truthy (slices _)); cbn; [by intros [= _ <-] |].
  destruct (collect_slices _ _ _ _) as [e1 | [base_slice slices_in]];
    cbn; [by intros [= _ <-] |].
  destruct (with_base_first _ _ _) as [e1 | sl]; cbn; [by intros [= _ <-] |].
  discriminate.
Qed.

End Normalization.

Section NormalizationClaims.

Lemma collect_slices_spec (p : MergePlanner) (b : ModelReference)
    (layers : ModelReference -> Z) (ms : list InputModelDefinition) :
  base_model (self_config p) = Some b ->
  (forall mi, In mi ms ->
     exists a, arch_dict p !! im_model mi = Some a /\
               cai_num_layers a = layers (im_model mi)) ->
  forall base_slice slices_in,
    collect_slices p ms base_slice slices_in =
    inr (match listed_base b ms with
         | Some mi => Some (full_depth_slice layers mi)
         | None => base_slice
         end,
         slices_in ++ map (full_depth_slice layers)
                          (List.filter (fun mi => negb (is_base_entry b mi)) ms)).
Proof.
  intros Hb. induction ms as [| mi rest IH]; intros Harch base_slice slices_in.
  - simpl. by rewrite app_nil_r.
  - destruct (Harch mi) as (a & Ha & Hl); [by left |].
    assert (Hrest : forall mi', In mi' rest ->
              exists a', arch_dict p !! im_model mi' = Some a' /\
                         cai_num_layers a' = layers (im_model mi'))
      by (intros mi' Hin; apply Harch; by right).
    simpl. unfold arch_lookup. rewrite Ha, Hb, Hl. unfold is_base_entry.
    destruct (decide (Some (im_model mi) = Some b)) as [Heq | Hne].
    + rewrite (bool_decide_eq_true_2 _ Heq). simpl.
      rewrite (IH Hrest). by destruct (listed_base b rest).
    + rewrite (bool_decide_eq_false_2 _ Hne). simpl.
      rewrite (IH Hrest), <- app_assoc. by destruct (listed_base b rest).
Qed.

Lemma listed_base_is_base (b : ModelReference) (ms : list InputModelDefinition)
    (mi : InputModelDefinition) :
  listed_base b ms = Some mi -> im_model mi = b /\ In mi ms.
Proof.
  induction ms as [| x rest IH]; simpl; [discriminate |].
  destruct (listed_base b rest) as [found |].
  - intros [= <-]. destruct IH as [? ?]; auto.
  - unfold is_base_entry. case_bool_decide as Hx; [| discriminate].
    intros [= <-]. split; [congruence | by left].
Qed.

Lemma listed_base_none (b : ModelReference) (ms : list InputModelDefinition) :
  ~ In b (map im_model ms) -> listed_base b ms = None.
Proof.
  induction ms as [| x rest IH]; simpl; [done |].
  intros Hn. rewrite IH by tauto. unfold is_base_entry.
  case_bool_decide as Hx; [| done]. exfalso. apply Hn. left. congruence.
Qed.

(** C5. A configuration that gives both the shorthand model list and the
    explicit slice list (both true in Python's sense: present and not
    empty) makes [normalize_config], and with it [plan], raise the
    configuration error; the store is left as it was, so no task has
    been built. *)
Theorem both_forms_rejected (env : Env) (st : Store) :
  truthy (models (self_config (self st))) = true ->
  truthy (slices (self_config (self st))) = true ->
  normalize_config st = Raise (RuntimeError both_forms_message) st /\
  plan env st = Raise (RuntimeError both_forms_message) st.
Proof.
  intros Hm Hs. pose proof (normalize_config_both st Hm Hs) as Hn.
  split; [exact Hn |]. unfold plan, bind. by rewrite Hn.
Qed.

Lemma both_forms_rejected_witness :
  normalize_config (Sample.fresh Sample.both_forms) =
    Raise (RuntimeError both_forms_message) (Sample.fresh Sample.both_forms) /\
  plan Sample.env (Sample.fresh Sample.both_forms) =
    Raise (RuntimeError both_forms_message) (Sample.fresh Sample.both_forms).
Proof.
  apply (both_forms_rejected Sample.env (Sample.fresh Sample.both_forms));
    reflexivity.
Defined.

(** C6. Running [normalize_config] twice is the same as running it once,
    whatever the outcome. When a run on the shorthand form returns, it
    leaves [models] cleared and [slices] set, and a second run returns
    without changing the store. *)
Theorem normalize_config_idempotent (st : Store) :
  (normalize_config ;; normalize_config) st = normalize_config st /\
  (truthy (models (self_config (self st))) = true ->
   forall st', normalize_config st = Return tt st' ->
     models (self_config (self st')) = None /\
     truthy (slices (self_config (self st'))) = true /\
     normalize_config st' = Return tt st').
Proof.
  assert (Hshort : truthy (models (self_config (self st))) = true ->
     forall st', normalize_config st = Return tt st' ->
       models (self_config (self st')) = None /\
       truthy (slices (self_config (self st'))) = true /\
       normalize_config st' = Return tt st').
  { intros Hm st' Hrun.
    destruct (normalize_config_shorthand st st' Hm Hrun)
      as (base_slice & slices_in & sl & _ & _ & ->).
    repeat split. }
  split; [| exact Hshort].
  clear Hshort. unfold bind.
  destruct (normalize_config st) as [[] st' | e st'] eqn:Hrun; [| done].
  destruct (truthy (models (self_config (self st)))) eqn:Hm.
  - destruct (normalize_config_shorthand st st' Hm Hrun)
      as (base_slice & slices_in & sl & _ & _ & ->).
    by apply normalize_config_explicit.
  - rewrite (normalize_config_explicit st Hm) in Hrun.
    injection Hrun as <-. by apply normalize_config_explicit.
Qed.

Lemma normalize_config_idempotent_witness :
  models (self_config (self (final_store
            (normalize_config (Sample.fresh Sample.shorthand))))) = None /\
  normalize_config
    (final_store (normalize_config (Sample.fresh Sample.shorthand))) =
  Return tt (final_store (normalize_config (Sample.fresh Sample.shorthand))).
Proof.
  destruct (normalize_config_idempotent (Sample.fresh Sample.shorthand))
    as [_ Hshort].
  destruct (Hshort eq_refl
              (final_store (normalize_config (Sample.fresh Sample.shorthand)))
              eq_refl) as (Hm & _ & Hrun).
  exact (conj Hm Hrun).
Defined.

(** C7. With a base model [b] declared, normalizing the shorthand list
    [ms] gives one output slice whose first source is the slice of [b]
    over its full depth (the one it is listed with, else a synthetic
    slice without overrides), followed by the other listed models in
    listing order, each over [0, layers m] with its listed overrides. *)
Theorem normalize_config_base_first (st : Store) (b : ModelReference)
    (ms : list InputModelDefinition) (layers : ModelReference -> Z) :
  models (self_config (self st)) = Some ms ->
  ms <> [] ->
  truthy (slices (self_config (self st))) = false ->
  base_model (self_config (self st)) = Some b ->
  (forall m, m = b \/ In m (map im_model ms) ->
     exists a, arch_dict (self st) !! m = Some a /\ cai_num_layers a = layers m) ->
  normalize_config st = Return tt (normalized (canonical_sources layers b ms) st) /\
  is_model (base_first_slice layers b ms) = b /\
  layer_range (base_first_slice layers b ms) = (0, layers b) /\
  (~ In b (map im_model ms) ->
   is_parameters (base_first_slice layers b ms) = None).
Proof.
  intros Hms Hne Hsl Hb Harch. split; [| split; [| split]].
  - unfold normalize_config, bind, get_self, lift, raise, ret, put_self.
    rewrite Hms, Hsl. destruct ms as [| mi0 rest]; [done |]. cbn [truthy truthy_option truthy_list default].
    rewrite (collect_slices_spec (self st) b layers (mi0 :: rest) Hb).
    + cbn [fst snd app]. unfold with_base_first, canonical_sources, base_first_slice.
      rewrite Hb. destruct (listed_base b (mi0 :: rest)) as [mi |]; [done |].
      destruct (Harch b) as (a & Ha & Hl); [by left |].
      unfold arch_lookup. by rewrite Ha, Hl.
    + intros mi Hin. apply Harch. right. by apply in_map.
  - unfold base_first_slice. destruct (listed_base b ms) as [mi |] eqn:Hl;
      [| done]. by destruct (listed_base_is_base b ms mi Hl).
  - unfold base_first_slice. destruct (listed_base b ms) as [mi |] eqn:Hl;
      [| done]. destruct (listed_base_is_base b ms mi Hl) as [<- _]. done.
  - intros Hn. unfold base_first_slice. by rewrite (listed_base_none b ms Hn).
Qed.

Lemma normalize_config_base_first_witness :
  normalize_config (Sample.fresh Sample.shorthand_with_base) =
  Return tt
    (normalized
       [ {| layer_range := (0, 2); is_model := Sample.model_b;
            is_parameters := None |};
         Sample.whole Sample.model_a 2 ]
       (Sample.fresh Sample.shorthand_with_base)).
Proof.
  refine (proj1 (normalize_config_base_first
                   (Sample.fresh Sample.shorthand_with_base) Sample.model_b
                   [Sample.listed Sample.model_a] Sample.two_layers
                   eq_refl _ eq_refl eq_refl _)).
  - discriminate.
  - intros m [-> | [<- | []]]; eexists; split; vm_compute; reflexivity.
Defined.

End NormalizationClaims.

(** ** Integer true division

    The quotient of two integers in binary64: its end points, its distance
    to the exact quotient and its order, for divisors below [2 ^ 53]. *)

Lemma digits2_pos_bounds (p : positive) :
  2 ^ (Zpos (digits2_pos p) - 1) <= Zpos p < 2 ^ Zpos (digits2_pos p).
Proof.
  induction p as [p IH | p IH |]; cbn [digits2_pos].
  - rewrite Pos2Z.inj_succ. replace (Z.succ (Zpos (digits2_pos p)) - 1)
      with (Z.succ (Zpos (digits2_pos p) - 1)) by lia.
    rewrite !Z.pow_succ_r by lia. lia.
  - rewrite Pos2Z.inj_succ. replace (Z.succ (Zpos (digits2_pos p)) - 1)
      with (Z.succ (Zpos (digits2_pos p) - 1)) by lia.
    rewrite !Z.pow_succ_r by lia. lia.
  - cbn. lia.
Qed.

Lemma digits2_pos_unique (p : positive) (n : Z) :
  2 ^ (n - 1) <= Zpos p < 2 ^ n -> Zpos (digits2_pos p) = n.
Proof.
  intros [Hlo Hhi]. pose proof (digits2_pos_bounds p) as [Hlo' Hhi'].
  assert (Hn : 0 < n).
  { destruct (Z_lt_le_dec 0 n) as [? | Hle]; [done |].
    exfalso. destruct (Z.eq_dec n 0) as [-> | Hn0].
    - rewrite Z.pow_0_r in Hhi. lia.
    - rewrite Z.pow_neg_r in Hhi by lia. lia. }
  destruct (Z.lt_trichotomy (Zpos (digits2_pos p)) n) as [Hlt | [Heq | Hgt]];
    [| exact Heq |]; exfalso.
  - assert (2 ^ Zpos (digits2_pos p) <= 2 ^ (n - 1))
      by (apply Z.pow_le_mono_r; lia). lia.
  - assert (2 ^ n <= 2 ^ (Zpos (digits2_pos p) - 1))
      by (apply Z.pow_le_mono_r; lia). lia.
Qed.

Lemma new_location_spec (d r : Z) :
  0 < d -> 0 <= r < d ->
  match new_location d r with
  | loc_Exact => r = 0
  | loc_Inexact Lt => 0 < r /\ 2 * r < d
  | loc_Inexact Eq => 2 * r = d
  | loc_Inexact Gt => d < 2 * r
  end.
Proof.
  intros Hd Hr. unfold new_location.
  destruct (Z.even d) eqn:Hev.
  - unfold new_location_even. destruct (Z.eqb_spec r 0) as [-> | Hne]; [done |].
    destruct (Z.compare_spec (2 * r) d); lia.
  - unfold new_location_odd. destruct (Z.eqb_spec r 0) as [-> | Hne]; [done |].
    assert (Hodd : Z.odd d = true) by (rewrite <- Z.negb_even, Hev; done).
    apply Z.odd_spec in Hodd as [k Hk].
    destruct (Z.compare_spec (2 * r + 1) d); lia.
Qed.

Lemma div_core (pi pd : positive) :
  Zpos pi < Zpos pd -> Zpos pd < 2 ^ 53 ->
  exists s q r,
    SFdiv_core_binary 53 1024 (Zpos pi) 0 (Zpos pd) 0 =
      (q, - s, new_location (Zpos pd) r) /\
    53 <= s <= 105 /\
    Zpos pi * 2 ^ s = Zpos pd * q + r /\
    0 <= r < Zpos pd /\
    2 ^ 52 <= q < 2 ^ 54 /\
    q < 2 ^ s.
Proof.
  intros Hlt Hd.
  pose proof (digits2_pos_bounds pi) as [Hilo Hihi].
  pose proof (digits2_pos_bounds pd) as [Hdlo Hdhi].
  set (a := Zpos (digits2_pos pi)) in *. set (b := Zpos (digits2_pos pd)) in *.
  assert (Ha : 1 <= a) by (unfold a; lia).
  assert (Hab : a <= b).
  { destruct (Z_le_gt_dec a b) as [? | Hgt]; [assumption |]. exfalso.
    assert (2 ^ b <= 2 ^ (a - 1)) by (apply Z.pow_le_mono_r; lia). lia. }
  assert (Hb : b <= 53).
  { destruct (Z_le_gt_dec b 53) as [? | Hgt]; [assumption |]. exfalso.
    assert (2 ^ 53 <= 2 ^ (b - 1)) by (apply Z.pow_le_mono_r; lia). lia. }
  set (s := 53 + b - a).
  assert (Hs : 53 <= s <= 105) by (unfold s; lia).
  unfold SFdiv_core_binary. cbn [Zdigits2]. fold a b.
  assert (He : Z.min (fexp 53 1024 (a + 0 - (b + 0))) (0 - 0) = - s).
  { unfold fexp, emin, s. lia. }
  rewrite He. replace (0 - 0 - - s) with s by lia.
  assert (Hshift : match s with
                   | 0 => Zpos pi
                   | Zpos _ => Z.shiftl (Zpos pi) s
                   | Zneg _ => 0
                   end = Zpos pi * 2 ^ s).
  { destruct s as [| ps | ps] eqn:Hps; [lia | | lia].
    rewrite Z.shiftl_mul_pow2 by lia. reflexivity. }
  rewrite Hshift.
  pose proof (Z_div_mod (Zpos pi * 2 ^ s) (Zpos pd) ltac:(lia)) as Hdiv.
  destruct (Z.div_eucl (Zpos pi * 2 ^ s) (Zpos pd)) as [q r].
  destruct Hdiv as [Heq Hr].
  exists s, q, r. split; [reflexivity |]. split; [exact Hs |].
  split; [exact Heq |]. split; [exact Hr |].
  assert (Hpa : 2 ^ (a - 1) * 2 ^ s = 2 ^ 52 * 2 ^ b).
  { rewrite <- !Z.pow_add_r by lia. f_equal. unfold s. lia. }
  assert (Hpb : 2 ^ a * 2 ^ s = 2 ^ 54 * 2 ^ (b - 1)).
  { rewrite <- !Z.pow_add_r by lia. f_equal. unfold s. lia. }
  assert (Hps : 0 < 2 ^ s) by (apply Z.pow_pos_nonneg; lia).
  assert (Hlow : 2 ^ 52 * Zpos pd < Zpos pi * 2 ^ s).
  { apply Z.lt_le_trans with (2 ^ 52 * 2 ^ b); [nia |]. rewrite <- Hpa. nia. }
  assert (Hup : Zpos pi * 2 ^ s < 2 ^ 54 * Zpos pd).
  { apply Z.lt_le_trans with (2 ^ a * 2 ^ s); [nia |]. rewrite Hpb. nia. }
  repeat split; nia.
Qed.

Lemma shr_fexp_53 (m e : Z) (l : location) :
  2 ^ 52 <= m < 2 ^ 53 -> -105 <= e <= 0 ->
  shr_fexp 53 1024 m e l = (shr_record_of_loc m l, e).
Proof.
  intros Hm He. unfold shr_fexp.
  destruct m as [| p | p]; [lia | | lia].
  cbn [Zdigits2]. rewrite (digits2_pos_unique p 53) by exact Hm.
  replace (fexp 53 1024 (53 + e) - e) with 0 by (unfold fexp, emin; lia).
  reflexivity.
Qed.

Lemma shr_fexp_54 (m e : Z) (l : location) :
  2 ^ 53 <= m < 2 ^ 54 -> -105 <= e <= 0 ->
  shr_fexp 53 1024 m e l = (shr_1 (shr_record_of_loc m l), e + 1).
Proof.
  intros Hm He. unfold shr_fexp.
  destruct m as [| p | p]; [lia | | lia].
  cbn [Zdigits2]. rewrite (digits2_pos_unique p 54) by exact Hm.
  replace (fexp 53 1024 (54 + e) - e) with 1 by (unfold fexp, emin; lia).
  reflexivity.
Qed.

Lemma shr_1_spec (m : Z) (r s : bool) :
  0 < m ->
  exists m' bit,
    shr_1 (Build_shr_record m r s) = Build_shr_record m' bit (r || s) /\
    m = 2 * m' + (if bit then 1 else 0) /\ 0 <= m'.
Proof.
  intros Hm. destruct m as [| p | p]; [lia | | lia].
  destruct p as [p | p |]; cbn [shr_1].
  - exists (Zpos p), true. repeat split; lia.
  - exists (Zpos p), false. repeat split; lia.
  - exists 0, true. repeat split; lia.
Qed.

Lemma loc_of_shr_record_of_loc (m : Z) (l : location) :
  loc_of_shr_record (shr_record_of_loc m l) = l /\
  shr_m (shr_record_of_loc m l) = m.
Proof. by destruct l as [| []]. Qed.

Lemma round_nearest_even_bounds (m : Z) (l : location) :
  m <= round_nearest_even m l <= m + 1.
Proof.
  unfold round_nearest_even. destruct l as [| []]; try lia.
  destruct (Z.even m); lia.
Qed.

Lemma bra_finish (mx ex : Z) (lx : location) (mrs' : shr_record) (k0 : Z) :
  shr_fexp 53 1024 mx ex lx = (mrs', - k0) ->
  2 ^ 52 <= shr_m mrs' < 2 ^ 53 ->
  53 <= k0 <= 105 ->
  exists m k,
    binary_round_aux 53 1024 false mx ex lx = S754_finite false m (- k) /\
    52 <= k <= 105 /\
    2 ^ 52 <= Zpos m < 2 ^ 53 /\
    Zpos m * 2 ^ k0 =
    round_nearest_even (shr_m mrs') (loc_of_shr_record mrs') * 2 ^ k.
Proof.
  intros Hfirst Hm0 Hk0. unfold binary_round_aux. rewrite Hfirst.
  pose proof (round_nearest_even_bounds (shr_m mrs') (loc_of_shr_record mrs'))
    as Hm1.
  set (m1 := round_nearest_even (shr_m mrs') (loc_of_shr_record mrs')) in *.
  destruct (Z_lt_le_dec m1 (2 ^ 53)) as [Hlt | Hge].
  - rewrite shr_fexp_53 by lia. cbn [shr_record_of_loc shr_m].
    destruct m1 as [| p | p] eqn:Hp; [lia | | lia].
    replace (Z.leb (- k0) (1024 - 53)) with true by (symmetry; apply Z.leb_le; lia).
    exists p, k0. repeat split; lia.
  - assert (Hm1' : m1 = 2 ^ 53) by lia. rewrite Hm1'.
    rewrite shr_fexp_54 by lia.
    change (shr_1 (shr_record_of_loc (2 ^ 53) loc_Exact))
      with (Build_shr_record (2 ^ 52) false false).
    cbn [shr_m]. change (2 ^ 52) with (Zpos (2 ^ 52)%positive).
    replace (Z.leb (- k0 + 1) (1024 - 53)) with true by (symmetry; apply Z.leb_le; lia).
    exists (2 ^ 52)%positive, (k0 - 1).
    replace (- (k0 - 1)) with (- k0 + 1) by lia.
    split; [reflexivity |]. split; [lia |]. split; [done |].
    replace k0 with (Z.succ (k0 - 1)) at 1 by lia.
    rewrite Z.pow_succ_r by lia. change (2 ^ 53) with (2 * 2 ^ 52).
    change (Zpos (2 ^ 52)%positive) with (2 ^ 52). lia.
Qed.

Lemma final_bound (m m1 i d k0 k : Z) :
  0 < d -> 53 <= k0 -> 0 <= k ->
  m * 2 ^ k0 = m1 * 2 ^ k ->
  2 * Z.abs (m1 * d - i * 2 ^ k0) <= d ->
  2 ^ 54 * Z.abs (m * d - i * 2 ^ k) <= d * 2 ^ k.
Proof.
  intros Hd Hk0 Hk Hval Herr.
  assert (HP0 : 2 ^ 53 <= 2 ^ k0) by (apply Z.pow_le_mono_r; lia).
  assert (HP : 0 < 2 ^ k) by (apply Z.pow_pos_nonneg; lia).
  set (P0 := 2 ^ k0) in *. set (P := 2 ^ k) in *.
  assert (HT : Z.abs (m * d - i * P) * P0 = Z.abs (m1 * d - i * P0) * P).
  { transitivity (Z.abs ((m * d - i * P) * P0)).
    - rewrite Z.abs_mul, (Z.abs_eq P0) by lia. reflexivity.
    - transitivity (Z.abs ((m1 * d - i * P0) * P)).
      + f_equal. nia.
      + rewrite Z.abs_mul, (Z.abs_eq P) by lia. reflexivity. }
  apply Z.mul_le_mono_pos_r with P0; [lia |].
  replace (2 ^ 54 * Z.abs (m * d - i * P) * P0)
    with (2 ^ 54 * (Z.abs (m * d - i * P) * P0)) by ring.
  rewrite HT. change (2 ^ 54) with (2 * 2 ^ 53).
  assert (H0 : 0 <= Z.abs (m1 * d - i * P0)) by apply Z.abs_nonneg.
  set (X := Z.abs (m1 * d - i * P0) * P).
  assert (S1 : 2 * X <= d * P) by (unfold X; nia).
  assert (S2 : 2 ^ 53 * (d * P) <= P0 * (d * P))
    by (apply Z.mul_le_mono_nonneg_r; nia).
  replace (d * P * P0) with (P0 * (d * P)) by ring. lia.
Qed.

Lemma truediv_spec (i d : Z) :
  0 < i < d -> d < 2 ^ 53 ->
  exists m k,
    truediv i d = S754_finite false m (- k) /\
    52 <= k <= 105 /\
    2 ^ 52 <= Zpos m < 2 ^ 53 /\
    2 ^ 54 * Z.abs (Zpos m * d - i * 2 ^ k) <= d * 2 ^ k.
Proof.
  intros Hi Hd.
  destruct i as [| pi | pi]; [lia | | lia].
  destruct d as [| pd | pd]; [lia | | lia].
  destruct (div_core pi pd ltac:(lia) Hd)
    as (s & q & r & Hcore & Hs & Heq & Hr & Hq & Hqs).
  unfold truediv. cbn [Z2SF SFdiv xorb]. rewrite Hcore.
  pose proof (new_location_spec (Zpos pd) r ltac:(lia) Hr) as Hloc.
  set (l := new_location (Zpos pd) r) in *.
  destruct (Z_lt_le_dec q (2 ^ 53)) as [Hlt | Hge].
  - destruct (bra_finish q (- s) l (shr_record_of_loc q l) s) as
      (m & k & Hres & Hk & Hm & Hval).
    { apply shr_fexp_53; lia. }
    { destruct (loc_of_shr_record_of_loc q l) as [_ ->]. lia. }
    { exact Hs. }
    destruct (loc_of_shr_record_of_loc q l) as [Hl Hmq].
    rewrite Hl, Hmq in Hval.
    exists m, k. split; [exact Hres |]. split; [exact Hk |]. split; [exact Hm |].
    apply (final_bound (Zpos m) (round_nearest_even q l) (Zpos pi) (Zpos pd) s k);
      [lia | lia | lia | exact Hval |].
    rewrite Heq. unfold round_nearest_even.
    destruct l as [| []]; try destruct (Z.even q); lia.
  - assert (Hs54 : 54 <= s).
    { destruct (Z_le_gt_dec 54 s) as [? | Hgt]; [assumption |]. exfalso.
      assert (2 ^ s <= 2 ^ 53) by (apply Z.pow_le_mono_r; lia). lia. }
    destruct (shr_1_spec q (shr_r (shr_record_of_loc q l))
                (shr_s (shr_record_of_loc q l)) ltac:(lia))
      as (m' & bit & Hshr & Hq2 & Hm'0).
    assert (Hrec : shr_record_of_loc q l =
                   Build_shr_record q (shr_r (shr_record_of_loc q l))
                                    (shr_s (shr_record_of_loc q l)))
      by (by destruct l as [| []]).
    rewrite <- Hrec in Hshr.
    destruct (bra_finish q (- s) l (shr_1 (shr_record_of_loc q l)) (s - 1)) as
      (m & k & Hres & Hk & Hm & Hval).
    { rewrite shr_fexp_54 by lia. f_equal. lia. }
    { rewrite Hshr. cbn [shr_m]. destruct bit; lia. }
    { lia. }
    rewrite Hshr in Hval. cbn [shr_m loc_of_shr_record] in Hval.
    exists m, k. split; [exact Hres |]. split; [exact Hk |]. split; [exact Hm |].
    eapply (final_bound (Zpos m) _ (Zpos pi) (Zpos pd) (s - 1) k);
      [lia | lia | lia | exact Hval |].
    assert (Hpow : 2 * 2 ^ (s - 1) = 2 ^ s).
    { rewrite <- Z.pow_succ_r by lia. f_equal. lia. }
    assert (Hnum : Zpos pi * 2 ^ (s - 1) * 2 = Zpos pd * (2 * m' + (if bit then 1 else 0)) + r)
      by (rewrite <- Hq2, <- Heq, <- Hpow; ring).
    unfold round_nearest_even.
    destruct l as [| []]; cbn [shr_record_of_loc shr_r shr_s orb];
      destruct bit; cbn [orb]; try destruct (Z.even m'); nia.
Qed.

Lemma truediv_zero (d : Z) : 0 < d -> truediv 0 d = S754_zero false.
Proof. intros Hd. destruct d; [lia | reflexivity | lia]. Qed.

Lemma truediv_self (d : Z) :
  0 < d -> truediv d d = S754_finite false (2 ^ 52)%positive (- 52).
Proof.
  intros Hd. destruct d as [| pd | pd]; [lia | | lia].
  unfold truediv. cbn [Z2SF SFdiv xorb]. unfold SFdiv_core_binary.
  cbn [Zdigits2].
  replace (Zpos (digits2_pos pd) + 0 - (Zpos (digits2_pos pd) + 0)) with 0 by lia.
  change (Z.min (fexp 53 1024 0) (0 - 0)) with (- 53).
  change (0 - 0 - - 53) with 53.
  cbv beta iota zeta. rewrite Z.shiftl_mul_pow2 by lia.
  pose proof (Z_div_mod (Zpos pd * 2 ^ 53) (Zpos pd) ltac:(lia)) as Hdiv.
  destruct (Z.div_eucl (Zpos pd * 2 ^ 53) (Zpos pd)) as [q r].
  destruct Hdiv as [Heq Hr].
  assert (Hq : q = 2 ^ 53) by nia. assert (Hr0 : r = 0) by nia. subst q r.
  assert (Hloc : new_location (Zpos pd) 0 = loc_Exact).
  { unfold new_location, new_location_even, new_location_odd.
    by destruct (Z.even (Zpos pd)). }
  rewrite Hloc. reflexivity.
Qed.

Lemma truediv_unit (i d : Z) :
  0 < i <= d -> d < 2 ^ 53 ->
  exists m k,
    truediv i d = S754_finite false m (- k) /\
    52 <= k <= 105 /\
    2 ^ 54 * Z.abs (Zpos m * d - i * 2 ^ k) <= d * 2 ^ k.
Proof.
  intros Hi Hd. destruct (Z.eq_dec i d) as [-> | Hne].
  - exists (2 ^ 52)%positive, 52. rewrite truediv_self by lia.
    split; [reflexivity |]. split; [lia |].
    change (Zpos (2 ^ 52)%positive) with (2 ^ 52).
    replace (2 ^ 52 * d - d * 2 ^ 52) with 0 by ring. cbn [Z.abs]. nia.
  - destruct (truediv_spec i d ltac:(lia) Hd) as (m & k & H1 & H2 & _ & H4).
    by exists m, k.
Qed.

Lemma SF2Q_finite (m : positive) (k : Z) :
  0 < k ->
  SF2Q (S754_finite false m (- k)) = Qmake (Zpos m) (Z.to_pos (2 ^ k)).
Proof.
  intros Hk. destruct k as [| pk | pk]; [lia | | lia].
  cbn [SF2Q Z.opp]. f_equal. rewrite <- Pos2Z.inj_pow. reflexivity.
Qed.

Lemma truediv_increasing (i j d : Z) :
  0 <= i < j -> j <= d -> d < 2 ^ 53 ->
  (SF2Q (truediv i d) < SF2Q (truediv j d))%Q.
Proof.
  intros Hij Hj Hd.
  destruct (truediv_unit j d ltac:(lia) Hd) as (m2 & k2 & -> & Hk2 & B2).
  rewrite SF2Q_finite by lia.
  assert (HP2 : 0 < 2 ^ k2) by (apply Z.pow_pos_nonneg; lia).
  destruct (Z.eq_dec i 0) as [-> | Hi0].
  - rewrite truediv_zero by lia. unfold Qlt. cbn. lia.
  - destruct (truediv_unit i d ltac:(lia) Hd) as (m1 & k1 & -> & Hk1 & B1).
    rewrite SF2Q_finite by lia.
    assert (HP1 : 0 < 2 ^ k1) by (apply Z.pow_pos_nonneg; lia).
    unfold Qlt. cbn [Qnum Qden]. rewrite !Z2Pos.id by lia.
    set (P1 := 2 ^ k1) in *. set (P2 := 2 ^ k2) in *.
    assert (A1 : 2 ^ 54 * (Zpos m1 * d) <= P1 * (2 ^ 54 * i + d)) by lia.
    assert (A2 : P2 * (2 ^ 54 * j - d) <= 2 ^ 54 * (Zpos m2 * d)) by lia.
    assert (C : 2 ^ 54 * i + d < 2 ^ 54 * j - d) by lia.
    apply Z.mul_lt_mono_pos_l with (2 ^ 54 * d); [lia |].
    apply Z.le_lt_trans with (P1 * P2 * (2 ^ 54 * i + d)).
    + replace (2 ^ 54 * d * (Zpos m1 * P2))
        with (2 ^ 54 * (Zpos m1 * d) * P2) by ring.
      replace (P1 * P2 * (2 ^ 54 * i + d))
        with (P1 * (2 ^ 54 * i + d) * P2) by ring.
      apply Z.mul_le_mono_nonneg_r; lia.
    + apply Z.lt_le_trans with (P1 * P2 * (2 ^ 54 * j - d)).
      * apply Z.mul_lt_mono_pos_l; nia.
      * replace (2 ^ 54 * d * (Zpos m2 * P1))
          with (2 ^ 54 * (Zpos m2 * d) * P1) by ring.
        replace (P1 * P2 * (2 ^ 54 * j - d))
          with (P2 * (2 ^ 54 * j - d) * P1) by ring.
        apply Z.mul_le_mono_nonneg_r; lia.
Qed.

Lemma truediv_error (i d : Z) :
  0 <= i <= d -> 0 < d -> d < 2 ^ 53 ->
  (Qabs (SF2Q (truediv i d) - (i # Z.to_pos d)) <= 1 # (2 ^ 54))%Q.
Proof.
  intros Hi Hd0 Hd.
  destruct (Z.eq_dec i 0) as [-> | Hi0].
  - rewrite truediv_zero by lia. by unfold Qle, Qabs, Qminus, Qplus.
  - destruct (truediv_unit i d ltac:(lia) Hd) as (m & k & -> & Hk & B).
    rewrite SF2Q_finite by lia.
    assert (HP : 0 < 2 ^ k) by (apply Z.pow_pos_nonneg; lia).
    unfold Qle, Qabs, Qminus, Qplus, Qopp. cbn [Qnum Qden].
    rewrite Pos2Z.inj_mul, !Z2Pos.id by lia.
    change (Zpos (2 ^ 54)) with (2 ^ 54).
    replace (Zpos m * d + - i * 2 ^ k) with (Zpos m * d - i * 2 ^ k) by ring.
    lia.
Qed.

(** ** Slices and layers *)

Section SliceClaims.

Lemma range_lookup (n idx : Z) :
  0 <= idx < n -> range n !! Z.to_nat idx = Some idx.
Proof.
  intros H. unfold range. rewrite list_lookup_fmap.
  rewrite lookup_seq_lt by lia. simpl. f_equal. lia.
Qed.

Lemma range_length (n : Z) : length (range n) = Z.to_nat n.
Proof. unfold range. by rewrite length_map, length_seq. Qed.

Lemma slice_lengths_common (d : OutputSliceDefinition) (n : Z) :
  sources d <> [] ->
  (forall s, In s (sources d) -> source_length s = n) ->
  all_equal_first (slice_lengths d) = true /\
  index (slice_lengths d) 0 = inr n.
Proof.
  intros Hne Hall. unfold slice_lengths.
  destruct (sources d) as [| s0 rest]; [done |].
  assert (H0 : source_length s0 = n) by (apply Hall; by left).
  split.
  - cbn [map all_equal_first]. apply forallb_forall. intros x Hx.
    apply bool_decide_eq_true.
    change (In x (map source_length (s0 :: rest))) in Hx.
    apply in_map_iff in Hx as (s & <- & Hs).
    rewrite H0. by apply Hall.
  - cbn. by rewrite H0.
Qed.

Lemma slice_lengths_inconsistent (d : OutputSliceDefinition) :
  inconsistent_lengths d -> all_equal_first (slice_lengths d) = false.
Proof.
  intros (s1 & s2 & H1 & H2 & Hne).
  destruct (all_equal_first (slice_lengths d)) eqn:Hall; [| done].
  exfalso. apply Hne. unfold slice_lengths in Hall.
  destruct (sources d) as [| s0 rest] eqn:Hs; [done |].
  cbn [map all_equal_first] in Hall.
  rewrite forallb_forall in Hall.
  assert (Heq : forall s, In s (s0 :: rest) -> source_length s = source_length s0).
  { intros s Hin. apply (bool_decide_eq_true_1 _).
    apply Hall. change (In (source_length s) (map source_length (s0 :: rest))).
    by apply in_map. }
  by rewrite (Heq s1 H1), (Heq s2 H2).
Qed.

Lemma plan_slice_inconsistent (env : Env) (d : OutputSliceDefinition) (st : Store) :
  inconsistent_lengths d ->
  plan_slice env d st = Raise (RuntimeError slice_length_message) st.
Proof.
  intros H. unfold plan_slice, plan_slice_with.
  by rewrite (slice_lengths_inconsistent d H).
Qed.

Lemma interpolation_t_single (idx : Z) : interpolation_t 1 idx = 1%Q.
Proof. reflexivity. Qed.

Lemma interpolation_t_float (n idx : Z) :
  n > 1 -> interpolation_t n idx = SF2Q (truediv idx (n - 1)).
Proof.
  intros Hn. unfold interpolation_t.
  by destruct (Z.gtb_spec n 1) as [_ | ?]; [| lia].
Qed.

Lemma plan_slice_with_common
    (layer : list InputSliceDefinition -> Z -> Q -> ConfigReader -> M unit)
    (d : OutputSliceDefinition) (n : Z) (st : Store) :
  sources d <> [] ->
  (forall s, In s (sources d) -> source_length s = n) ->
  plan_slice_with layer d st =
    for_each (range n)
      (fun idx => layer (sources d) idx (interpolation_t n idx)
                        (slice_reader st d)) st.
Proof.
  intros Hne Hall.
  destruct (slice_lengths_common d n Hne Hall) as [Heq Hidx].
  unfold plan_slice_with. rewrite Heq. cbn [negb].
  unfold bind at 1. rewrite Hidx. cbn [lift ret]. reflexivity.
Qed.

(** C1 (amended). For a slice whose sources share the layer-range length
    [N], [plan_slice] calls the layer procedure once per position
    [0 .. N-1], in order, whatever that procedure is, and the fraction it
    passes at position [idx] is the integer 1 when [N = 1] and the float
    quotient of [idx] by [N - 1] when [N > 1]. That float is 0.0 at the
    first position and 1.0 at the last; as long as [N - 1 < 2 ^ 53] it is
    within [2 ^ -54] of the exact quotient and strictly increasing with
    the position. *)
Theorem plan_slice_interpolation (env : Env)
    (layer : list InputSliceDefinition -> Z -> Q -> ConfigReader -> M unit)
    (d : OutputSliceDefinition) (N : Z) (st : Store) :
  sources d <> [] ->
  (forall s, In s (sources d) -> source_length s = N) ->
  plan_slice_with layer d st =
    for_each (range N)
      (fun idx => layer (sources d) idx (interpolation_t N idx)
                        (slice_reader st d)) st /\
  plan_slice env d st =
    for_each (range N)
      (fun idx => plan_layer env (sources d) idx (interpolation_t N idx)
                             (slice_reader st d)) st /\
  (N = 1 -> range N = [0] /\ interpolation_t N 0 = 1%Q) /\
  (N > 1 ->
     (forall idx, interpolation_t N idx = SF2Q (truediv idx (N - 1))) /\
     truediv 0 (N - 1) = S754_zero false /\
     truediv (N - 1) (N - 1) = S754_finite false (2 ^ 52) (- 52) /\
     interpolation_t N 0 = 0%Q /\
     (interpolation_t N (N - 1) == 1)%Q) /\
  (N > 1 -> N - 1 < 2 ^ 53 ->
     forall idx, 0 <= idx < N ->
       (Qabs (interpolation_t N idx - (idx # Z.to_pos (N - 1))) <=
        1 # 2 ^ 54)%Q) /\
  (N - 1 < 2 ^ 53 ->
     forall i j, 0 <= i < j -> j < N ->
       (interpolation_t N i < interpolation_t N j)%Q).
Proof.
  intros Hne Hall.
  split; [by apply plan_slice_with_common |].
  split; [by apply (plan_slice_with_common (plan_layer env)) |].
  split; [by intros -> |].
  split.
  { intros Hn. split; [intros idx; by apply interpolation_t_float |].
    rewrite !interpolation_t_float by done.
    rewrite truediv_zero, truediv_self by lia.
    split; [done |]. split; [done |]. split; [done |]. by vm_compute. }
  split.
  { intros Hn Hd idx Hi. rewrite interpolation_t_float by done.
    apply truediv_error; lia. }
  intros Hd i j Hij Hj. rewrite !interpolation_t_float by lia.
  apply truediv_increasing; lia.
Qed.

Lemma plan_slice_interpolation_witness :
  plan_slice_with (plan_layer Sample.env) Edge.four_layers Edge.start =
    for_each [0; 1; 2; 3]
      (fun idx => plan_layer Sample.env (sources Edge.four_layers) idx
                    (interpolation_t 4 idx)
                    (slice_reader Edge.start Edge.four_layers)) Edge.start /\
  interpolation_t 4 0 = 0%Q /\
  (interpolation_t 4 3 == 1)%Q /\
  (Qabs (interpolation_t 4 1 - (1 # 3)) <= 1 # 2 ^ 54)%Q /\
  (interpolation_t 4 1 < interpolation_t 4 2)%Q.
Proof.
  assert (Hne : sources Edge.four_layers <> []) by discriminate.
  assert (Hall : forall s, In s (sources Edge.four_layers) ->
                           source_length s = 4).
  { intros s [<- | [<- | []]]; reflexivity. }
  destruct (plan_slice_interpolation Sample.env (plan_layer Sample.env)
              Edge.four_layers 4 Edge.start Hne Hall)
    as (Hrun & _ & _ & Hfloat & Herr & Hinc).
  destruct (Hfloat ltac:(lia)) as (_ & _ & _ & H0 & H1).
  split; [exact Hrun |]. split; [exact H0 |]. split; [exact H1 |].
  split; [apply (Herr ltac:(lia) ltac:(lia) 1); lia |].
  apply (Hinc ltac:(lia) 1 2); lia.
Defined.

(** C1 as stated fails on "exactly [idx / (N - 1)]" and, for slices
    beyond [2 ^ 53] layers, on "strictly increasing". Over the four
    layers of the scenario the fractions passed are the floats 0.0,
    0.333..., 0.666... and 1.0: the second is [6004799503160661 / 2 ^ 54],
    which is not one third. Over [2 ^ 54 + 1] layers the last two
    positions are both passed 1.0. *)
Lemma interpolation_is_rounded :
  (forall layer st,
     plan_slice_with layer Edge.four_layers st =
       for_each [(0, 0%Q);
                 (1, (6004799503160661 # 2 ^ 54)%Q);
                 (2, (6004799503160661 # 2 ^ 53)%Q);
                 (3, (2 ^ 52 # 2 ^ 52)%Q)]
         (fun '(idx, t) =>
            layer (sources Edge.four_layers) idx t
                  (slice_reader st Edge.four_layers)) st) /\
  ~ (6004799503160661 # 2 ^ 54 == 1 # 3)%Q /\
  ~ (6004799503160661 # 2 ^ 53 == 2 # 3)%Q /\
  interpolation_t (2 ^ 54 + 1) (2 ^ 54 - 1) =
  interpolation_t (2 ^ 54 + 1) (2 ^ 54).
Proof.
  split; [| split; [| split]].
  - intros layer st. reflexivity.
  - unfold Qeq. cbn. lia.
  - unfold Qeq. cbn. lia.
  - by vm_compute.
Qed.

(** C4 (amended). For a slice whose sources do not all have the same
    layer-range length, [plan_slice] raises the [RuntimeError] with the
    fixed message on unequal layer counts, and leaves the store as it
    was: no task of the slice has been built. The exception does not
    tell which slice it was raised for. *)
Theorem inconsistent_slice_rejected (env : Env) (d : OutputSliceDefinition)
    (st : Store) :
  inconsistent_lengths d ->
  plan_slice env d st = Raise (RuntimeError slice_length_message) st /\
  _tasks (final_store (plan_slice env d st)) = _tasks st.
Proof.
  intros H. rewrite (plan_slice_inconsistent env d st H). by split.
Qed.

Lemma uneven_slice_1_inconsistent : inconsistent_lengths Sample.uneven_slice_1.
Proof.
  exists (Sample.whole Sample.model_a 2), (Sample.whole Sample.model_b 1).
  split; [by left |]. split; [right; by left |]. discriminate.
Defined.

Lemma uneven_slice_2_inconsistent : inconsistent_lengths Sample.uneven_slice_2.
Proof.
  exists (Sample.whole Sample.model_a 1), (Sample.whole Sample.model_b 2).
  split; [by left |]. split; [right; by left |]. discriminate.
Defined.

Lemma inconsistent_slice_rejected_witness :
  plan_slice Sample.env Sample.uneven_slice_1 (Sample.fresh Sample.shorthand) =
  Raise (RuntimeError slice_length_message) (Sample.fresh Sample.shorthand).
Proof.
  exact (proj1 (inconsistent_slice_rejected Sample.env Sample.uneven_slice_1
                  (Sample.fresh Sample.shorthand) uneven_slice_1_inconsistent)).
Defined.

(** C4 as stated fails: two different slices with inconsistent lengths
    raise one and the same exception, so no slice can be read off it. *)
Lemma slice_error_is_anonymous :
  Sample.uneven_slice_1 <> Sample.uneven_slice_2 /\
  plan_slice Sample.env Sample.uneven_slice_1 (Sample.fresh Sample.shorthand) =
    Raise (RuntimeError slice_length_message) (Sample.fresh Sample.shorthand) /\
  plan_slice Sample.env Sample.uneven_slice_2 (Sample.fresh Sample.shorthand) =
    Raise (RuntimeError slice_length_message) (Sample.fresh Sample.shorthand) /\
  ~ error_names_slice Sample.env.
Proof.
  assert (Hne : Sample.uneven_slice_1 <> Sample.uneven_slice_2) by discriminate.
  pose proof (plan_slice_inconsistent Sample.env _ (Sample.fresh Sample.shorthand)
                uneven_slice_1_inconsistent) as H1.
  pose proof (plan_slice_inconsistent Sample.env _ (Sample.fresh Sample.shorthand)
                uneven_slice_2_inconsistent) as H2.
  split; [exact Hne |]. split; [exact H1 |]. split; [exact H2 |].
  intros [name_of Hname].
  destruct (Hname _ (Sample.fresh Sample.shorthand) uneven_slice_1_inconsistent)
    as (e1 & st1 & Hr1 & Hn1).
  destruct (Hname _ (Sample.fresh Sample.shorthand) uneven_slice_2_inconsistent)
    as (e2 & st2 & Hr2 & Hn2).
  rewrite H1 in Hr1. rewrite H2 in Hr2.
  injection Hr1 as <- _. injection Hr2 as <- _. congruence.
Qed.

End SliceClaims.

(** ** Planning of tensors *)

Section TensorPlanning.

Variable env : Env.

Lemma bind_return {A B} (m : M A) (k : A -> M B) (st st' : Store) (b : B) :
  bind m k st = Return b st' ->
  exists a st1, m st = Return a st1 /\ k a st1 = Return b st'.
Proof.
  unfold bind. destruct (m st) as [a st1 | e st1]; [| discriminate].
  intros H. by exists a, st1.
Qed.

Lemma advance_nil (st : Store) : advance [] [] 0 st = st.
Proof.
  destruct st as [cls p]. destruct p as [? ? ? ? ? ? ts n ? sp ? ?].
  unfold advance. cbn.
  destruct ts as [l |], sp as [[b evs] |]; cbn;
    rewrite ?app_nil_r, Z.add_0_r; reflexivity.
Qed.

Lemma advance_advance (a b : list Task) (e f : list SpaceEvent) (n m : Z)
    (st : Store) :
  advance b f m (advance a e n st) = advance (a ++ b) (e ++ f) (n + m) st.
Proof.
  destruct st as [cls p]. destruct p as [? ? ? ? ? ? ts k ? sp ? ?].
  unfold advance. cbn.
  destruct ts as [l |], sp as [[bm evs] |]; cbn;
    rewrite <- ?app_assoc, Z.add_assoc; reflexivity.
Qed.

Lemma tasks_advance (new : list Task) (evs : list SpaceEvent) (n : Z)
    (st : Store) :
  _tasks (advance new evs n st) = _tasks st ++ new.
Proof.
  unfold _tasks, advance. cbn. by destruct (inst_tasks (self st)).
Qed.

Lemma call_task_advance (new : list Task) (evs : list SpaceEvent) (n : Z)
    (st : Store) (c : TensorCall) :
  call_task (self (advance new evs n st)) c = call_task (self st) c.
Proof.
  unfold call_task, call_inputs, select_method, advance. cbn.
  by destruct (_space_planner (self st)).
Qed.

Lemma call_events_advance (new : list Task) (evs : list SpaceEvent) (n : Z)
    (st : Store) (c : TensorCall) :
  call_events (self (advance new evs n st)) c = call_events (self st) c.
Proof. reflexivity. Qed.

Lemma after_calls_nil (st : Store) : after_calls [] 0 st = st.
Proof. apply advance_nil. Qed.

Lemma after_calls_after_calls (c1 c2 : list TensorCall) (n m : Z) (st : Store) :
  after_calls c2 m (after_calls c1 n st) = after_calls (c1 ++ c2) (n + m) st.
Proof.
  unfold after_calls at 1. unfold after_calls at 2.
  rewrite (map_ext (call_task (self (after_calls c1 n st))) (call_task (self st)))
    by (intros c; apply call_task_advance).
  rewrite (map_ext (call_events (self (after_calls c1 n st)))
                   (call_events (self st)))
    by (intros c; apply call_events_advance).
  unfold after_calls. rewrite advance_advance.
  by rewrite !map_app, concat_app.
Qed.

(** The outcome of [plan_tensor]: the first parameter that fails to
    resolve is raised with the store untouched; otherwise one save task
    is appended. *)
Lemma plan_tensor_outcome (weight : WeightInfo) (weights_in : list WeightInfo)
    (ms : list ModelReference) (r : ConfigReader) (st : Store) :
  plan_tensor env weight weights_in ms r st =
  match resolve_parameters (for_tensor r (w_name weight)) None required
          (method_parameters env (select_method (self st) weight)) [] with
  | inl e => Raise e st
  | inr gp =>
      match resolve_tensor_params env r (select_method (self st) weight)
              (zip ms weights_in) [] with
      | inl e => Raise e st
      | inr tp =>
          Return tt
            (after_calls [ {| tc_weight := weight; tc_pairs := zip ms weights_in;
                              tc_global := gp; tc_tensor := tp |} ] 0 st)
      end
  end.
Proof.
  unfold plan_tensor, bind, get_self, lift, raise, ret.
  destruct (resolve_parameters _ _ _ _ _) as [e | gp]; [reflexivity |].
  destruct (resolve_tensor_params _ _ _ _ _) as [e | tp]; [reflexivity |].
  destruct st as [cls p]. destruct p as [? ? ? ? ? ? ts k ? sp ? ?].
  unfold space_planner_record, append_task, bind, get_self, put_self, ret,
    after_calls, advance, call_task, call_events, call_inputs,
    set_inst_tasks, set_space_planner.
  cbn.
  destruct ts as [l |], sp as [[bm evs] |]; cbn;
    rewrite ?app_nil_r, ?Z.add_0_r, <- ?app_assoc; reflexivity.
Qed.


Lemma pt_ret {A} (a : A) : plans_tensors (ret a).
Proof. intros st. exists [], 0. by rewrite after_calls_nil. Qed.

Lemma pt_raise {A} (e : Exn) : plans_tensors (@raise A e).
Proof. intros st. exists [], 0. by rewrite after_calls_nil. Qed.

Lemma pt_lift {A} (r : Exn + A) : plans_tensors (lift r).
Proof. destruct r; [apply pt_raise | apply pt_ret]. Qed.

Lemma pt_get_self : plans_tensors get_self.
Proof. intros st. exists [], 0. by rewrite after_calls_nil. Qed.

Lemma pt_bind {A B} (m : M A) (k : A -> M B) :
  plans_tensors m -> (forall a, plans_tensors (k a)) -> plans_tensors (bind m k).
Proof.
  intros Hm Hk st. destruct (Hm st) as (c1 & n1 & H1). unfold bind.
  destruct (m st) as [a st1 | e st1]; cbn in H1; subst st1.
  - destruct (Hk a (after_calls c1 n1 st)) as (c2 & n2 & H2).
    exists (c1 ++ c2), (n1 + n2). by rewrite H2, after_calls_after_calls.
  - by exists c1, n1.
Qed.

Lemma pt_for_each {A} (l : list A) (body : A -> M unit) :
  (forall x, plans_tensors (body x)) -> plans_tensors (for_each l body).
Proof.
  intros Hbody. induction l as [| x l IH]; cbn [for_each].
  - apply pt_ret.
  - apply pt_bind; [apply Hbody | intros _; apply IH].
Qed.

Lemma pt_plan_tensor (weight : WeightInfo) (weights_in : list WeightInfo)
    (ms : list ModelReference) (r : ConfigReader) :
  plans_tensors (plan_tensor env weight weights_in ms r).
Proof.
  intros st. rewrite plan_tensor_outcome.
  destruct (resolve_parameters _ _ _ _ _) as [e | gp].
  { exists [], 0. by rewrite after_calls_nil. }
  destruct (resolve_tensor_params _ _ _ _ _) as [e | tp].
  { exists [], 0. by rewrite after_calls_nil. }
  by eexists _, _.
Qed.

Lemma pt_count_layer :
  plans_tensors (let* p' := get_self in
                 put_self (set_current_layers (_current_layers p' + 1) p')).
Proof.
  intros st. exists [], 1. destruct st as [cls p].
  destruct p as [? ? ? ? ? ? ts k ? sp ? ?].
  unfold bind, get_self, put_self, after_calls, advance, set_current_layers.
  cbn. destruct ts as [l |], sp as [[bm evs] |]; cbn;
    rewrite ?app_nil_r; reflexivity.
Qed.

Lemma pt_plan_layer_weights (weights_out : list WeightInfo) (idx : nat)
    (weights_in : list (list WeightInfo)) (srcs : list InputSliceDefinition)
    (t : Q) (r : ConfigReader) :
  plans_tensors (plan_layer_weights env weights_out idx weights_in srcs t r).
Proof.
  revert idx. induction weights_out as [| w_o rest IH]; intros idx;
    cbn [plan_layer_weights].
  - apply pt_ret.
  - apply pt_bind; [apply pt_lift | intros col].
    apply pt_bind; [apply pt_plan_tensor | intros _; apply IH].
Qed.

Lemma pt_plan_layer (srcs : list InputSliceDefinition) (layer_offset : Z)
    (t : Q) (r : ConfigReader) :
  plans_tensors (plan_layer env srcs layer_offset t r).
Proof.
  unfold plan_layer. apply pt_bind; [apply pt_get_self | intros p].
  apply pt_bind; [apply pt_lift | intros weights_in].
  apply pt_bind; [apply pt_plan_layer_weights | intros _].
  apply pt_count_layer.
Qed.

Lemma pt_plan_slice (d : OutputSliceDefinition) : plans_tensors (plan_slice env d).
Proof.
  unfold plan_slice, plan_slice_with. destruct (negb _); [apply pt_raise |].
  apply pt_bind; [apply pt_lift | intros n].
  apply pt_bind; [apply pt_get_self | intros p].
  apply pt_for_each. intros idx. apply pt_plan_layer.
Qed.

Lemma pt_plan_slices : plans_tensors (plan_slices env).
Proof.
  unfold plan_slices. apply pt_bind; [apply pt_get_self | intros p].
  destruct (slices (self_config p)); [| apply pt_raise].
  apply pt_for_each. intros d. apply pt_plan_slice.
Qed.

Lemma pt_plan_outer_weights
    (weights_of : ArchitectureInfo -> ModelConfig -> list WeightInfo)
    (t : Q) (out_slice : OutputSliceDefinition) :
  plans_tensors (plan_outer_weights env weights_of t out_slice).
Proof.
  unfold plan_outer_weights. apply pt_bind; [apply pt_get_self | intros p].
  apply pt_bind; [apply pt_lift | intros per_model].
  apply pt_for_each. intros weight_infos.
  apply pt_bind; [apply pt_lift | intros w0]. apply pt_plan_tensor.
Qed.

(** A method that plans tensors and returns leaves the store it started
    from, advanced by its calls of [plan_tensor]. *)
Lemma plans_tensors_return {A} (m : M A) (st st' : Store) (a : A) :
  plans_tensors m -> m st = Return a st' ->
  exists calls n, st' = after_calls calls n st.
Proof.
  intros Hm Hrun. destruct (Hm st) as (calls & n & H).
  rewrite Hrun in H. by exists calls, n.
Qed.


Lemma space_planner_record_eq (evs : list SpaceEvent) (st : Store) :
  space_planner_record evs st =
  Return tt
    {| class_tasks := class_tasks st;
       self := set_space_planner
                 ((fun sp => {| sp_base_model := sp_base_model sp;
                                sp_events := sp_events sp ++ evs |})
                    <$> _space_planner (self st))
                 (self st) |}.
Proof.
  destruct st as [cls p]. destruct p as [? ? ? ? ? ? ts k ? sp ? ?].
  unfold space_planner_record, bind, get_self, put_self, ret. cbn.
  by destruct sp.
Qed.

Lemma append_task_eq (t : Task) (st : Store) :
  append_task t st = Return tt (advance [t] [] 0 st).
Proof.
  destruct st as [cls p]. destruct p as [? ? ? ? ? ? ts k ? sp ? ?].
  unfold append_task, advance, set_inst_tasks. cbn.
  destruct ts as [l |], sp as [[bm evs] |]; cbn;
    rewrite ?app_nil_r, ?Z.add_0_r; reflexivity.
Qed.

Lemma call_task_plan_start (st : Store) (c : TensorCall) :
  call_task (self (plan_start st)) c = call_task (self st) c.
Proof.
  unfold call_task, call_inputs, select_method, plan_start. cbn.
  by destruct (_space_planner (self st)).
Qed.

Lemma normalize_config_return (st st1 : Store) :
  normalize_config st = Return tt st1 ->
  st1 = st \/ exists sl, st1 = normalized sl st.
Proof.
  intros Hrun. destruct (truthy (models (self_config (self st)))) eqn:Hm.
  - right. destruct (normalize_config_shorthand st st1 Hm Hrun)
      as (_ & _ & sl & _ & _ & ->). by exists sl.
  - left. rewrite (normalize_config_explicit st Hm) in Hrun. congruence.
Qed.

(** The shape of a planning pass that returns: the save tasks of the
    calls of [plan_tensor] it made, then the finalize task over exactly
    these, then the tokenizer task if there is one. *)
Lemma plan_return (st st' : Store) (res : list Task) :
  plan env st = Return res st' ->
  exists st1 calls n,
    normalize_config st = Return tt st1 /\
    res = map (call_task (self st1)) calls ++
          plan_tail (self st1) (map (call_task (self st1)) calls) /\
    st' = advance [FinalizeModel (map (call_task (self st1)) calls)
                                 (_writer_task (self st1))] [] 0
                  (after_calls calls n (plan_start st1)).
Proof.
  unfold plan. intros H.
  apply bind_return in H as ([] & st1 & Hnorm & H).
  apply bind_return in H as ([] & st2 & Hassign & H).
  apply bind_return in H as (p & st2' & Hget & H).
  apply bind_return in H as ([] & st3 & Hrec & H).
  apply bind_return in H as (first & st3' & Hfirst & H).
  apply bind_return in H as ([] & st4 & Hpre & H).
  apply bind_return in H as ([] & st5 & Hsl & H).
  apply bind_return in H as (last & st5' & Hlast & H).
  apply bind_return in H as ([] & st6 & Hpost & H).
  apply bind_return in H as (saves & st6' & Hsaves & H).
  apply bind_return in H as ([] & st7 & Happ & H).
  apply bind_return in H as (res0 & st7' & Hres & H).
  injection Hassign as <-. injection Hget as <- <-.
  rewrite space_planner_record_eq in Hrec. injection Hrec as <-.
  assert (st3' = plan_start st1) as ->.
  { destruct (first_slice _) in Hfirst; cbn in Hfirst; [discriminate |].
    by injection Hfirst as _ <-. }
  destruct (plans_tensors_return _ _ _ _ (pt_plan_outer_weights _ _ _) Hpre)
    as (c1 & n1 & ->).
  destruct (plans_tensors_return _ _ _ _ pt_plan_slices Hsl) as (c2 & n2 & ->).
  assert (st5' = after_calls c2 n2 (after_calls c1 n1 (plan_start st1))) as ->.
  { destruct (last_slice _) in Hlast; cbn in Hlast; [discriminate |].
    by injection Hlast as _ <-. }
  destruct (plans_tensors_return _ _ _ _ (pt_plan_outer_weights _ _ _) Hpost)
    as (c3 & n3 & ->).
  rewrite !after_calls_after_calls in *.
  injection Hsaves as <- <-. rewrite append_task_eq in Happ.
  injection Happ as <-. injection Hres as <- <-.
  clear Hpre Hsl Hlast Hpost Hfirst.
  rewrite <- ?app_assoc, <- ?Z.add_assoc in H.
  set (calls := c1 ++ c2 ++ c3) in *. set (n := n1 + (n2 + n3)) in *.
  assert (Htasks : _tasks (after_calls calls n (plan_start st1)) =
                   map (call_task (self st1)) calls).
  { unfold after_calls. rewrite tasks_advance.
    rewrite (map_ext _ _ (call_task_plan_start st1)). reflexivity. }
  rewrite tasks_advance, !Htasks in H.
  exists st1, calls, n. split; [exact Hnorm |].
  unfold plan_tail. cbn [_writer_task _tokenizer_task set_inst_tasks] in H.
  destruct (_tokenizer_task (self st1)) as [tok |]; cbn in H;
    injection H as <- <-; split; try reflexivity.
  by rewrite <- app_assoc.
Qed.

End TensorPlanning.

(** ** Resolution of parameters *)

Section Resolution.

Lemma parameter_no_override (r : ConfigReader) (name : string)
    (model : option ModelReference) (req : bool) (default : option Value) :
  no_override r name model ->
  parameter r name model req default =
  match default with
  | Some v => inr (Some v)
  | None => if req then inl (ConfigurationError name (r_tensor_name r) model)
            else inr None
  end.
Proof.
  intros (H1 & H2 & H3 & H4). unfold parameter. rewrite H1, H2, H3, H4.
  by destruct default.
Qed.

Lemma parameter_not_required (r : ConfigReader) (name : string)
    (model : option ModelReference) (default : option Value) :
  exists v, parameter r name model false default = inr v.
Proof. unfold parameter. destruct (first_present _); eauto. Qed.

Lemma resolve_parameters_ext (r : ConfigReader)
    (model : option ModelReference) (req req' : ConfigParameterDef -> bool)
    (defs : list ConfigParameterDef) :
  (forall p, In p defs -> req p = req' p) ->
  forall d, resolve_parameters r model req defs d =
            resolve_parameters r model req' defs d.
Proof.
  induction defs as [| p rest IH]; intros Hreq d; cbn [resolve_parameters];
    [done |].
  rewrite (Hreq p) by (by left).
  destruct (parameter r (p_name p) model (req' p) (default_value p));
    [done |].
  apply IH. intros q Hq. apply Hreq. by right.
Qed.

Lemma resolve_parameters_ok (r : ConfigReader)
    (model : option ModelReference) (req : ConfigParameterDef -> bool)
    (defs : list ConfigParameterDef) :
  (forall p, In p defs ->
     exists v, parameter r (p_name p) model (req p) (default_value p) = inr v) ->
  forall d, exists d', resolve_parameters r model req defs d = inr d'.
Proof.
  induction defs as [| p rest IH]; intros Hok d; cbn [resolve_parameters].
  - by exists d.
  - destruct (Hok p) as [v ->]; [by left |].
    apply IH. intros q Hq. apply Hok. by right.
Qed.

Lemma resolve_parameters_stops (r : ConfigReader)
    (model : option ModelReference) (req : ConfigParameterDef -> bool)
    (before after : list ConfigParameterDef) (p : ConfigParameterDef)
    (e : Exn) :
  (forall q, In q before ->
     exists v, parameter r (p_name q) model (req q) (default_value q) = inr v) ->
  parameter r (p_name p) model (req p) (default_value p) = inl e ->
  forall d, resolve_parameters r model req (before ++ p :: after) d = inl e.
Proof.
  intros Hok Hfail.
  induction before as [| q rest IH]; intros d; cbn [app resolve_parameters].
  - by rewrite Hfail.
  - destruct (Hok q) as [v ->]; [by left |].
    apply IH. intros q' Hq'. apply Hok. by right.
Qed.

(** The resolution of the tensor-scoped parameters for one pair, as
    [plan_tensor] performs it: for the base model it returns, for another
    model it is the resolution under the declared flags. *)
Lemma resolve_for_base (env : Env) (r : ConfigReader) (method : MergeMethod)
    (m : ModelReference) (w : WeightInfo) :
  base_model (r_config r) = Some m ->
  exists params,
    resolve_parameters (for_tensor r (w_name w)) (Some m)
      (fun p => required p &&
                negb (bool_decide (Some m = base_model (r_config r))))
      (method_tensor_parameters env method) [] = inr params.
Proof.
  intros Hbase. apply resolve_parameters_ok. intros q _.
  rewrite bool_decide_eq_true_2 by done. rewrite andb_false_r.
  apply parameter_not_required.
Qed.

Lemma resolve_for_other (env : Env) (r : ConfigReader) (method : MergeMethod)
    (m : ModelReference) (w : WeightInfo) :
  base_model (r_config r) <> Some m ->
  resolve_parameters (for_tensor r (w_name w)) (Some m)
    (fun p => required p &&
              negb (bool_decide (Some m = base_model (r_config r))))
    (method_tensor_parameters env method) [] =
  resolve_parameters (for_tensor r (w_name w)) (Some m) required
    (method_tensor_parameters env method) [].
Proof.
  intros Hbase. apply resolve_parameters_ext. intros q _.
  rewrite bool_decide_eq_false_2 by congruence. apply andb_true_r.
Qed.

Lemma resolve_tensor_params_ok (env : Env) (r : ConfigReader)
    (method : MergeMethod) (pairs : list (ModelReference * WeightInfo)) :
  (forall m w, In (m, w) pairs -> base_model (r_config r) <> Some m ->
     Forall (resolves_as_declared r m w) (method_tensor_parameters env method)) ->
  forall d, exists d', resolve_tensor_params env r method pairs d = inr d'.
Proof.
  induction pairs as [| [m w] rest IH]; intros Hok d;
    cbn [resolve_tensor_params]; [by exists d |].
  assert (Hone : exists params,
             resolve_parameters (for_tensor r (w_name w)) (Some m)
               (fun p => required p &&
                         negb (bool_decide (Some m = base_model (r_config r))))
               (method_tensor_parameters env method) [] = inr params).
  { destruct (decide (base_model (r_config r) = Some m)) as [Hb | Hb].
    - by apply resolve_for_base.
    - rewrite resolve_for_other by done. apply resolve_parameters_ok.
      intros q Hq. specialize (Hok m w ltac:(by left) Hb).
      rewrite Forall_forall in Hok. apply Hok. by apply list_elem_of_In. }
  destruct Hone as [params ->].
  apply IH. intros m' w' Hin. apply Hok. by right.
Qed.

Lemma resolve_tensor_params_stops (env : Env) (r : ConfigReader)
    (method : MergeMethod) (before after : list (ModelReference * WeightInfo))
    (m : ModelReference) (w : WeightInfo) (e : Exn) :
  (forall m' w', In (m', w') before -> base_model (r_config r) <> Some m' ->
     Forall (resolves_as_declared r m' w')
            (method_tensor_parameters env method)) ->
  base_model (r_config r) <> Some m ->
  resolve_parameters (for_tensor r (w_name w)) (Some m) required
    (method_tensor_parameters env method) [] = inl e ->
  forall d,
    resolve_tensor_params env r method (before ++ (m, w) :: after) d = inl e.
Proof.
  intros Hok Hbase Hfail.
  induction before as [| [m' w'] rest IH]; intros d;
    cbn [app resolve_tensor_params].
  - by rewrite resolve_for_other, Hfail.
  - destruct (resolve_tensor_params_ok env r method [(m', w')]) with (d := d)
      as [d' Hd'].
    { intros m0 w0 [[= <- <-] | []]. apply Hok. by left. }
    cbn [resolve_tensor_params] in Hd'.
    destruct (resolve_parameters (for_tensor r (w_name w')) (Some m') _ _ [])
      as [e' | params]; [discriminate |].
    apply IH. intros m0 w0 Hin. apply Hok. by right.
Qed.

(** C2. Take a call of [plan_tensor] whose global parameters resolve.
    The base model never makes the call fail: if, for every pair whose
    model is not the base model, every tensor-scoped parameter resolves
    under the flags the method declares, the call returns and appends
    its save task, whatever the method requires of the base model and
    whatever the configuration gives it. A model that is not the base
    model does: at the first pair and the first tensor-scoped parameter
    that is flagged required, has no default and has no override at any
    scope for that model, the call raises the configuration error
    carrying the parameter, the name of the input tensor and the model,
    and leaves the store untouched. *)
Theorem required_flag_base_exemption (env : Env) (st : Store)
    (weight : WeightInfo) (weights_in : list WeightInfo)
    (ms : list ModelReference) (r : ConfigReader)
    (gp : list (string * option Value)) :
  resolve_parameters (for_tensor r (w_name weight)) None required
    (method_parameters env (select_method (self st) weight)) [] = inr gp ->
  ((forall m w, In (m, w) (zip ms weights_in) ->
      base_model (r_config r) <> Some m ->
      Forall (resolves_as_declared r m w)
        (method_tensor_parameters env (select_method (self st) weight))) ->
   exists tp,
     plan_tensor env weight weights_in ms r st =
     Return tt
       (after_calls [ {| tc_weight := weight; tc_pairs := zip ms weights_in;
                         tc_global := gp; tc_tensor := tp |} ] 0 st)) /\
  (forall before m w after earlier p later,
     zip ms weights_in = before ++ (m, w) :: after ->
     method_tensor_parameters env (select_method (self st) weight) =
       earlier ++ p :: later ->
     (forall m' w', In (m', w') before ->
        base_model (r_config r) <> Some m' ->
        Forall (resolves_as_declared r m' w')
          (method_tensor_parameters env (select_method (self st) weight))) ->
     Forall (resolves_as_declared r m w) earlier ->
     base_model (r_config r) <> Some m ->
     required p = true ->
     default_value p = None ->
     no_override (for_tensor r (w_name w)) (p_name p) (Some m) ->
     plan_tensor env weight weights_in ms r st =
     Raise (ConfigurationError (p_name p) (Some (w_name w)) (Some m)) st).
Proof.
  intros Hg. split.
  - intros Hok. rewrite plan_tensor_outcome, Hg.
    destruct (resolve_tensor_params_ok env r _ _ Hok []) as [tp ->].
    by exists tp.
  - intros before m w after earlier p later Hpairs Hdefs Hbefore Hearlier
      Hbase Hreq Hdef Hno.
    assert (Hfail :
      resolve_parameters (for_tensor r (w_name w)) (Some m) required
        (method_tensor_parameters env (select_method (self st) weight)) [] =
      inl (ConfigurationError (p_name p) (Some (w_name w)) (Some m))).
    { rewrite Hdefs. apply resolve_parameters_stops.
      - intros q Hq. rewrite Forall_forall in Hearlier. apply Hearlier.
        by apply list_elem_of_In.
      - by rewrite (parameter_no_override _ _ _ _ _ Hno), Hdef, Hreq. }
    rewrite plan_tensor_outcome, Hg, Hpairs.
    by rewrite (resolve_tensor_params_stops env r _ before after m w _
                  Hbefore Hbase Hfail).
Qed.

Lemma required_flag_base_exemption_witness :
  (exists tp,
     plan_tensor Sample.env Sample.embed_tokens
       [Sample.embed_tokens; Sample.embed_tokens]
       [Sample.model_b; Sample.model_a]
       (Sample.pre_reader (Sample.based Sample.based_slice)
          Sample.embed_tokens Sample.based_slice)
       (Sample.fresh (Sample.based Sample.based_slice)) =
     Return tt
       (after_calls
          [ {| tc_weight := Sample.embed_tokens;
               tc_pairs := [(Sample.model_b, Sample.embed_tokens);
                            (Sample.model_a, Sample.embed_tokens)];
               tc_global := []; tc_tensor := tp |} ] 0
          (Sample.fresh (Sample.based Sample.based_slice)))) /\
  plan_tensor Sample.env Sample.embed_tokens
    [Sample.embed_tokens; Sample.embed_tokens]
    [Sample.model_b; Sample.model_a]
    (Sample.pre_reader (Sample.based Sample.unweighted_slice)
       Sample.embed_tokens Sample.unweighted_slice)
    (Sample.fresh (Sample.based Sample.unweighted_slice)) =
  Raise (ConfigurationError "weight" (Some "model.embed_tokens.weight")
                            (Some Sample.model_a))
        (Sample.fresh (Sample.based Sample.unweighted_slice)).
Proof.
  split.
  - refine (proj1 (required_flag_base_exemption Sample.env
        (Sample.fresh (Sample.based Sample.based_slice))
        Sample.embed_tokens [Sample.embed_tokens; Sample.embed_tokens]
        [Sample.model_b; Sample.model_a]
        (Sample.pre_reader (Sample.based Sample.based_slice)
           Sample.embed_tokens Sample.based_slice)
        [] eq_refl) _).
    intros m w [[= <- <-] | [[= <- <-] | []]] Hbase.
    + exfalso. by apply Hbase.
    + apply Forall_cons. split; [| apply Forall_nil_2].
      by exists (Some (VInt 1)).
  - refine (proj2 (required_flag_base_exemption Sample.env
        (Sample.fresh (Sample.based Sample.unweighted_slice))
        Sample.embed_tokens [Sample.embed_tokens; Sample.embed_tokens]
        [Sample.model_b; Sample.model_a]
        (Sample.pre_reader (Sample.based Sample.unweighted_slice)
           Sample.embed_tokens Sample.unweighted_slice)
        [] eq_refl)
        [(Sample.model_b, Sample.embed_tokens)] Sample.model_a
        Sample.embed_tokens [] [] Sample.weight_param []
        eq_refl eq_refl _ (Forall_nil_2 _) _ eq_refl eq_refl _).
    + intros m w [[= <- <-] | []] Hbase. exfalso. by apply Hbase.
    + discriminate.
    + repeat split.
Defined.

End Resolution.

(** ** The assembled plan *)

Section PlanClaims.

Lemma call_task_is_save (p : MergePlanner) (calls : list TensorCall) :
  forallb is_save (map (call_task p) calls) = true.
Proof. induction calls as [| c rest IH]; [done | exact IH]. Qed.

(** C8. A planning pass that returns gives the save tasks it built, then
    the finalize task, whose [tensor_save_tasks] are exactly these save
    tasks, then the tokenizer task when there is one and nothing else;
    every save task of the result is among the finalize task's
    dependencies. *)
Theorem finalize_depends_on_all_saves (env : Env) (st st' : Store) (res : list Task) :
  plan env st = Return res st' ->
  exists saves,
    forallb is_save saves = true /\
    res = saves ++ FinalizeModel saves (_writer_task (self st))
                :: match _tokenizer_task (self st) with
                   | Some tok => [TokenizerTask tok]
                   | None => []
                   end /\
    _tasks st' = saves ++ [FinalizeModel saves (_writer_task (self st))] /\
    (forall t, In t res -> is_save t = true -> In t saves).
Proof.
  intros Hrun.
  destruct (plan_return env st st' res Hrun)
    as (st1 & calls & n & Hnorm & Hres & Hst).
  assert (Hw : _writer_task (self st1) = _writer_task (self st) /\
               _tokenizer_task (self st1) = _tokenizer_task (self st)).
  { by destruct (normalize_config_return st st1 Hnorm) as [-> | [sl ->]]. }
  destruct Hw as [Hw Htok]. unfold plan_tail in Hres. rewrite Hw, Htok in Hres.
  exists (map (call_task (self st1)) calls).
  split; [apply call_task_is_save |]. split; [exact Hres |]. split.
  - rewrite Hst, tasks_advance. unfold after_calls. rewrite tasks_advance.
    rewrite (map_ext _ _ (call_task_plan_start st1)), Hw. reflexivity.
  - intros t Hin Hsave. rewrite Hres in Hin.
    apply in_app_or in Hin as [Hin | [<- | Hin]]; [exact Hin | discriminate |].
    destruct (_tokenizer_task (self st)); [| done].
    destruct Hin as [<- | []]. discriminate.
Qed.

Lemma finalize_depends_on_all_saves_witness :
  exists saves,
    length saves = 4%nat /\
    returned (plan Sample.env (Sample.fresh Sample.with_tokenizer)) =
    Some (saves ++
          [FinalizeModel saves (_writer_task (Sample.planner Sample.with_tokenizer));
           TokenizerTask (tokenizer_of Sample.env Sample.with_tokenizer
                                       Sample.options)]).
Proof.
  destruct (plan Sample.env (Sample.fresh Sample.with_tokenizer))
    as [res st' | e st'] eqn:Hrun; [| vm_compute in Hrun; discriminate].
  destruct (finalize_depends_on_all_saves _ _ _ _ Hrun)
    as (saves & _ & Hres & _ & _).
  exists saves. split; [| by rewrite Hres].
  assert (Hlen : length res = 6%nat).
  { vm_compute in Hrun. by injection Hrun as <- _. }
  rewrite Hres, length_app in Hlen. cbn in Hlen. lia.
Defined.

Lemma init_fields (env : Env) (cfg : MergeConfiguration) (out_path : string)
    (options : MergeOptions) (out_cfg : ModelConfig) (p : MergePlanner) :
  init env cfg out_path options out_cfg = inr p ->
  self_config p = cfg /\
  _method p = RegisteredMethod (merge_method cfg) /\
  _tokenizer_task p =
    (if truthy (tokenizer_source cfg)
     then Some (tokenizer_of env cfg options) else None) /\
  _space_planner p =
    match base_model cfg with
    | Some b => if align_weights cfg
                then Some {| sp_base_model := b; sp_events := [] |}
                else None
    | None => None
    end /\
  inst_tasks p = None /\
  out_model_config p = out_cfg /\
  arch_info p =
    get_architecture_info env
      (model_config env (default {| mr_path := ""; mr_revision := None |}
                                 (head (referenced_models env cfg)))).
Proof.
  unfold init, tokenizer_of.
  destruct (referenced_models env cfg) as [| m0 rest]; [discriminate |].
  intros [= <-]. cbn. repeat split.
Qed.

(** C3. When [plan_tensor] plans a weight, the method of the merge task
    it builds is the vocabulary-permutation method exactly when the
    weight is an embedding or output-projection weight and the
    configuration asks for a tokenizer merge; in every other case it is
    the configured method. *)
Theorem tokenizer_method_selection (env : Env) (cfg : MergeConfiguration) (out_path : string)
    (options : MergeOptions) (out_cfg : ModelConfig) (p0 : MergePlanner)
    (st st' : Store) (weight : WeightInfo) (weights_in : list WeightInfo)
    (ms : list ModelReference) (r : ConfigReader) :
  init env cfg out_path options out_cfg = inr p0 ->
  _method (self st) = _method p0 ->
  _tokenizer_task (self st) = _tokenizer_task p0 ->
  plan_tensor env weight weights_in ms r st = Return tt st' ->
  (exists tensors gp tp,
     _tasks st' =
     _tasks st ++
     [SaveTensor (w_name weight)
        (MergeTask (expected_method env cfg options weight) weight tensors gp tp
                   (base_model (self_config (self st))))
        (_writer_task (self st)) (self_clone_tensors (self st))]) /\
  ((exists tok, expected_method env cfg options weight =
                TokenizerPermutationMerge tok) <->
   (is_embed weight || is_lm_head weight = true /\
    truthy (tokenizer_source cfg) = true)) /\
  ((is_embed weight || is_lm_head weight) && truthy (tokenizer_source cfg) = false ->
   expected_method env cfg options weight = RegisteredMethod (merge_method cfg)).
Proof.
  intros Hinit Hmethod Htok Hrun.
  destruct (init_fields _ _ _ _ _ _ Hinit) as (_ & Hm & Ht & _).
  assert (Hsel : select_method (self st) weight =
                 expected_method env cfg options weight).
  { unfold select_method, expected_method. rewrite Htok, Hmethod, Ht, Hm.
    destruct (truthy (tokenizer_source cfg)); cbn;
      [| by rewrite andb_false_r].
    rewrite andb_true_r. by destruct (is_embed weight || is_lm_head weight). }
  split; [| split].
  - rewrite plan_tensor_outcome in Hrun.
    destruct (resolve_parameters _ _ _ _ _) as [e | gp]; [discriminate |].
    destruct (resolve_tensor_params _ _ _ _ _) as [e | tp]; [discriminate |].
    injection Hrun as <-. unfold after_calls. rewrite tasks_advance.
    unfold call_task. cbn [map tc_weight tc_global tc_tensor].
    rewrite Hsel. by eexists _, _, _.
  - unfold expected_method.
    destruct (is_embed weight || is_lm_head weight),
             (truthy (tokenizer_source cfg)); cbn;
      (split; [intros [tok H]; first [done | discriminate]
              | intros [H1 H2]; first [discriminate | eauto]]).
  - unfold expected_method. by intros ->.
Qed.

Lemma tokenizer_method_selection_witness :
  expected_method Sample.env Sample.with_tokenizer Sample.options
                  Sample.embed_tokens =
    TokenizerPermutationMerge
      (tokenizer_of Sample.env Sample.with_tokenizer Sample.options) /\
  exists tensors gp tp,
    _tasks (final_store
              (plan_tensor Sample.env Sample.embed_tokens
                 [Sample.embed_tokens; Sample.embed_tokens]
                 [Sample.model_a; Sample.model_b]
                 (Sample.pre_reader Sample.with_tokenizer Sample.embed_tokens
                                    Sample.even_slice)
                 (Sample.fresh Sample.with_tokenizer))) =
    [] ++
    [SaveTensor (w_name Sample.embed_tokens)
       (MergeTask (expected_method Sample.env Sample.with_tokenizer
                                   Sample.options Sample.embed_tokens)
                  Sample.embed_tokens tensors gp tp None)
       (_writer_task (Sample.planner Sample.with_tokenizer)) false].
Proof.
  split; [reflexivity |].
  refine (proj1 (tokenizer_method_selection Sample.env Sample.with_tokenizer
                   "out" Sample.options Sample.llama_config
                   (Sample.planner Sample.with_tokenizer)
                   (Sample.fresh Sample.with_tokenizer) _
                   Sample.embed_tokens
                   [Sample.embed_tokens; Sample.embed_tokens]
                   [Sample.model_a; Sample.model_b]
                   (Sample.pre_reader Sample.with_tokenizer Sample.embed_tokens
                                      Sample.even_slice)
                   _ eq_refl eq_refl _)).
  - reflexivity.
  - vm_compute. reflexivity.
Defined.

Lemma in_dict_set {K V} `{EqDecision K} (d : list (K * V)) (k : K) (v : V)
    (e : K * V) :
  In e (dict_set d k v) -> e = (k, v) \/ In e d.
Proof.
  induction d as [| [k' v'] d IH]; cbn [dict_set].
  - intros [<- | []]. by left.
  - destruct (decide (k' = k)) as [-> | Hne].
    + intros [<- | Hin]; [by left | right; by right].
    + intros [<- | Hin]; [right; by left |].
      destruct (IH Hin) as [-> | Hd]; [by left | right; by right].
Qed.

Lemma load_tasks_entries (dt : option string)
    (pairs : list (ModelReference * WeightInfo)) (entry : ModelReference * Task) :
  In entry (load_tasks dt pairs) ->
  exists w_in, In (entry.1, w_in) pairs /\
               entry.2 = LoadTensor entry.1 (w_name w_in) dt (aliases w_in).
Proof.
  unfold load_tasks.
  assert (Hgen : forall done d,
    (forall e, In e d -> exists w_in, In (e.1, w_in) (done ++ pairs) /\
                 e.2 = LoadTensor e.1 (w_name w_in) dt (aliases w_in)) ->
    forall e,
      In e (fold_left
              (fun d '(model, weight_in) =>
                 dict_set d model
                   (LoadTensor model (w_name weight_in) dt (aliases weight_in)))
              pairs d) ->
      exists w_in, In (e.1, w_in) (done ++ pairs) /\
                   e.2 = LoadTensor e.1 (w_name w_in) dt (aliases w_in)).
  { induction pairs as [| [m w] rest IH]; intros done d Hd e; cbn [fold_left].
    - apply Hd.
    - replace (done ++ (m, w) :: rest) with ((done ++ [(m, w)]) ++ rest)
        by (by rewrite <- app_assoc).
      apply IH. intros e' He'.
      rewrite <- app_assoc. cbn [app].
      destruct (in_dict_set _ _ _ _ He') as [-> | Hin]; [| by apply Hd].
      exists w. split; [| reflexivity]. apply in_or_app. right. by left. }
  intros Hin. apply (Hgen [] [] ltac:(intros ? []) entry Hin).
Qed.

Lemma call_events_not_space (p : MergePlanner) (calls : list TensorCall) :
  Forall (fun e => is_space_event e = false)
         (concat (map (call_events p) calls)).
Proof.
  induction calls as [| c rest IH]; cbn [map concat]; [constructor |].
  apply Forall_app. split; [| exact IH].
  unfold call_events. constructor; [reflexivity |].
  apply Forall_forall. intros e He.
  apply list_elem_of_In, in_map_iff in He as (entry & <- & _). reflexivity.
Qed.

(** C9 (amended). When the alignment toggle is on and a base model is
    declared, a planning pass that returns has made the accumulator
    receive first the registration of every procedural space of the
    output architecture and only then calls for weights; every save task
    it built has its output weight registered with its pairs of model
    and input weight, and every load task under it is wrapped by the
    alignment call for its model. *)
Theorem alignment_with_base_model (env : Env) (cfg : MergeConfiguration)
    (out_path : string) (options : MergeOptions) (out_cfg : ModelConfig)
    (p : MergePlanner) (b : ModelReference) (cls : list Task)
    (res : list Task) (st' : Store) :
  init env cfg out_path options out_cfg = inr p ->
  base_model cfg = Some b ->
  align_weights cfg = true ->
  plan env {| class_tasks := cls; self := p |} = Return res st' ->
  exists evs saves,
    _space_planner (self st') =
      Some {| sp_base_model := b;
              sp_events :=
                map EvAddProceduralSpace
                    (procedural_spaces (arch_info p) out_cfg) ++ evs |} /\
    Forall (fun e => is_space_event e = false) evs /\
    res = saves ++ plan_tail p saves /\
    Forall (aligned_save (dtype cfg) evs) saves.
Proof.
  intros Hinit Hb Halign Hrun.
  destruct (init_fields _ _ _ _ _ _ Hinit)
    as (Hcfg & _ & _ & Hsp & _ & Hout & _).
  rewrite Hb, Halign in Hsp.
  destruct (plan_return env _ st' res Hrun)
    as (st1 & calls & n & Hnorm & Hres & Hst).
  cbn [self] in *.
  assert (Hkeep : _space_planner (self st1) = _space_planner p /\
                  dtype (self_config (self st1)) = dtype cfg /\
                  arch_info (self st1) = arch_info p /\
                  out_model_config (self st1) = out_cfg /\
                  plan_tail (self st1) = plan_tail p).
  { destruct (normalize_config_return _ st1 Hnorm) as [-> | [sl ->]]; cbn;
      rewrite ?Hcfg, ?Hout; done. }
  destruct Hkeep as (Hsp1 & Hdt & Harch & Hout1 & Htail).
  rewrite Hsp in Hsp1.
  exists (concat (map (call_events (self st1)) calls)),
         (map (call_task (self st1)) calls).
  split; [| split; [apply call_events_not_space | split]].
  - rewrite Hst. unfold after_calls, advance, plan_start. cbn.
    rewrite Hsp1, Harch, Hout1. cbn. by rewrite app_nil_r.
  - by rewrite Hres, Htail.
  - apply Forall_forall. intros t Ht.
    apply list_elem_of_In, in_map_iff in Ht as (c & <- & Hc).
    assert (Hsub : forall e, In e (call_events (self st1) c) ->
                     In e (concat (map (call_events (self st1)) calls))).
    { intros e He. apply in_concat. exists (call_events (self st1) c).
      split; [by apply in_map | exact He]. }
    exists (tc_weight c), (tc_pairs c), (select_method (self st1) (tc_weight c)),
           (tc_global c), (tc_tensor c), (base_model (self_config (self st1))),
           (_writer_task (self st1)), (self_clone_tensors (self st1)).
    split; [| split].
    + unfold call_task, call_inputs. by rewrite Hsp1, Hdt.
    + apply Hsub. by left.
    + intros entry Hentry. split.
      * apply Hsub. right. rewrite Hdt. by apply in_map.
      * by apply load_tasks_entries.
Qed.

Lemma alignment_with_base_model_witness :
  exists evs,
    _space_planner
      (self (final_store
               (plan Sample.env (Sample.fresh Sample.aligned_with_base)))) =
    Some {| sp_base_model := Sample.model_b;
            sp_events := EvAddProceduralSpace "residual" :: evs |} /\
    Forall (fun e => is_space_event e = false) evs.
Proof.
  destruct (plan Sample.env (Sample.fresh Sample.aligned_with_base))
    as [res st' | e st'] eqn:Hrun; [| vm_compute in Hrun; discriminate].
  destruct (alignment_with_base_model Sample.env Sample.aligned_with_base
              "out" Sample.options Sample.llama_config
              (Sample.planner Sample.aligned_with_base) Sample.model_b
              [] res st' eq_refl eq_refl eq_refl Hrun)
    as (evs & saves & Hsp & Hev & _ & _).
  exists evs. split; [exact Hsp | exact Hev].
Defined.

(** C9 as stated fails: with the alignment toggle on but no base model,
    the planner has no accumulator. No procedural space is registered
    (the output architecture declares one), and the load tasks under
    the first save task are not wrapped. *)
Lemma alignment_skipped_without_base_model :
  align_weights Sample.aligned_without_base = true /\
  procedural_spaces (arch_info (Sample.planner Sample.aligned_without_base))
                    Sample.llama_config = ["residual"] /\
  _space_planner (Sample.planner Sample.aligned_without_base) = None /\
  _space_planner
    (self (final_store
             (plan Sample.env (Sample.fresh Sample.aligned_without_base)))) =
    None /\
  returned (plan Sample.env (Sample.fresh Sample.aligned_without_base))
    ≫= head =
  Some (SaveTensor "model.embed_tokens.weight"
          (MergeTask (RegisteredMethod "linear") Sample.embed_tokens
             (CollectDictTask
                [(Sample.model_a,
                  LoadTensor Sample.model_a "model.embed_tokens.weight" None []);
                 (Sample.model_b,
                  LoadTensor Sample.model_b "model.embed_tokens.weight" None [])])
             []
             [(Sample.model_a, [("weight", Some (VInt 1))]);
              (Sample.model_b, [("weight", Some (VInt 1))])]
             None)
          (_writer_task (Sample.planner Sample.aligned_without_base)) false).
Proof. repeat split; vm_compute; reflexivity. Qed.

(** After construction, a call of [plan_tensor] that returns extends the
    list of the class, which every other freshly constructed planner
    reads as its own [_tasks]. *)
Lemma plan_tensor_on_fresh_planner (env : Env) (cfg_a cfg_b : MergeConfiguration)
    (path_a path_b : string) (opt_a opt_b : MergeOptions)
    (out_a out_b : ModelConfig) (pa pb : MergePlanner) (cls : list Task)
    (weight : WeightInfo) (weights_in : list WeightInfo)
    (ms : list ModelReference) (r : ConfigReader) (st' : Store) :
  init env cfg_a path_a opt_a out_a = inr pa ->
  init env cfg_b path_b opt_b out_b = inr pb ->
  plan_tensor env weight weights_in ms r {| class_tasks := cls; self := pa |} =
    Return tt st' ->
  exists t, is_save t = true /\
            _tasks {| class_tasks := class_tasks st'; self := pb |} = cls ++ [t].
Proof.
  intros Ha Hb Hrun.
  destruct (init_fields _ _ _ _ _ _ Ha) as (_ & _ & _ & _ & Hta & _).
  destruct (init_fields _ _ _ _ _ _ Hb) as (_ & _ & _ & _ & Htb & _).
  rewrite plan_tensor_outcome in Hrun.
  destruct (resolve_parameters _ _ _ _ _) as [e | gp]; [discriminate |].
  destruct (resolve_tensor_params _ _ _ _ _) as [e | tp]; [discriminate |].
  injection Hrun as <-. eexists. split; [| unfold _tasks, after_calls, advance;
    cbn; rewrite Hta, Htb; reflexivity].
  reflexivity.
Qed.

(** C10. The claim does not hold of the code: [__init__] gives the
    instance no task list of its own, so two planners built from
    different configurations share the list of the class. Planning one
    tensor on the first planner, before any [plan], makes the save task
    show up in the second planner's [_tasks]. Only [plan] gives an
    instance its own list: a whole pass on a fresh planner leaves the
    list of the class empty. *)
Theorem task_list_shared_after_construction :
  inst_tasks (Sample.planner Sample.shorthand) = None /\
  inst_tasks (Sample.planner Sample.with_tokenizer) = None /\
  _tasks {| class_tasks := []; self := Sample.planner Sample.with_tokenizer |} = [] /\
  _tasks
    {| class_tasks :=
         class_tasks
           (final_store
              (plan_tensor Sample.env Sample.mlp [Sample.mlp; Sample.mlp]
                 [Sample.model_a; Sample.model_b]
                 (with_t (slice_reader (Sample.fresh Sample.shorthand)
                                       Sample.even_slice) 1%Q)
                 {| class_tasks := []; self := Sample.planner Sample.shorthand |}));
       self := Sample.planner Sample.with_tokenizer |} =
  [SaveTensor "model.layers.mlp.weight"
     (MergeTask (RegisteredMethod "linear") Sample.mlp
        (CollectDictTask
           [(Sample.model_a,
             LoadTensor Sample.model_a "model.layers.mlp.weight" None []);
            (Sample.model_b,
             LoadTensor Sample.model_b "model.layers.mlp.weight" None [])])
        []
        [(Sample.model_a, [("weight", Some (VInt 1))]);
         (Sample.model_b, [("weight", Some (VInt 1))])]
        None)
     (_writer_task (Sample.planner Sample.shorthand)) false] /\
  class_tasks (final_store (plan Sample.env (Sample.fresh Sample.shorthand))) = [].
Proof. repeat split; vm_compute; reflexivity. Qed.

End PlanClaims.

(** ** Further properties: tensors and layers *)

Section LayerPasses.

Variable env : Env.

Lemma tasks_after_calls (calls : list TensorCall) (n : Z) (st : Store) :
  _tasks (after_calls calls n st) =
  _tasks st ++ map (call_task (self st)) calls.
Proof. unfold after_calls. apply tasks_advance. Qed.

Lemma planned_for_calls (p : MergePlanner) (calls : list TensorCall) :
  Forall2 planned_for (map tc_weight calls) (map (call_task p) calls).
Proof.
  induction calls as [| c rest IH]; cbn [map]; constructor; [| exact IH].
  by split.
Qed.

Lemma plan_tensor_return (weight : WeightInfo) (weights_in : list WeightInfo)
    (ms : list ModelReference) (r : ConfigReader) (st st' : Store) :
  plan_tensor env weight weights_in ms r st = Return tt st' ->
  exists gp tp,
    st' = after_calls [ {| tc_weight := weight; tc_pairs := zip ms weights_in;
                           tc_global := gp; tc_tensor := tp |} ] 0 st.
Proof.
  rewrite plan_tensor_outcome.
  destruct (resolve_parameters _ _ _ _ _) as [e | gp]; [discriminate |].
  destruct (resolve_tensor_params _ _ _ _ _) as [e | tp]; [discriminate |].
  intros [= <-]. by exists gp, tp.
Qed.

Lemma plan_tensor_raise (weight : WeightInfo) (weights_in : list WeightInfo)
    (ms : list ModelReference) (r : ConfigReader) (st st' : Store) (e : Exn) :
  plan_tensor env weight weights_in ms r st = Raise e st' -> st' = st.
Proof.
  rewrite plan_tensor_outcome.
  destruct (resolve_parameters _ _ _ _ _) as [e1 | gp]; [by intros [= _ <-] |].
  destruct (resolve_tensor_params _ _ _ _ _) as [e1 | tp]; [by intros [= _ <-] |].
  discriminate.
Qed.

Lemma lift_return {A} (r : Exn + A) (st st' : Store) (a : A) :
  lift r st = Return a st' -> r = inr a /\ st' = st.
Proof. destruct r; cbn; [discriminate |]. by intros [= <- <-]. Qed.

Lemma plan_layer_weights_return (weights_out : list WeightInfo) :
  forall (idx : nat) (weights_in : list (list WeightInfo))
         (srcs : list InputSliceDefinition) (t : Q) (r : ConfigReader)
         (st st' : Store),
    plan_layer_weights env weights_out idx weights_in srcs t r st =
      Return tt st' ->
    exists calls,
      st' = after_calls calls 0 st /\
      map tc_weight calls = weights_out /\
      forall (k : nat) c, calls !! k = Some c ->
        exists col, column weights_in (idx + k) = inr col /\
                    tc_pairs c = zip (map is_model srcs) col.
Proof.
  induction weights_out as [| w_o rest IH];
    intros idx weights_in srcs t r st st' Hrun; cbn [plan_layer_weights] in Hrun.
  - injection Hrun as <-. exists []. rewrite after_calls_nil.
    repeat split. intros k c Hk. by rewrite lookup_nil in Hk.
  - apply bind_return in Hrun as (col & st0 & Hcol & Hrun).
    apply lift_return in Hcol as [Hcol ->].
    apply bind_return in Hrun as ([] & st1 & Hpt & Hrun).
    apply plan_tensor_return in Hpt as (gp & tp & ->).
    apply IH in Hrun as (calls & -> & Hw & Hpairs).
    eexists (_ :: calls). rewrite after_calls_after_calls. split; [done |].
    split; [cbn; by rewrite Hw |].
    intros [| k] c Hk; cbn in Hk.
    + injection Hk as <-. exists col. by rewrite Nat.add_0_r.
    + destruct (Hpairs k c Hk) as (col' & Hc' & Hp').
      exists col'. split; [| done]. by rewrite Nat.add_succ_r.
Qed.

Lemma map_exn_inr {A B} (f : A -> Exn + B) (l : list A) (ys : list B) :
  map_exn f l = inr ys -> Forall2 (fun x y => f x = inr y) l ys.
Proof.
  revert ys. induction l as [| x l IH]; intros ys; cbn [map_exn].
  - intros [= <-]. constructor.
  - destruct (f x) as [e | y] eqn:Hx; [discriminate |].
    destruct (map_exn f l) as [e | ys']; [discriminate |].
    intros [= <-]. constructor; [done | by apply IH].
Qed.

Lemma map_exn_inl {A B} (f : A -> Exn + B) (l : list A) (e : Exn) :
  map_exn f l = inl e -> exists x, In x l /\ f x = inl e.
Proof.
  induction l as [| x l IH]; cbn [map_exn]; [discriminate |].
  destruct (f x) as [e1 | y] eqn:Hx.
  - intros [= <-]. exists x. split; [by left | done].
  - destruct (map_exn f l) as [e1 | ys]; [| discriminate].
    intros [= <-]. destruct (IH eq_refl) as (x' & Hin & Hx').
    exists x'. split; [by right | done].
Qed.

Lemma count_layer_eq (st : Store) :
  (let* p' := get_self in
   put_self (set_current_layers (_current_layers p' + 1) p')) st =
  Return tt (after_calls [] 1 st).
Proof.
  destruct st as [cls p]. destruct p as [? ? ? ? ? ? ts k ? sp ? ?].
  unfold bind, get_self, put_self, after_calls, advance, set_current_layers.
  cbn. destruct ts as [l |], sp as [[bm evs] |]; cbn;
    rewrite ?app_nil_r; reflexivity.
Qed.

(** X1. All-or-nothing: [plan_tensor] either raises and leaves every object
    as it was, or returns after appending one save task, the one for
    [weight] under the name of [weight], without touching the layer
    counter or the configuration. *)
Theorem plan_tensor_all_or_nothing (weight : WeightInfo)
    (weights_in : list WeightInfo) (ms : list ModelReference)
    (r : ConfigReader) (st : Store) :
  (exists e, plan_tensor env weight weights_in ms r st = Raise e st) \/
  (exists st' t,
     plan_tensor env weight weights_in ms r st = Return tt st' /\
     _tasks st' = _tasks st ++ [t] /\
     planned_for weight t /\
     _current_layers (self st') = _current_layers (self st) /\
     self_config (self st') = self_config (self st)).
Proof.
  destruct (plan_tensor env weight weights_in ms r st) as [[] st' | e st']
    eqn:Hrun.
  - right. destruct (plan_tensor_return _ _ _ _ _ _ Hrun) as (gp & tp & ->).
    eexists _, _. split; [reflexivity |]. rewrite tasks_after_calls.
    split; [reflexivity |]. split; [by split |]. split; [| reflexivity].
    cbn. lia.
  - left. exists e. by rewrite (plan_tensor_raise _ _ _ _ _ _ _ Hrun).
Qed.

Lemma plan_layer_calls (srcs : list InputSliceDefinition) (layer_offset : Z)
    (t : Q) (r : ConfigReader) (st st' : Store) :
  plan_layer env srcs layer_offset t r st = Return tt st' ->
  exists calls,
    st' = after_calls calls 1 st /\
    map tc_weight calls = output_layer (self st) (_current_layers (self st)) /\
    forall (k : nat) c, calls !! k = Some c ->
      Forall2 (source_input (self st) layer_offset k) srcs (tc_pairs c).
Proof.
  unfold plan_layer. intros Hrun.
  apply bind_return in Hrun as (p & st0 & Hget & Hrun).
  injection Hget as <- <-.
  apply bind_return in Hrun as (weights_in & st0 & Hin & Hrun).
  apply lift_return in Hin as [Hin ->].
  apply bind_return in Hrun as ([] & st1 & Hws & Hrun).
  apply plan_layer_weights_return in Hws as (calls & -> & Hw & Hpairs).
  rewrite count_layer_eq in Hrun. injection Hrun as <-.
  rewrite after_calls_after_calls, app_nil_r. change (0 + 1) with 1.
  exists calls. split; [done |]. split; [exact Hw |].
  intros k c Hk. destruct (Hpairs k c Hk) as (col & Hcol & ->).
  cbn in Hcol. clear Hpairs Hk Hw.
  apply map_exn_inr in Hin. unfold column in Hcol. apply map_exn_inr in Hcol.
  revert col Hcol. induction Hin as [| s ws srcs' wss Hs _ IH]; intros col Hcol.
  - inversion Hcol. constructor.
  - inversion Hcol as [| ? w ? col' Hw' Hrest]; subst. cbn [map zip zip_with].
    constructor; [| by apply IH].
    split; [reflexivity |]. cbn [snd fst].
    unfold arch_lookup in Hs.
    destruct (arch_dict (self st) !! is_model s) as [a |]; [| discriminate].
    injection Hs as <-. exists a. split; [reflexivity |].
    unfold index in Hw'. by destruct (_ !! k); [injection Hw' as -> |].
Qed.

(** X4. A layer pass whose sources name a model without architecture entry
    raises [KeyError] for such a model before it builds any task. *)
Theorem plan_layer_unknown_model (srcs : list InputSliceDefinition)
    (layer_offset : Z) (t : Q) (r : ConfigReader) (st : Store)
    (s : InputSliceDefinition) :
  In s srcs ->
  arch_dict (self st) !! is_model s = None ->
  exists m, In m (map is_model srcs) /\
            arch_dict (self st) !! m = None /\
            plan_layer env srcs layer_offset t r st = Raise (KeyError m) st.
Proof.
  intros Hin Hnone. unfold plan_layer, bind, get_self.
  destruct (map_exn _ srcs) as [e | weights_in] eqn:Hmap.
  - apply map_exn_inl in Hmap as (s' & Hs' & He).
    unfold arch_lookup in He.
    destruct (arch_dict (self st) !! is_model s') as [a |] eqn:Hl;
      [discriminate |].
    injection He as <-. exists (is_model s').
    split; [by apply in_map |]. by split.
  - apply map_exn_inr in Hmap. exfalso.
    clear -Hin Hnone Hmap. induction Hmap as [| x y l ys Hx _ IH]; [done |].
    destruct Hin as [-> | Hin]; [| by apply IH].
    unfold arch_lookup in Hx. by rewrite Hnone in Hx.
Qed.

Lemma layer_passes_calls (srcs : list InputSliceDefinition) (r : ConfigReader)
    (tf : Z -> Q) (l : list Z) :
  forall st st',
    for_each l (fun idx => plan_layer env srcs idx (tf idx) r) st = Return tt st' ->
    exists calls,
      st' = after_calls calls (Z.of_nat (length l)) st /\
      map tc_weight calls =
      concat (map (fun k => output_layer (self st)
                              (_current_layers (self st) + Z.of_nat k))
                  (seq 0 (length l))).
Proof.
  induction l as [| idx rest IH]; intros st st' Hrun; cbn [for_each] in Hrun.
  - injection Hrun as <-. exists []. by rewrite after_calls_nil.
  - apply bind_return in Hrun as ([] & st1 & Hlayer & Hrun).
    apply plan_layer_calls in Hlayer as (c1 & -> & Hw1 & _).
    apply IH in Hrun as (c2 & -> & Hw2).
    exists (c1 ++ c2). rewrite after_calls_after_calls. split.
    + f_equal. cbn [length]. lia.
    + rewrite map_app, Hw1, Hw2. cbn [length seq map concat].
      rewrite Z.add_0_r. f_equal. rewrite <- seq_shift, map_map. f_equal.
      apply map_ext. intros k. unfold output_layer. cbn. f_equal. lia.
Qed.

Lemma output_layers_seq (p : MergePlanner) (from n : Z) :
  output_layers p from n =
  concat (map (fun k => output_layer p (from + Z.of_nat k))
              (seq 0 (Z.to_nat n))).
Proof. unfold output_layers, range. by rewrite map_map. Qed.

Lemma seq_from (a n : nat) :
  seq a n = map (fun k => (a + k)%nat) (seq 0 n).
Proof.
  revert a. induction n as [| n IH]; intros a; cbn [seq map]; [done |].
  rewrite Nat.add_0_r. f_equal. rewrite (IH (S a)), (IH 1%nat), map_map.
  apply map_ext. intros k. lia.
Qed.

Lemma output_layers_app (p : MergePlanner) (from a b : Z) :
  0 <= a -> 0 <= b ->
  output_layers p from (a + b) =
  output_layers p from a ++ output_layers p (from + a) b.
Proof.
  intros Ha Hb. rewrite !output_layers_seq, Z2Nat.inj_add by lia.
  rewrite seq_app, map_app, concat_app. f_equal.
  rewrite (seq_from (0 + Z.to_nat a) (Z.to_nat b)), map_map. f_equal.
  apply map_ext. intros k. f_equal. lia.
Qed.

Lemma plan_slice_calls (d : OutputSliceDefinition) (st st' : Store) :
  plan_slice env d st = Return tt st' ->
  exists n calls,
    head (slice_lengths d) = Some n /\
    all_equal_first (slice_lengths d) = true /\
    st' = after_calls calls (Z.max 0 n) st /\
    map tc_weight calls =
    output_layers (self st) (_current_layers (self st)) n.
Proof.
  unfold plan_slice, plan_slice_with.
  destruct (all_equal_first (slice_lengths d)) eqn:Hall;
    cbn [negb]; [| discriminate].
  intros Hrun. apply bind_return in Hrun as (n & st0 & Hn & Hrun).
  apply lift_return in Hn as [Hn ->].
  apply bind_return in Hrun as (p & st0 & Hget & Hrun).
  injection Hget as <- <-.
  apply layer_passes_calls in Hrun as (calls & -> & Hw).
  exists n, calls. split.
  { unfold index in Hn. destruct (slice_lengths d) as [| x l]; [discriminate |].
    cbn in Hn. by injection Hn as ->. }
  split; [done |].
  rewrite range_length in *.
  split; [f_equal; lia |]. by rewrite output_layers_seq.
Qed.

Lemma all_equal_first_common (d : OutputSliceDefinition) (n : Z) :
  head (slice_lengths d) = Some n ->
  all_equal_first (slice_lengths d) = true ->
  sources d <> [] /\ forall s, In s (sources d) -> source_length s = n.
Proof.
  unfold slice_lengths. destruct (sources d) as [| s0 rest]; [discriminate |].
  cbn [map head all_equal_first]. intros [= <-] Hall. split; [done |].
  rewrite forallb_forall in Hall. intros s Hs.
  apply (bool_decide_eq_true_1 _). apply Hall.
  change (In (source_length s) (map source_length (s0 :: rest))).
  by apply in_map.
Qed.

(** X5. A call of [plan_slice] that returns: the sources share one length
    [n]; the output layer counter has advanced by [n] (by nothing when
    [n] is negative); the save tasks appended are those of the output
    architecture's weights at the output layers from the counter's
    former value on, layer after layer. *)
Theorem plan_slice_return (d : OutputSliceDefinition) (st st' : Store) :
  plan_slice env d st = Return tt st' ->
  exists n calls,
    sources d <> [] /\
    (forall s, In s (sources d) -> source_length s = n) /\
    _tasks st' = _tasks st ++ map (call_task (self st)) calls /\
    Forall2 planned_for
            (output_layers (self st) (_current_layers (self st)) n)
            (map (call_task (self st)) calls) /\
    _current_layers (self st') = _current_layers (self st) + Z.max 0 n.
Proof.
  intros Hrun.
  destruct (plan_slice_calls d st st' Hrun) as (n & calls & Hn & Hall & -> & Hw).
  destruct (all_equal_first_common d n Hn Hall) as [Hne Hcommon].
  exists n, calls. split; [done |]. split; [done |].
  split; [apply tasks_after_calls |].
  split; [rewrite <- Hw; apply planned_for_calls | reflexivity].
Qed.

(** X6. Degenerate slices. A slice without sources makes [plan_slice] raise
    [IndexError]; a slice whose sources share a length that is zero or
    negative makes it return at once. Neither touches any object. *)
Theorem plan_slice_degenerate (d : OutputSliceDefinition) (st : Store) :
  (sources d = [] -> plan_slice env d st = Raise IndexError st) /\
  (forall n, sources d <> [] ->
             (forall s, In s (sources d) -> source_length s = n) ->
             n <= 0 ->
             plan_slice env d st = Return tt st).
Proof.
  split.
  - intros Hs. unfold plan_slice, plan_slice_with, slice_lengths. by rewrite Hs.
  - intros n Hne Hcommon Hn.
    destruct (slice_lengths_common d n Hne Hcommon) as [Hall Hidx].
    unfold plan_slice, plan_slice_with. rewrite Hall. cbn [negb].
    unfold bind at 1. rewrite Hidx. cbn [lift ret]. unfold range.
    replace (Z.to_nat n) with 0%nat by lia. reflexivity.
Qed.

End LayerPasses.

(** ** Further properties: the whole pass *)

Section WholePass.

Variable env : Env.

Lemma slice_depth_nonneg (d : OutputSliceDefinition) : 0 <= slice_depth d.
Proof. unfold slice_depth. lia. Qed.

Lemma total_depth_nonneg (sl : list OutputSliceDefinition) : 0 <= total_depth sl.
Proof.
  induction sl as [| d rest IH]; cbn [total_depth fold_right]; [lia |].
  pose proof (slice_depth_nonneg d). fold (total_depth rest). lia.
Qed.

Lemma output_layers_max (p : MergePlanner) (from n : Z) :
  output_layers p from (Z.max 0 n) = output_layers p from n.
Proof.
  rewrite !output_layers_seq. by replace (Z.to_nat (Z.max 0 n)) with (Z.to_nat n) by lia.
Qed.

Lemma slices_calls (sl : list OutputSliceDefinition) :
  forall st st',
    for_each sl (plan_slice env) st = Return tt st' ->
    exists calls,
      st' = after_calls calls (total_depth sl) st /\
      map tc_weight calls =
      output_layers (self st) (_current_layers (self st)) (total_depth sl) /\
      Forall (fun d => exists n,
                sources d <> [] /\
                forall s, In s (sources d) -> source_length s = n) sl.
Proof.
  induction sl as [| d rest IH]; intros st st' Hrun; cbn [for_each] in Hrun.
  - injection Hrun as <-. exists []. rewrite after_calls_nil. by repeat split.
  - apply bind_return in Hrun as ([] & st1 & Hd & Hrun).
    apply plan_slice_calls in Hd as (n & c1 & Hn & Hall & -> & Hw1).
    apply IH in Hrun as (c2 & -> & Hw2 & Hrest).
    assert (Hdepth : slice_depth d = Z.max 0 n)
      by (unfold slice_depth; by rewrite Hn).
    exists (c1 ++ c2). rewrite after_calls_after_calls.
    cbn [total_depth fold_right]. fold (total_depth rest). rewrite Hdepth.
    split; [done |]. split.
    + rewrite map_app, Hw1, Hw2.
      rewrite output_layers_app
        by (try apply total_depth_nonneg; lia).
      by rewrite output_layers_max.
    + constructor; [| exact Hrest]. exists n.
      by apply all_equal_first_common.
Qed.

Lemma fold_min_swap (a b : nat) (l : list nat) :
  Nat.min a (fold_right Nat.min b l) = Nat.min b (fold_right Nat.min a l).
Proof. induction l as [| x l IH]; cbn [fold_right]; lia. Qed.

Lemma length_zip_star {A} (rest : list (list A)) :
  forall first,
    length (zip_star (first :: rest)) =
    fold_right Nat.min (length first) (map length rest).
Proof.
  induction rest as [| l rest IH]; intros first.
  - cbn. by rewrite length_map.
  - change (zip_star (first :: l :: rest))
      with (zip_with cons first (zip_star (l :: rest))).
    rewrite length_zip_with, IH. cbn [map fold_right].
    rewrite fold_min_swap. lia.
Qed.

Lemma heads_zip_with_cons {A} (first : list A) :
  forall rows : list (list A),
    map head (zip_with cons first rows) =
    map Some (take (length rows) first).
Proof.
  induction first as [| x first IH]; intros [| row rows]; cbn; try done.
  by rewrite IH.
Qed.

Lemma heads_zip_star {A} (first : list A) (rest : list (list A)) :
  map head (zip_star (first :: rest)) =
  map Some (take (fold_right Nat.min (length first) (map length rest)) first).
Proof.
  destruct rest as [| l rest].
  - change (zip_star [first]) with (map (fun x => [x]) first).
    cbn [map fold_right]. rewrite take_ge by lia. rewrite map_map.
    by apply map_ext.
  - change (zip_star (first :: l :: rest))
      with (zip_with cons first (zip_star (l :: rest))).
    rewrite heads_zip_with_cons, length_zip_star. cbn [map fold_right].
    rewrite (fold_min_swap (length l) (length first)), Nat.min_comm.
    rewrite <- take_take. by rewrite (take_ge first (length first)) by lia.
Qed.

Lemma rows_calls (ms : list ModelReference) (rd : WeightInfo -> ConfigReader)
    (rows : list (list WeightInfo)) :
  forall st st',
    for_each rows
      (fun weight_infos =>
         let* w0 := lift (index weight_infos 0) in
         plan_tensor env w0 weight_infos ms (rd w0)) st = Return tt st' ->
    exists calls,
      st' = after_calls calls 0 st /\
      map head rows = map Some (map tc_weight calls) /\
      map tc_pairs calls = map (zip ms) rows.
Proof.
  induction rows as [| row rows IH]; intros st st' Hrun; cbn [for_each] in Hrun.
  - injection Hrun as <-. exists []. by rewrite after_calls_nil.
  - apply bind_return in Hrun as ([] & st1 & Hrow & Hrun).
    apply bind_return in Hrow as (w0 & st0 & Hw0 & Hrow).
    apply lift_return in Hw0 as [Hw0 ->].
    apply plan_tensor_return in Hrow as (gp & tp & ->).
    apply IH in Hrun as (calls & -> & Hheads & Hpairs).
    eexists (_ :: calls). rewrite after_calls_after_calls.
    split; [done |]. cbn [map tc_weight tc_pairs]. rewrite Hheads, Hpairs.
    split; [| done]. f_equal. unfold index in Hw0.
    destruct row as [| w row]; [discriminate |]. by injection Hw0 as ->.
Qed.

Lemma plan_outer_weights_calls
    (weights_of : ArchitectureInfo -> ModelConfig -> list WeightInfo)
    (t : Q) (d : OutputSliceDefinition) (st st' : Store) :
  plan_outer_weights env weights_of t d st = Return tt st' ->
  exists per_model calls,
    per_model_weights (self st) weights_of d = inr per_model /\
    st' = after_calls calls 0 st /\
    map tc_weight calls = outer_weights per_model /\
    map tc_pairs calls = map (zip (map is_model (sources d))) (zip_star per_model).
Proof.
  unfold plan_outer_weights. intros Hrun.
  apply bind_return in Hrun as (p & st0 & Hget & Hrun).
  injection Hget as <- <-.
  apply bind_return in Hrun as (per_model & st0 & Hpm & Hrun).
  apply lift_return in Hpm as [Hpm ->].
  apply (rows_calls (map is_model (sources d))
           (fun w0 => for_out_slice
                        {| r_config := self_config (self st); r_t := t;
                           r_tensor_name := Some (w_name w0);
                           r_slice_out := None |} d)) in Hrun
    as (calls & -> & Hheads & Hpairs).
  exists per_model, calls. split; [exact Hpm |]. split; [done |].
  split; [| exact Hpairs].
  destruct per_model as [| first rest].
  - cbn in Hheads. by destruct calls.
  - rewrite heads_zip_star in Hheads. unfold outer_weights.
    symmetry. revert Hheads. generalize (map tc_weight calls).
    generalize (take (fold_right Nat.min (length first) (map length rest)) first).
    induction l as [| x l IH]; intros [| y l']; cbn; try done.
    intros [= -> Hl]. f_equal. by apply IH.
Qed.

(** X7. The weights outside the layer stack. A call of
    [plan_outer_weights] that returns has appended the save tasks for
    the descriptors of the first source model of the slice, as many as
    the shortest list among the slice's models has: what a model has
    beyond that is left out without notice, and a slice without sources
    gives no task at all. *)
Theorem plan_outer_weights_return
    (weights_of : ArchitectureInfo -> ModelConfig -> list WeightInfo)
    (t : Q) (d : OutputSliceDefinition) (st st' : Store) :
  plan_outer_weights env weights_of t d st = Return tt st' ->
  exists per_model calls,
    per_model_weights (self st) weights_of d = inr per_model /\
    length per_model = length (sources d) /\
    _tasks st' = _tasks st ++ map (call_task (self st)) calls /\
    Forall2 planned_for (outer_weights per_model)
            (map (call_task (self st)) calls) /\
    _current_layers (self st') = _current_layers (self st).
Proof.
  intros Hrun.
  destruct (plan_outer_weights_calls _ _ _ _ _ Hrun)
    as (per_model & calls & Hpm & -> & Hw & _).
  exists per_model, calls. split; [exact Hpm |]. split.
  { unfold per_model_weights in Hpm. apply map_exn_inr in Hpm.
    apply Forall2_length in Hpm. by rewrite length_map in Hpm. }
  split; [apply tasks_after_calls |].
  split; [rewrite <- Hw; apply planned_for_calls |]. cbn. lia.
Qed.

Lemma plan_slices_calls (st st' : Store) :
  plan_slices env st = Return tt st' ->
  exists sl calls,
    slices (self_config (self st)) = Some sl /\
    st' = after_calls calls (total_depth sl) st /\
    map tc_weight calls =
    output_layers (self st) (_current_layers (self st)) (total_depth sl) /\
    Forall (fun d => exists n,
              sources d <> [] /\
              forall s, In s (sources d) -> source_length s = n) sl.
Proof.
  unfold plan_slices. intros Hrun.
  apply bind_return in Hrun as (p & st0 & Hget & Hrun).
  injection Hget as <- <-.
  destruct (slices (self_config (self st))) as [sl |]; [| discriminate].
  apply slices_calls in Hrun as (calls & -> & Hw & Hall).
  by exists sl, calls.
Qed.

Lemma plan_return_calls (st st' : Store) (res : list Task) :
  plan env st = Return res st' ->
  exists st1 sl first last pre post calls,
    normalize_config st = Return tt st1 /\
    slices (self_config (self st1)) = Some sl /\
    first_slice (self_config (self st1)) = inr first /\
    last_slice (self_config (self st1)) = inr last /\
    per_model_weights (self st1) pre_weights first = inr pre /\
    per_model_weights (self st1) post_weights last = inr post /\
    res = map (call_task (self st1)) calls ++
          plan_tail (self st1) (map (call_task (self st1)) calls) /\
    map tc_weight calls =
      outer_weights pre ++
      output_layers (self st1) (_current_layers (self st1)) (total_depth sl) ++
      outer_weights post /\
    _current_layers (self st') = _current_layers (self st1) + total_depth sl /\
    Forall (fun d => exists n,
              sources d <> [] /\
              forall s, In s (sources d) -> source_length s = n) sl.
Proof.
  unfold plan. intros H.
  apply bind_return in H as ([] & st1 & Hnorm & H).
  apply bind_return in H as ([] & st2 & Hassign & H).
  apply bind_return in H as (p & st2' & Hget & H).
  apply bind_return in H as ([] & st3 & Hrec & H).
  apply bind_return in H as (first & st3' & Hfirst & H).
  apply bind_return in H as ([] & st4 & Hpre & H).
  apply bind_return in H as ([] & st5 & Hsl & H).
  apply bind_return in H as (last & st5' & Hlast & H).
  apply bind_return in H as ([] & st6 & Hpost & H).
  apply bind_return in H as (saves & st6' & Hsaves & H).
  apply bind_return in H as ([] & st7 & Happ & H).
  apply bind_return in H as (res0 & st7' & Hres & H).
  injection Hassign as <-. injection Hget as <- <-.
  rewrite space_planner_record_eq in Hrec. injection Hrec as <-.
  apply lift_return in Hfirst as [Hfirst ->].
  change (first_slice (self_config (self st1)) = inr first) in Hfirst.
  change {| class_tasks := class_tasks st1;
            self := set_space_planner _ (set_inst_tasks (Some []) (self st1)) |}
    with (plan_start st1) in *.
  apply plan_outer_weights_calls in Hpre as (pre & c1 & Hpm1 & -> & Hw1 & _).
  apply plan_slices_calls in Hsl as (sl & c2 & Hslices & -> & Hw2 & Hall).
  apply lift_return in Hlast as [Hlast ->].
  change (last_slice (self_config (self st1)) = inr last) in Hlast.
  apply plan_outer_weights_calls in Hpost as (post & c3 & Hpm2 & -> & Hw3 & _).
  rewrite !after_calls_after_calls in *.
  injection Hsaves as <- <-. rewrite append_task_eq in Happ.
  injection Happ as <-. injection Hres as <- <-.
  assert (Htasks : forall calls n,
            _tasks (after_calls calls n (plan_start st1)) =
            map (call_task (self st1)) calls).
  { intros calls n. unfold after_calls. rewrite tasks_advance.
    rewrite (map_ext _ _ (call_task_plan_start st1)). reflexivity. }
  rewrite tasks_advance, !Htasks in H. rewrite <- ?app_assoc in H.
  exists st1, sl, first, last, pre, post, (c1 ++ c2 ++ c3).
  split; [exact Hnorm |]. split; [exact Hslices |].
  split; [exact Hfirst |]. split; [exact Hlast |].
  split; [exact Hpm1 |]. split; [exact Hpm2 |].
  assert (Hres : res = map (call_task (self st1)) (c1 ++ c2 ++ c3) ++
                       plan_tail (self st1)
                         (map (call_task (self st1)) (c1 ++ c2 ++ c3)) /\
                 _current_layers (self st') =
                 _current_layers (self st1) + total_depth sl).
  { unfold plan_tail. cbn [_writer_task _tokenizer_task set_inst_tasks] in H.
    destruct (_tokenizer_task (self st1)) as [tok |]; cbn in H;
      injection H as <- <-; (split; [rewrite <- ?app_assoc; reflexivity |]);
      cbn; lia. }
  destruct Hres as [Hres Hcount]. split; [exact Hres |].
  split; [| split; [exact Hcount | exact Hall]].
  rewrite !map_app, Hw1, Hw2, Hw3. f_equal. f_equal.
  cbn. by rewrite Z.add_0_r.
Qed.

(** X8. The contents of a planning pass that returns. The save tasks are, in
    this order: those for the descriptors of the first source model of
    the first slice before the layer stack; those for the output
    architecture's weights at one output layer per layer of every slice,
    counted on from the planner's layer counter; those for the
    descriptors of the first source model of the last slice after the
    layer stack. [plan] does not reset the layer counter: it leaves it
    advanced by the total number of layers planned. *)
Theorem plan_output_weights (st st' : Store) (res : list Task) :
  plan env st = Return res st' ->
  exists st1 sl first last pre post saves,
    normalize_config st = Return tt st1 /\
    slices (self_config (self st1)) = Some sl /\
    first_slice (self_config (self st1)) = inr first /\
    last_slice (self_config (self st1)) = inr last /\
    per_model_weights (self st) pre_weights first = inr pre /\
    per_model_weights (self st) post_weights last = inr post /\
    res = saves ++ plan_tail (self st) saves /\
    Forall2 planned_for
      (outer_weights pre ++
       output_layers (self st) (_current_layers (self st)) (total_depth sl) ++
       outer_weights post)
      saves /\
    _current_layers (self st') = _current_layers (self st) + total_depth sl.
Proof.
  intros Hrun.
  destruct (plan_return_calls st st' res Hrun)
    as (st1 & sl & first & last & pre & post & calls & Hnorm & Hsl & Hfirst
        & Hlast & Hpre & Hpost & Hres & Hw & Hcount & _).
  exists st1, sl, first, last, pre, post, (map (call_task (self st1)) calls).
  assert (Hsame : per_model_weights (self st1) = per_model_weights (self st) /\
                  plan_tail (self st1) = plan_tail (self st) /\
                  output_layers (self st1) = output_layers (self st) /\
                  _current_layers (self st1) = _current_layers (self st)).
  { by destruct (normalize_config_return st st1 Hnorm) as [-> | [sl' ->]]. }
  destruct Hsame as (Hs1 & Hs2 & Hs3 & Hs4).
  rewrite Hs1 in Hpre, Hpost. rewrite Hs2 in Hres. rewrite Hs3, Hs4 in Hw.
  rewrite Hs4 in Hcount.
  repeat (split; [assumption |]). split; [| exact Hcount].
  rewrite <- Hw. apply planned_for_calls.
Qed.

(** X9. A configuration with neither form. When [models] is absent or empty,
    [plan] raises [TypeError] if [slices] is absent and [IndexError] if
    it is empty. By then the planner's task list has been replaced by
    an empty one and the procedural spaces have been registered. *)
Theorem plan_without_slices (st : Store) :
  truthy (models (self_config (self st))) = false ->
  (slices (self_config (self st)) = None ->
   plan env st = Raise TypeError (plan_start st)) /\
  (slices (self_config (self st)) = Some [] ->
   plan env st = Raise IndexError (plan_start st)) /\
  _tasks (plan_start st) = [].
Proof.
  intros Hm.
  assert (Hplan : forall e,
            first_slice (self_config (self st)) = inl e ->
            plan env st = Raise e (plan_start st)).
  { intros e He. unfold plan. unfold bind at 1.
    rewrite (normalize_config_explicit st Hm).
    unfold bind at 1. cbn [assign_tasks]. unfold bind at 1. cbn [get_self].
    unfold bind at 1. rewrite space_planner_record_eq.
    unfold bind at 1. cbn [self self_config set_inst_tasks]. by rewrite He. }
  split; [| split; [| reflexivity]].
  - intros Hs. apply Hplan. unfold first_slice. by rewrite Hs.
  - intros Hs. apply Hplan. unfold first_slice. by rewrite Hs.
Qed.

End WholePass.

(** ** Further properties: dictionaries, construction, normalization *)

Section Construction.

Lemma dict_get_set {K V} `{EqDecision K} (d : list (K * V)) (k k' : K) (v : V) :
  dict_get (dict_set d k v) k' =
  if decide (k = k') then Some v else dict_get d k'.
Proof.
  induction d as [| [k0 v0] d IH]; cbn [dict_set dict_get].
  - destruct (decide (k = k')); reflexivity.
  - destruct (decide (k0 = k)) as [-> | Hne]; cbn [dict_get].
    + destruct (decide (k = k')); reflexivity.
    + destruct (decide (k0 = k')) as [-> | Hne'].
      * destruct (decide (k = k')); [congruence | reflexivity].
      * exact IH.
Qed.

Lemma dict_set_keys {K V} `{EqDecision K} (d : list (K * V)) (k : K) (v : V) :
  map fst (dict_set d k v) =
  if decide (k ∈ map fst d) then map fst d else map fst d ++ [k].
Proof.
  induction d as [| [k0 v0] d IH]; cbn [dict_set map fst app].
  - by rewrite decide_False by apply not_elem_of_nil.
  - destruct (decide (k0 = k)) as [-> | Hne]; cbn [map fst].
    + by rewrite decide_True by (apply elem_of_cons; by left).
    + rewrite IH. destruct (decide (k ∈ map fst d)) as [Hin | Hn].
      * by rewrite decide_True by (apply elem_of_cons; by right).
      * rewrite decide_False; [reflexivity |].
        intros [-> | ?]%elem_of_cons; done.
Qed.

Lemma dict_set_nodup {K V} `{EqDecision K} (d : list (K * V)) (k : K) (v : V) :
  NoDup (map fst d) -> NoDup (map fst (dict_set d k v)).
Proof.
  intros Hd. rewrite dict_set_keys.
  destruct (decide (k ∈ map fst d)) as [Hin | Hn]; [exact Hd |].
  apply NoDup_app. split; [exact Hd |]. split.
  - intros x Hx ->%list_elem_of_singleton. contradiction.
  - apply NoDup_singleton.
Qed.

Lemma load_tasks_nodup (dt : option string)
    (pairs : list (ModelReference * WeightInfo)) :
  NoDup (map fst (load_tasks dt pairs)).
Proof.
  unfold load_tasks.
  assert (Hgen : forall d : list (ModelReference * Task),
            NoDup (map fst d) ->
            NoDup (map fst
                     (fold_left
                        (fun d '(model, weight_in) =>
                           dict_set d model
                             (LoadTensor model (w_name weight_in) dt
                                         (aliases weight_in)))
                        pairs d))).
  { induction pairs as [| [m w] rest IH]; intros d Hd; cbn [fold_left];
      [exact Hd |]. apply IH. by apply dict_set_nodup. }
  apply Hgen. constructor.
Qed.

Lemma load_tasks_get (dt : option string)
    (pairs : list (ModelReference * WeightInfo)) (m : ModelReference) :
  dict_get (load_tasks dt pairs) m =
  (fun w => LoadTensor m (w_name w) dt (aliases w)) <$> last_weight_for m pairs.
Proof.
  unfold load_tasks.
  assert (Hgen : forall d : list (ModelReference * Task),
            dict_get
              (fold_left
                 (fun d '(model, weight_in) =>
                    dict_set d model
                      (LoadTensor model (w_name weight_in) dt
                                  (aliases weight_in)))
                 pairs d) m =
            match last_weight_for m pairs with
            | Some w => Some (LoadTensor m (w_name w) dt (aliases w))
            | None => dict_get d m
            end).
  { induction pairs as [| [m' w] rest IH]; intros d;
      cbn [fold_left last_weight_for]; [reflexivity |].
    rewrite IH. destruct (last_weight_for m rest); [reflexivity |].
    rewrite dict_get_set. by destruct (decide (m' = m)) as [-> | ?]. }
  rewrite Hgen. by destruct (last_weight_for m pairs).
Qed.

Lemma dict_get_wrap (weight : WeightInfo) (d : list (ModelReference * Task))
    (m : ModelReference) :
  dict_get (map (wrap_load weight) d) m =
  AlignedLoad m weight <$> dict_get d m.
Proof.
  induction d as [| [k v] d IH]; cbn [map dict_get wrap_load fst snd];
    [reflexivity |].
  destruct (decide (k = m)) as [-> | ?]; [reflexivity | exact IH].
Qed.

(** X2. One input per model. When [plan_tensor] returns, the dictionary
    collected under the new save task has one entry per distinct model;
    a model that occurs more than once among the sources is fed by the
    weight paired with its last occurrence only, and a model that does
    not occur has no entry. *)
Theorem plan_tensor_inputs (env : Env) (weight : WeightInfo)
    (weights_in : list WeightInfo) (ms : list ModelReference)
    (r : ConfigReader) (st st' : Store) :
  plan_tensor env weight weights_in ms r st = Return tt st' ->
  exists t,
    _tasks st' = _tasks st ++ [t] /\
    NoDup (map fst (task_inputs t)) /\
    forall m, dict_get (task_inputs t) m =
              input_task (self st) weight m
                <$> last_weight_for m (zip ms weights_in).
Proof.
  intros Hrun. apply plan_tensor_return in Hrun as (gp & tp & ->).
  exists (call_task (self st)
            {| tc_weight := weight; tc_pairs := zip ms weights_in;
               tc_global := gp; tc_tensor := tp |}).
  split; [apply tasks_after_calls |].
  cbn [map call_task task_inputs tc_weight tc_pairs].
  unfold call_inputs, input_task. cbn [tc_weight tc_pairs].
  destruct (truthy (_space_planner (self st))); split.
  - rewrite map_map. cbn [wrap_load fst]. apply load_tasks_nodup.
  - intros m. rewrite dict_get_wrap, load_tasks_get.
    by destruct (last_weight_for m (zip ms weights_in)).
  - apply load_tasks_nodup.
  - intros m. apply load_tasks_get.
Qed.

Lemma call_task_inputs (p : MergePlanner) (c : TensorCall) :
  NoDup (map fst (task_inputs (call_task p c))) /\
  forall m, dict_get (task_inputs (call_task p c)) m =
            input_task p (tc_weight c) m <$> last_weight_for m (tc_pairs c).
Proof.
  cbn [call_task task_inputs]. unfold call_inputs, input_task.
  destruct (truthy (_space_planner p)); split.
  - rewrite map_map. cbn [wrap_load fst]. apply load_tasks_nodup.
  - intros m. rewrite dict_get_wrap, load_tasks_get.
    by destruct (last_weight_for m (tc_pairs c)).
  - apply load_tasks_nodup.
  - intros m. apply load_tasks_get.
Qed.

(** X3. A layer pass that returns has appended one save task per weight of
    the output architecture at the current output layer, in their order
    and under their names, and the output layer counter has gone up by
    one. Every source contributes to the task at position [k] the pair
    of its model and its weight at position [k] of layer [start +
    layer_offset]; the task collects one input per distinct model of
    these pairs, the load task of the weight of the last source that
    names the model, so an earlier source of the same model feeds
    nothing. *)
Theorem plan_layer_return (env : Env) (srcs : list InputSliceDefinition)
    (layer_offset : Z) (t : Q) (r : ConfigReader) (st st' : Store) :
  plan_layer env srcs layer_offset t r st = Return tt st' ->
  exists new,
    _tasks st' = _tasks st ++ new /\
    Forall2 planned_for
            (output_layer (self st) (_current_layers (self st))) new /\
    _current_layers (self st') = _current_layers (self st) + 1 /\
    forall (k : nat) w task,
      output_layer (self st) (_current_layers (self st)) !! k = Some w ->
      new !! k = Some task ->
      exists pairs,
        Forall2 (source_input (self st) layer_offset k) srcs pairs /\
        NoDup (map fst (task_inputs task)) /\
        forall m, dict_get (task_inputs task) m =
                  input_task (self st) w m <$> last_weight_for m pairs.
Proof.
  intros Hrun.
  destruct (plan_layer_calls _ _ _ _ _ _ _ Hrun) as (calls & -> & Hw & Hpairs).
  exists (map (call_task (self st)) calls).
  split; [apply tasks_after_calls |].
  split; [rewrite <- Hw; apply planned_for_calls |].
  split; [reflexivity |].
  intros k w task Hk Htask. rewrite <- Hw in Hk.
  rewrite list_lookup_fmap in Hk. rewrite list_lookup_fmap in Htask.
  destruct (calls !! k) as [c |] eqn:Hc; [| discriminate].
  cbn in Hk, Htask. injection Hk as <-. injection Htask as <-.
  exists (tc_pairs c). split; [by apply Hpairs |].
  apply call_task_inputs.
Qed.

Lemma lookup_fold_insert {V} (f : ModelReference -> V) (l : list ModelReference) :
  forall (d : gmap ModelReference V) (k : ModelReference),
    fold_left (fun d m => <[m := f m]> d) l d !! k =
    if decide (k ∈ l) then Some (f k) else d !! k.
Proof.
  induction l as [| m l IH]; intros d k; cbn [fold_left].
  - by rewrite decide_False by apply not_elem_of_nil.
  - rewrite IH. destruct (decide (k ∈ l)) as [Hin | Hn].
    + by rewrite decide_True by (apply elem_of_cons; by right).
    + destruct (decide (m = k)) as [-> | Hne].
      * rewrite decide_True by (apply elem_of_cons; by left). apply lookup_insert_eq.
      * rewrite decide_False by (intros [-> | ?]%elem_of_cons; done).
        by apply lookup_insert_ne.
Qed.

(** X10. Construction. [__init__] raises [IndexError] when the configuration
    references no model. Otherwise the planner's output architecture is
    that of the first referenced model, and [arch_dict] has an entry
    for exactly the referenced models, each configured against the
    first model's configuration. *)
Theorem init_arch_dict (env : Env) (cfg : MergeConfiguration)
    (out_path : string) (options : MergeOptions) (out_cfg : ModelConfig) :
  (referenced_models env cfg = [] ->
   init env cfg out_path options out_cfg = inl IndexError) /\
  (forall first rest,
     referenced_models env cfg = first :: rest ->
     exists p,
       init env cfg out_path options out_cfg = inr p /\
       arch_info p = get_architecture_info env (model_config env first) /\
       forall m,
         arch_dict p !! m =
         if decide (m ∈ first :: rest)
         then Some (configure_model env cfg (model_config env first) m)
         else None).
Proof.
  split.
  - intros Href. unfold init. by rewrite Href.
  - intros first rest Href. unfold init. rewrite Href.
    eexists. split; [reflexivity |]. split; [reflexivity |].
    intros m. cbn [arch_dict]. rewrite lookup_fold_insert.
    destruct (decide (m ∈ first :: rest)); [reflexivity |].
    apply lookup_empty.
Qed.

Lemma find_mapping_for_some (env : Env) (arch : string) (dests : list string)
    (mapping : Mapping) :
  find_mapping_for env arch dests = Some mapping ->
  truthy mapping = true /\
  exists d, In d dests /\ JSON_MAPPINGS env arch d = Some mapping.
Proof.
  induction dests as [| d dests IH]; cbn [find_mapping_for]; [discriminate |].
  destruct (truthy (JSON_MAPPINGS env arch d)) eqn:Ht.
  - intros Hm. rewrite Hm in Ht. split; [exact Ht |].
    exists d. split; [by left | exact Hm].
  - intros Hm. destruct (IH Hm) as (Htr & d' & Hin & Hd').
    split; [exact Htr |]. exists d'. split; [by right | exact Hd'].
Qed.

Lemma find_mapping_for_none (env : Env) (arch : string) (dests : list string) :
  find_mapping_for env arch dests = None <->
  forall d, In d dests -> truthy (JSON_MAPPINGS env arch d) = false.
Proof.
  induction dests as [| d dests IH]; cbn [find_mapping_for].
  - split; [by intros _ ? [] | done].
  - destruct (truthy (JSON_MAPPINGS env arch d)) eqn:Ht.
    + split.
      * intros Hnone. rewrite Hnone in Ht. discriminate.
      * intros Hall. rewrite Hall in Ht by (by left). discriminate.
    + rewrite IH. split.
      * intros Hall d' [<- | Hin]; [exact Ht | by apply Hall].
      * intros Hall d' Hin. apply Hall. by right.
Qed.

(** X11. The search for a weight-name mapping in [__init__]. A mapping it
    finds is a non-empty entry of [JSON_MAPPINGS] from one of the base
    architectures to one of the model's architectures; it finds none
    exactly when every such entry is absent or empty. *)
Theorem find_mapping_spec (env : Env) (archs dests : list string) :
  (forall mapping,
     find_mapping env archs dests = Some mapping ->
     truthy mapping = true /\
     exists a d, In a archs /\ In d dests /\
                 JSON_MAPPINGS env a d = Some mapping) /\
  (find_mapping env archs dests = None <->
   forall a d, In a archs -> In d dests ->
               truthy (JSON_MAPPINGS env a d) = false).
Proof.
  induction archs as [| a archs [IHsome IHnone]]; cbn [find_mapping].
  - split; [discriminate |]. split; [by intros _ ? ? [] | done].
  - destruct (find_mapping_for env a dests) as [found |] eqn:Hfor.
    + split.
      * intros mapping [= <-].
        destruct (find_mapping_for_some _ _ _ _ Hfor) as (Ht & d & Hd & Hm).
        split; [exact Ht |]. exists a, d. split; [by left | by split].
      * split; [discriminate |]. intros Hall. exfalso.
        destruct (find_mapping_for_some _ _ _ _ Hfor) as (Ht & d & Hd & Hm).
        specialize (Hall a d (or_introl eq_refl) Hd). rewrite Hm in Hall.
        cbn in Hall. congruence.
    + split.
      * intros mapping Hm. destruct (IHsome mapping Hm) as (Ht & a' & d & Ha & Hd & He).
        split; [exact Ht |]. exists a', d. split; [by right | by split].
      * rewrite IHnone. split.
        -- intros Hall a' d [<- | Ha] Hd; [| by apply Hall].
           by apply (proj1 (find_mapping_for_none env a dests) Hfor).
        -- intros Hall a' d Ha Hd. apply Hall; [by right | exact Hd].
Qed.

Lemma collect_slices_no_base (p : MergePlanner)
    (layers : ModelReference -> Z) (ms : list InputModelDefinition) :
  base_model (self_config p) = None ->
  (forall mi, In mi ms ->
     exists a, arch_dict p !! im_model mi = Some a /\
               cai_num_layers a = layers (im_model mi)) ->
  forall base_slice slices_in,
    collect_slices p ms base_slice slices_in =
    inr (base_slice, slices_in ++ map (full_depth_slice layers) ms).
Proof.
  intros Hb. induction ms as [| mi rest IH]; intros Harch base_slice slices_in.
  - cbn. by rewrite app_nil_r.
  - destruct (Harch mi) as (a & Ha & Hl); [by left |].
    cbn [collect_slices]. unfold arch_lookup. rewrite Ha, Hb, Hl.
    rewrite decide_False by discriminate.
    rewrite IH by (intros mi' Hin; apply Harch; by right).
    cbn [map]. by rewrite <- app_assoc.
Qed.

Lemma collect_slices_missing (p : MergePlanner) (ms : list InputModelDefinition)
    (mi : InputModelDefinition) :
  In mi ms ->
  arch_dict p !! im_model mi = None ->
  forall base_slice slices_in,
    exists m, collect_slices p ms base_slice slices_in = inl (KeyError m) /\
              In m (map im_model ms) /\ arch_dict p !! m = None.
Proof.
  intros Hin Hnone. induction ms as [| x rest IH]; [done |].
  intros base_slice slices_in. cbn [collect_slices]. unfold arch_lookup.
  destruct (arch_dict p !! im_model x) as [a |] eqn:Hx.
  - destruct Hin as [-> | Hin]; [congruence |].
    destruct (decide (Some (im_model x) = base_model (self_config p)));
      (edestruct (IH Hin) as (m & -> & Hm & Hn);
       exists m; split; [reflexivity |]; split; [by right | exact Hn]).
  - exists (im_model x). split; [reflexivity |]. split; [by left | exact Hx].
Qed.

(** X12. Normalization without a base model: the single output slice has one
    source per entry of the shorthand list, in listing order and with
    repetitions kept, each over the full depth of its model with its
    listed overrides. *)
Theorem normalize_config_without_base (st : Store)
    (ms : list InputModelDefinition) (layers : ModelReference -> Z) :
  models (self_config (self st)) = Some ms ->
  ms <> [] ->
  truthy (slices (self_config (self st))) = false ->
  base_model (self_config (self st)) = None ->
  (forall mi, In mi ms ->
     exists a, arch_dict (self st) !! im_model mi = Some a /\
               cai_num_layers a = layers (im_model mi)) ->
  normalize_config st =
  Return tt (normalized (map (full_depth_slice layers) ms) st).
Proof.
  intros Hms Hne Hsl Hb Harch.
  unfold normalize_config, bind, get_self, lift, raise, ret, put_self.
  rewrite Hms, Hsl. destruct ms as [| mi0 rest]; [done |].
  cbn [truthy truthy_option truthy_list default].
  rewrite (collect_slices_no_base (self st) layers (mi0 :: rest) Hb Harch).
  cbn [fst snd app]. unfold with_base_first. by rewrite Hb.
Qed.

(** X13. Normalization of a shorthand list that names a model without
    architecture entry raises [KeyError] for such a model and leaves the
    configuration as it was: both forms stay as given. *)
Theorem normalize_config_unknown_model (st : Store)
    (ms : list InputModelDefinition) (mi : InputModelDefinition) :
  models (self_config (self st)) = Some ms ->
  truthy (slices (self_config (self st))) = false ->
  In mi ms ->
  arch_dict (self st) !! im_model mi = None ->
  exists m,
    normalize_config st = Raise (KeyError m) st /\
    In m (map im_model ms) /\
    arch_dict (self st) !! m = None.
Proof.
  intros Hms Hsl Hin Hnone.
  destruct (collect_slices_missing (self st) ms mi Hin Hnone None [])
    as (m & Hc & Hm & Hn).
  exists m. split; [| by split].
  unfold normalize_config, bind, get_self, lift, raise, ret, put_self.
  rewrite Hms, Hsl. destruct ms as [| mi0 rest]; [done |].
  cbn [truthy truthy_option truthy_list default].
  change (id (mi0 :: rest)) with (mi0 :: rest). by rewrite Hc.
Qed.

End Construction.

(** ** Runs of the further properties *)

Section Runs.

Lemma plan_tensor_inputs_witness :
  exists t,
    _tasks (final_store Edge.tensor_run) = _tasks Edge.start ++ [t] /\
    dict_get (task_inputs t) Sample.model_a =
    Some (LoadTensor Sample.model_a "lm_head.weight" None
                     ["model.embed_tokens.weight"]).
Proof.
  assert (Hrun : Edge.tensor_run = Return tt (final_store Edge.tensor_run))
    by (vm_compute; reflexivity).
  destruct (plan_tensor_inputs _ _ _ _ _ _ _ Hrun) as (t & Ht & _ & Hget).
  exists t. split; [exact Ht |]. by rewrite Hget.
Defined.

Lemma plan_layer_return_witness :
  exists new,
    _tasks (final_store Edge.twice_run) = _tasks Edge.start ++ new /\
    Forall2 planned_for
            (output_layer (self Edge.start) (_current_layers (self Edge.start)))
            new /\
    _current_layers (self (final_store Edge.twice_run)) =
      _current_layers (self Edge.start) + 1 /\
    forall (k : nat) w task,
      output_layer (self Edge.start) (_current_layers (self Edge.start)) !! k =
        Some w ->
      new !! k = Some task ->
      exists pairs,
        Forall2 (source_input (self Edge.start) 0 k) (sources Edge.twice_a)
                pairs /\
        NoDup (map fst (task_inputs task)) /\
        forall m, dict_get (task_inputs task) m =
                  input_task (self Edge.start) w m <$> last_weight_for m pairs.
Proof.
  apply (plan_layer_return Sample.env (sources Edge.twice_a) 0 0%Q
           (slice_reader Edge.start Edge.twice_a) Edge.start
           (final_store Edge.twice_run)).
  vm_compute. reflexivity.
Defined.

Lemma plan_layer_unknown_model_witness :
  exists m,
    In m (map is_model Edge.with_stranger_sources) /\
    arch_dict (self Edge.start) !! m = None /\
    plan_layer Sample.env Edge.with_stranger_sources 0 0%Q
      (slice_reader Edge.start Sample.even_slice) Edge.start =
    Raise (KeyError m) Edge.start.
Proof.
  apply (plan_layer_unknown_model Sample.env Edge.with_stranger_sources 0 0%Q
           (slice_reader Edge.start Sample.even_slice) Edge.start
           (Sample.whole Edge.stranger 2)).
  - right. by left.
  - vm_compute. reflexivity.
Defined.

Lemma plan_slice_return_witness :
  exists n calls,
    (forall s, In s (sources Sample.even_slice) -> source_length s = n) /\
    _tasks (final_store Edge.slice_run) =
      _tasks Edge.start ++ map (call_task (self Edge.start)) calls /\
    _current_layers (self (final_store Edge.slice_run)) =
      _current_layers (self Edge.start) + Z.max 0 n.
Proof.
  assert (Hrun : Edge.slice_run = Return tt (final_store Edge.slice_run))
    by (vm_compute; reflexivity).
  destruct (plan_slice_return _ _ _ _ Hrun)
    as (n & calls & _ & Hn & Ht & _ & Hc).
  exists n, calls. by repeat split.
Defined.

Lemma plan_slice_degenerate_witness :
  plan_slice Sample.env Edge.no_sources Edge.start = Raise IndexError Edge.start /\
  plan_slice Sample.env Edge.empty_range Edge.start = Return tt Edge.start.
Proof.
  split.
  - exact (proj1 (plan_slice_degenerate Sample.env Edge.no_sources Edge.start)
                 eq_refl).
  - refine (proj2 (plan_slice_degenerate Sample.env Edge.empty_range Edge.start)
                  0 _ _ _).
    + discriminate.
    + intros s [<- | [<- | []]]; reflexivity.
    + lia.
Defined.

Lemma plan_outer_weights_return_witness :
  exists per_model calls,
    per_model_weights (self Edge.start) pre_weights Sample.even_slice =
      inr per_model /\
    length per_model = 2%nat /\
    _tasks (final_store Edge.outer_run) =
      _tasks Edge.start ++ map (call_task (self Edge.start)) calls.
Proof.
  assert (Hrun : Edge.outer_run = Return tt (final_store Edge.outer_run))
    by (vm_compute; reflexivity).
  destruct (plan_outer_weights_return _ _ _ _ _ _ Hrun)
    as (per_model & calls & Hpm & Hlen & Ht & _).
  exists per_model, calls. by repeat split.
Defined.

Lemma plan_output_weights_witness :
  exists sl saves,
    returned Edge.pass_run = Some (saves ++ plan_tail (self Edge.start) saves) /\
    _current_layers (self (final_store Edge.pass_run)) =
      _current_layers (self Edge.start) + total_depth sl.
Proof.
  destruct Edge.pass_run as [res st' | e st'] eqn:Hrun;
    [| vm_compute in Hrun; discriminate].
  destruct (plan_output_weights Sample.env _ _ _ Hrun)
    as (st1 & sl & first & last & pre & post & saves & _ & _ & _ & _ & _ & _
        & Hres & _ & Hc).
  exists sl, saves. split; [by rewrite Hres | exact Hc].
Defined.

Lemma plan_without_slices_witness :
  plan Sample.env (Sample.fresh Edge.no_form) =
    Raise TypeError (plan_start (Sample.fresh Edge.no_form)) /\
  plan Sample.env (Sample.fresh Edge.empty_form) =
    Raise IndexError (plan_start (Sample.fresh Edge.empty_form)).
Proof.
  split.
  - exact (proj1 (plan_without_slices Sample.env (Sample.fresh Edge.no_form)
                    eq_refl) eq_refl).
  - exact (proj1 (proj2 (plan_without_slices Sample.env
                           (Sample.fresh Edge.empty_form) eq_refl)) eq_refl).
Defined.

Lemma init_arch_dict_witness :
  init Edge.no_models_env Sample.shorthand "out" Sample.options
       Sample.llama_config = inl IndexError /\
  exists p,
    init Sample.env Sample.shorthand "out" Sample.options Sample.llama_config =
      inr p /\
    arch_dict p !! Edge.stranger = None.
Proof.
  split.
  - exact (proj1 (init_arch_dict Edge.no_models_env Sample.shorthand "out"
                    Sample.options Sample.llama_config) eq_refl).
  - destruct (proj2 (init_arch_dict Sample.env Sample.shorthand "out"
                       Sample.options Sample.llama_config)
                    Sample.model_a [Sample.model_b] eq_refl)
      as (p & Hp & _ & Hdict).
    exists p. split; [exact Hp |]. rewrite Hdict. reflexivity.
Defined.

Lemma find_mapping_spec_witness :
  truthy [("model.embed_tokens.weight", "tok_embeddings.weight")] = true /\
  truthy (JSON_MAPPINGS Edge.mapped_env "LlamaForCausalLM" "GPT2LMHeadModel") =
    false.
Proof.
  split.
  - exact (proj1 (proj1 (find_mapping_spec Edge.mapped_env
                           ["LlamaForCausalLM"]
                           ["GPT2LMHeadModel"; "MistralForCausalLM"])
                        _ eq_refl)).
  - refine (proj1 (proj2 (find_mapping_spec Edge.mapped_env
                            ["LlamaForCausalLM"] ["GPT2LMHeadModel"]))
                  eq_refl "LlamaForCausalLM" "GPT2LMHeadModel" _ _); by left.
Defined.

Lemma normalize_config_without_base_witness :
  normalize_config Edge.start =
  Return tt (normalized [Sample.whole Sample.model_a 2;
                         Sample.whole Sample.model_b 2] Edge.start).
Proof.
  refine (normalize_config_without_base Edge.start
            [Sample.listed Sample.model_a; Sample.listed Sample.model_b]
            Sample.two_layers eq_refl _ eq_refl eq_refl _).
  - discriminate.
  - intros mi [<- | [<- | []]]; eexists; split; vm_compute; reflexivity.
Defined.

Lemma normalize_config_unknown_model_witness :
  exists m,
    normalize_config (Sample.fresh Edge.with_stranger) =
      Raise (KeyError m) (Sample.fresh Edge.with_stranger) /\
    arch_dict (self (Sample.fresh Edge.with_stranger)) !! m = None.
Proof.
  destruct (normalize_config_unknown_model (Sample.fresh Edge.with_stranger)
              [Sample.listed Sample.model_a; Sample.listed Edge.stranger]
              (Sample.listed Edge.stranger) eq_refl eq_refl)
    as (m & Hrun & _ & Hn).
  - right. by left.
  - vm_compute. reflexivity.
  - exists m. by split.
Defined.

End Runs.
